(** * Signature extraction engine of context_builder: a shallow embedding

    The development follows the three parser modules of the repository:
    - [context_builder/javascript_parser.py]  (module [JS]),
    - [context_builder/typescript_parser.py]  (module [TS]),
    - [main.py], the tree-based Python extractor and the report (modules
      [Py] and [Report]).

    Python [str] values are modelled by [string]: a sequence of Unicode code
    points, each a number.  The blanks of [str.strip] and of the class [\s],
    and the line boundaries of [str.splitlines], are Python's; the letters
    and digits of the class [\w] outside ASCII are those of the interpreter's
    Unicode database, which the development leaves open (class [Unicode]).
    Python [int]s that only count lines are [nat]; the parenthesis counter
    of the parameter cleaner, which can go below zero, is a [Z]. *)

From Stdlib Require Import List Bool Arith ZArith NArith Lia.
From Stdlib.Strings Require Import Byte.
From Stdlib Require Import Permutation Sorted.
Import ListNotations.

Set Warnings "-register-all".

(** ** Characters and strings *)

(** A character of a Python [str]: its code point. *)
Module Char.

Definition char : Set := N.

Definition eqb (a b : char) : bool := N.eqb a b.

Definition compare (a b : char) : comparison := N.compare a b.

Definition eq_dec : forall a b : char, {a = b} + {a <> b} := N.eq_dec.

(** The code points of a UTF-8 text, for the literals of this file. *)
Definition continuation (b : byte) : option N :=
  let n := Byte.to_N b in
  if (128 <=? n)%N && (n <? 192)%N then Some (n - 128)%N else None.

Fixpoint decode (fuel : nat) (bs : list byte) : option (list char) :=
  match fuel with
  | O => match bs with [] => Some [] | _ :: _ => None end
  | S fuel' =>
      match bs with
      | [] => Some []
      | b :: rest =>
          let n := Byte.to_N b in
          if (n <? 128)%N then option_map (cons n) (decode fuel' rest)
          else if (n <? 192)%N then None
          else if (n <? 224)%N then
            match rest with
            | b1 :: rest' =>
                match continuation b1 with
                | Some c1 =>
                    option_map (cons ((n - 192) * 64 + c1)%N) (decode fuel' rest')
                | None => None
                end
            | _ => None
            end
          else if (n <? 240)%N then
            match rest with
            | b1 :: b2 :: rest' =>
                match continuation b1, continuation b2 with
                | Some c1, Some c2 =>
                    option_map (cons ((n - 224) * 4096 + c1 * 64 + c2)%N)
                      (decode fuel' rest')
                | _, _ => None
                end
            | _ => None
            end
          else
            match rest with
            | b1 :: b2 :: b3 :: rest' =>
                match continuation b1, continuation b2, continuation b3 with
                | Some c1, Some c2, Some c3 =>
                    option_map
                      (cons ((n - 240) * 262144 + c1 * 4096 + c2 * 64 + c3)%N)
                      (decode fuel' rest')
                | _, _, _ => None
                end
            | _ => None
            end
      end
  end.

Definition byte_of (n : N) : byte :=
  match Byte.of_N n with Some b => b | None => x00 end.

Definition encode (c : char) : list byte :=
  if (c <? 128)%N then [byte_of c]
  else if (c <? 2048)%N then [byte_of (192 + c / 64); byte_of (128 + c mod 64)]
  else if (c <? 65536)%N then
    [byte_of (224 + c / 4096); byte_of (128 + (c / 64) mod 64);
     byte_of (128 + c mod 64)]
  else
    [byte_of (240 + c / 262144); byte_of (128 + (c / 4096) mod 64);
     byte_of (128 + (c / 64) mod 64); byte_of (128 + c mod 64)].

Definition digit (b : byte) : option N :=
  let n := Byte.to_N b in
  if (48 <=? n)%N && (n <=? 57)%N then Some (n - 48)%N else None.

(** A character literal: one character, or its code point in three
    decimal digits. *)
Definition of_bytes (bs : list byte) : option N :=
  match decode (List.length bs) bs with
  | Some [c] => Some c
  | Some [_; _; _] =>
      match map digit bs with
      | [Some a; Some b; Some c] => Some (a * 100 + b * 10 + c)%N
      | _ => None
      end
  | _ => None
  end.

Declare Scope pychar_scope.
Delimit Scope pychar_scope with char.
Bind Scope pychar_scope with char.
String Notation N of_bytes encode : pychar_scope.

End Char.

Import Char.

(** A Python [str]. *)
Module String.

Inductive string : Set :=
| EmptyString : string
| String : char -> string -> string.

Fixpoint of_list (l : list char) : string :=
  match l with
  | [] => EmptyString
  | c :: l' => String c (of_list l')
  end.

Fixpoint list_char_of_string (s : string) : list char :=
  match s with
  | EmptyString => []
  | String c s' => c :: list_char_of_string s'
  end.

Definition of_bytes (bs : list byte) : option string :=
  option_map of_list (Char.decode (List.length bs) bs).

Definition to_bytes (s : string) : list byte :=
  flat_map Char.encode (list_char_of_string s).

Declare Scope pystr_scope.
Delimit Scope pystr_scope with string.
Bind Scope pystr_scope with string.
String Notation string of_bytes to_bytes : pystr_scope.

Local Open Scope pystr_scope.

Definition string_dec : forall s1 s2 : string, {s1 = s2} + {s1 <> s2}.
Proof.
  decide equality. apply Char.eq_dec.
Defined.

Fixpoint eqb (s1 s2 : string) : bool :=
  match s1, s2 with
  | EmptyString, EmptyString => true
  | String c1 s1', String c2 s2' => Char.eqb c1 c2 && eqb s1' s2'
  | _, _ => false
  end.

(** Strings compare by code points, as Python's do. *)
Fixpoint compare (s1 s2 : string) : comparison :=
  match s1, s2 with
  | EmptyString, EmptyString => Eq
  | EmptyString, String _ _ => Lt
  | String _ _, EmptyString => Gt
  | String c1 s1', String c2 s2' =>
      match Char.compare c1 c2 with
      | Eq => compare s1' s2'
      | ne => ne
      end
  end.

Definition ltb (s1 s2 : string) : bool :=
  match compare s1 s2 with Lt => true | _ => false end.


Fixpoint append (s1 s2 : string) : string :=
  match s1 with
  | EmptyString => s2
  | String c s1' => String c (append s1' s2)
  end.

Notation "x ++ y" := (append x y) (right associativity, at level 60)
  : pystr_scope.

Fixpoint length (s : string) : nat :=
  match s with
  | EmptyString => 0
  | String _ s' => S (length s')
  end.

(** [s[:m]]: the first [m] characters of [s]. *)
Fixpoint take (m : nat) (s : string) : string :=
  match s, m with
  | String c s', S m' => String c (take m' s')
  | _, _ => EmptyString
  end.

(** [s2.startswith(s1)] *)
Fixpoint prefix (s1 s2 : string) {struct s2} : bool :=
  match s1 with
  | EmptyString => true
  | String a s1' =>
      match s2 with
      | EmptyString => false
      | String b s2' => if Char.eq_dec a b then prefix s1' s2' else false
      end
  end.

(** [sep.join(ls)] *)
Fixpoint concat (sep : string) (ls : list string) : string :=
  match ls with
  | [] => EmptyString
  | [x] => x
  | x :: xs => x ++ sep ++ concat sep xs
  end.

(** The digits of a number. *)
Fixpoint of_uint (d : Decimal.uint) : string :=
  match d with
  | Decimal.Nil => EmptyString
  | Decimal.D0 d => String "0" (of_uint d)
  | Decimal.D1 d => String "1" (of_uint d)
  | Decimal.D2 d => String "2" (of_uint d)
  | Decimal.D3 d => String "3" (of_uint d)
  | Decimal.D4 d => String "4" (of_uint d)
  | Decimal.D5 d => String "5" (of_uint d)
  | Decimal.D6 d => String "6" (of_uint d)
  | Decimal.D7 d => String "7" (of_uint d)
  | Decimal.D8 d => String "8" (of_uint d)
  | Decimal.D9 d => String "9" (of_uint d)
  end.

End String.

Import String.

(** The letters and digits of the interpreter's Unicode database
    ([str.isalnum]), consulted for the characters outside ASCII. *)
Class Unicode : Type := { isalnum : char -> bool }.

Local Open Scope pystr_scope.
Local Open Scope list_scope.

(** ** Exceptions and results *)

Inductive exn : Type :=
| SyntaxError
| OSError
| ValueError
| AttributeError.

(** The outcome of a Python call: a returned value or a raised exception. *)
Inductive result (A : Type) : Type :=
| Ok (a : A)
| Raise (e : exn).

Arguments Ok {A} a.
Arguments Raise {A} e.

Definition bind {A B : Type} (m : result A) (f : A -> result B) : result B :=
  match m with
  | Ok a => f a
  | Raise e => Raise e
  end.

Notation "x <- m ;; k" := (bind m (fun x => k))
  (at level 61, m at next level, right associativity).

(** ** Python string operations used by the parsers *)

Module Str.

(** [str.isspace], which is also the class [\s] of [re] and what
    [str.strip] removes: TAB, LF, VT, FF, CR, the separators U+001C-U+001F,
    the blank, NEL, the no-break space and the blanks of the general
    punctuation and CJK blocks. *)
Definition isspace (c : char) : bool :=
  (((9 <=? c) && (c <=? 13)) || ((28 <=? c) && (c <=? 32))
   || (c =? 133) || (c =? 160) || (c =? 5760)
   || ((8192 <=? c) && (c <=? 8202))
   || (c =? 8232) || (c =? 8233) || (c =? 8239) || (c =? 8287)
   || (c =? 12288))%N.

(** [\w] of [re] on a [str]: the underscore, the letters and digits of
    ASCII and, outside ASCII, the letters and digits of the Unicode
    database. *)
Definition isword {U : Unicode} (c : char) : bool :=
  ((c =? 95)
   || (if c <? 128
       then ((48 <=? c) && (c <=? 57)) || ((65 <=? c) && (c <=? 90))
            || ((97 <=? c) && (c <=? 122))
       else isalnum c))%N.

Fixpoint lstrip (s : string) : string :=
  match s with
  | String c s' => if isspace c then lstrip s' else s
  | EmptyString => EmptyString
  end.

Fixpoint rstrip (s : string) : string :=
  match s with
  | String c s' =>
      match rstrip s' with
      | EmptyString => if isspace c then EmptyString else String c EmptyString
      | r => String c r
      end
  | EmptyString => EmptyString
  end.

(** [s.strip()] *)
Definition strip (s : string) : string := rstrip (lstrip s).

(** Truth value of a string: non-empty. *)
Definition truthy (s : string) : bool :=
  match s with EmptyString => false | _ => true end.

(** [c in s] for a one-character string [c]. *)
Fixpoint contains (c : char) (s : string) : bool :=
  match s with
  | String d s' => Char.eqb d c || contains c s'
  | EmptyString => false
  end.

(** [s.split(c)[0]]: the text before the first [c] (all of [s] without). *)
Fixpoint before (c : char) (s : string) : string :=
  match s with
  | String d s' => if Char.eqb d c then EmptyString else String d (before c s')
  | EmptyString => EmptyString
  end.

(** Second component of [s.split(c, 1)] when [c] occurs in [s]. *)
Fixpoint after (c : char) (s : string) : string :=
  match s with
  | String d s' => if Char.eqb d c then s' else after c s'
  | EmptyString => EmptyString
  end.

(** [s.split(c)]: always at least one piece. *)
Fixpoint split (c : char) (s : string) : list string :=
  match s with
  | String d s' =>
      if Char.eqb d c then EmptyString :: split c s'
      else match split c s' with
           | p :: ps => String d p :: ps
           | [] => [String d EmptyString]
           end
  | EmptyString => [EmptyString]
  end.

(** A text [strip] leaves as it is. *)
Definition stripped (s : string) : Prop := lstrip s = s /\ rstrip s = s.

(** [sep.join(ls)] *)
Definition join (sep : string) (ls : list string) : string := concat sep ls.

(** [str(i)] for a non-negative integer. *)
Definition of_nat (i : nat) : string := match Nat.to_uint i with
  | Decimal.Nil => "0"
  | d => String.of_uint d
  end.

(** [enumerate(ls, start)] *)
Fixpoint enumerate {A : Type} (start : nat) (ls : list A) : list (nat * A) :=
  match ls with
  | [] => []
  | x :: xs => (start, x) :: enumerate (S start) xs
  end.

End Str.

(** ** Regular expressions: the fragment of [re] the pattern tables use

    The patterns of both parsers are built from literals, one-character
    classes, sequence, alternation, greedy [?], greedy [*] and [+] applied to
    a one-character class, and numbered capture groups.  Comments quote the
    source patterns with blanks between their tokens.  [run] lists, in the
    order in which the backtracking matcher of [re] explores them, all the
    ways a pattern matches a prefix of the text: the head of the list is the
    match [re] reports. *)

Module Re.

Inductive regex : Type :=
| Eps
| Cls (p : char -> bool)
| Seq (a b : regex)
| Alt (a b : regex)
| Opt (a : regex)
| Star (p : char -> bool)
| Group (n : nat) (a : regex).

(** Captured groups, most recent binding first. *)
Definition groups : Type := list (nat * string).

Fixpoint group (g : groups) (n : nat) : option string :=
  match g with
  | [] => None
  | (m, v) :: g' => if Nat.eqb m n then Some v else group g' n
  end.

(** The text between the position of [s] and that of its suffix [s']. *)
Definition consumed (s s' : string) : string :=
  take (String.length s - String.length s') s.

Fixpoint star (p : char -> bool) (s : string) (g : groups)
  : list (string * groups) :=
  match s with
  | String c s' => if p c then star p s' g ++ [(s, g)] else [(s, g)]
  | EmptyString => [(s, g)]
  end.

Fixpoint run (r : regex) (s : string) (g : groups) : list (string * groups) :=
  match r with
  | Eps => [(s, g)]
  | Cls p =>
      match s with
      | String c s' => if p c then [(s', g)] else []
      | EmptyString => []
      end
  | Seq a b => flat_map (fun x => run b (fst x) (snd x)) (run a s g)
  | Alt a b => run a s g ++ run b s g
  | Opt a => run a s g ++ [(s, g)]
  | Star p => star p s g
  | Group n a =>
      map (fun x => (fst x, (n, consumed s (fst x)) :: snd x)) (run a s g)
  end.

(** [re.search(pattern, text)]: leftmost start position, first match there. *)
Fixpoint search (r : regex) (s : string) : option groups :=
  match run r s [] with
  | x :: _ => Some (snd x)
  | [] =>
      match s with
      | String _ s' => search r s'
      | EmptyString => None
      end
  end.

(** [len(match.groups())]: the number of groups of the pattern. *)
Fixpoint ngroups (r : regex) : nat :=
  match r with
  | Eps | Cls _ | Star _ => 0
  | Seq a b | Alt a b => ngroups a + ngroups b
  | Opt a => ngroups a
  | Group _ a => S (ngroups a)
  end.

(** Pattern syntax. *)
Definition chr (c : char) : regex := Cls (Char.eqb c).
Definition notchr (c : char) : char -> bool := fun d => negb (Char.eqb d c).
Definition plus (p : char -> bool) : regex := Seq (Cls p) (Star p).

Fixpoint lit (s : string) : regex :=
  match s with
  | EmptyString => Eps
  | String c EmptyString => chr c
  | String c s' => Seq (chr c) (lit s')
  end.

(** Static facts about a pattern, used to reason about its matches:
    [always_sets r n]: every match of [r] binds group [n];
    [mentions r n]: group [n] occurs in [r];
    [nonnull r]: every match of [r] consumes at least one character;
    [group_nonnull r n]: the body of every group [n] of [r] is [nonnull]. *)
Fixpoint always_sets (r : regex) (n : nat) : bool :=
  match r with
  | Seq a b => always_sets a n || always_sets b n
  | Alt a b => always_sets a n && always_sets b n
  | Group k a => Nat.eqb k n || always_sets a n
  | Eps | Cls _ | Opt _ | Star _ => false
  end.

Fixpoint mentions (r : regex) (n : nat) : bool :=
  match r with
  | Seq a b | Alt a b => mentions a n || mentions b n
  | Opt a => mentions a n
  | Group k a => Nat.eqb k n || mentions a n
  | Eps | Cls _ | Star _ => false
  end.

Fixpoint nonnull (r : regex) : bool :=
  match r with
  | Cls _ => true
  | Seq a b => nonnull a || nonnull b
  | Alt a b => nonnull a && nonnull b
  | Group _ a => nonnull a
  | Eps | Opt _ | Star _ => false
  end.

Fixpoint group_nonnull (r : regex) (n : nat) : bool :=
  match r with
  | Seq a b | Alt a b => group_nonnull a n && group_nonnull b n
  | Opt a => group_nonnull a n
  | Group k a => (if Nat.eqb k n then nonnull a else true) && group_nonnull a n
  | Eps | Cls _ | Star _ => true
  end.

Definition ws0 : regex := Star Str.isspace.   (* \s* *)
Definition ws1 : regex := plus Str.isspace.   (* \s+ *)
Definition word1 {U : Unicode} : regex := plus Str.isword.  (* \w+ *)

End Re.

Infix ">>" := Re.Seq (at level 41, right associativity).

(** ** Paths and the file system *)

(** A [pathlib] path: its components. *)
Record Path : Type := mkPath { parts : list string }.

(** [path.name]: the final component. *)
Definition name (p : Path) : string := last (parts p) "".

(** [path.read_text(encoding="utf-8", errors="ignore")] either returns the
    decoded text or raises [OSError] (missing file, directory, permission);
    undecodable bytes are dropped by [errors="ignore"] and raise nothing. *)
Definition filesystem : Type := Path -> result string.

(** Formatting of an optional value inside an f-string. *)
Definition fmt (o : option string) : string :=
  match o with Some v => v | None => "None" end.

(** [o.strip()] on an optional string: [None] has no [strip]. *)
Definition strip_of (o : option string) : result string :=
  match o with Some v => Ok (Str.strip v) | None => Raise AttributeError end.

(** Truth value of an optional string. *)
Definition truthy_of (o : option string) : bool :=
  match o with Some v => Str.truthy v | None => false end.

(** ** context_builder/javascript_parser.py *)

Module JS.

Import Re.

Section Scanner.

Context {U : Unicode}.

Definition function_patterns : list regex :=
  [ (* export \s+ default \s+ function \s* (\w+)? \s* \( ( [^)]* ) \) *)
    lit "export" >> ws1 >> lit "default" >> ws1 >> lit "function" >> ws0 >>
      Opt (Group 1 word1) >> ws0 >> chr "(" >>
      Group 2 (Star (notchr ")")) >> chr ")";
    (* export \s+ (?: async \s+ )? function \s+ (\w+) \s* \( ( [^)]* ) \) *)
    lit "export" >> ws1 >> Opt (lit "async" >> ws1) >> lit "function" >> ws1 >>
      Group 1 word1 >> ws0 >> chr "(" >>
      Group 2 (Star (notchr ")")) >> chr ")";
    (* (?: async \s+ )? function \s+ (\w+) \s* \( ( [^)]* ) \) *)
    Opt (lit "async" >> ws1) >> lit "function" >> ws1 >>
      Group 1 word1 >> ws0 >> chr "(" >>
      Group 2 (Star (notchr ")")) >> chr ")";
    (* (?: export \s+ )? (?: const | let | var ) \s+ (\w+) \s* = \s* (?: async \s+ )? \( ( [^)]* ) \) \s* => *)
    Opt (lit "export" >> ws1) >>
      Alt (lit "const") (Alt (lit "let") (lit "var")) >> ws1 >>
      Group 1 word1 >> ws0 >> chr "=" >> ws0 >> Opt (lit "async" >> ws1) >>
      chr "(" >> Group 2 (Star (notchr ")")) >> chr ")" >> ws0 >> lit "=>";
    (* export \s+ default \s* (?: async \s+ )? \( ( [^)]* ) \) \s* => *)
    lit "export" >> ws1 >> lit "default" >> ws0 >> Opt (lit "async" >> ws1) >>
      chr "(" >> Group 1 (Star (notchr ")")) >> chr ")" >> ws0 >> lit "=>";
    (* (\w+) \s* \( ( [^)]* ) \) \s* { *)
    Group 1 word1 >> ws0 >> chr "(" >>
      Group 2 (Star (notchr ")")) >> chr ")" >> ws0 >> chr "{" ].

Definition class_patterns : list regex :=
  [ (* export \s+ default \s+ class \s+ (\w+)? *)
    lit "export" >> ws1 >> lit "default" >> ws1 >> lit "class" >> ws1 >>
      Opt (Group 1 word1);
    (* export \s+ class \s+ (\w+) *)
    lit "export" >> ws1 >> lit "class" >> ws1 >> Group 1 word1;
    (* class \s+ (\w+) *)
    lit "class" >> ws1 >> Group 1 word1 ].

(* export \s+ default \s+ (\w+) \s* ; *)
Definition default_export_pattern : regex :=
  lit "export" >> ws1 >> lit "default" >> ws1 >> Group 1 word1 >> ws0 >> chr ";".

(** The character loop of [_clean_js_params]: the state is
    [(param_list, current, paren_count)]. *)
Fixpoint split_loop (params : string) (param_list : list string)
    (current : string) (paren_count : Z) : list string * string :=
  match params with
  | EmptyString => (param_list, current)
  | String char rest =>
      if Char.eqb char "(" then
        split_loop rest param_list (current ++ String char "") (paren_count + 1)
      else if Char.eqb char ")" then
        split_loop rest param_list (current ++ String char "") (paren_count - 1)
      else if Char.eqb char "," && (paren_count =? 0)%Z then
        split_loop rest (param_list ++ [Str.strip current]) "" paren_count
      else
        split_loop rest param_list (current ++ String char "") paren_count
  end.

(** [param_list] as it stands after the loop and the final [if]. *)
Definition param_list_of (params : string) : list string :=
  let '(param_list, current) := split_loop params [] "" 0%Z in
  if Str.truthy (Str.strip current)
  then param_list ++ [Str.strip current]
  else param_list.

(** One turn of the second loop: drop the default value, trim. *)
Definition clean_param (param : string) : string :=
  let param :=
    if Str.contains "=" param then Str.strip (Str.before "=" param) else param in
  Str.strip param.

(** The list [cleaned]. *)
Definition cleaned_of (params : string) : list string :=
  map clean_param (param_list_of params).

Definition _clean_js_params (params : string) : string :=
  if negb (Str.truthy params) then ""
  else Str.join ", " (cleaned_of params).

(** The loop over [enumerate(function_patterns)] for one line: the function
    line to append when a pattern matched ([matched = True]), nothing otherwise. *)
Fixpoint scan_functions (rel_path : string) (i : nat) (line : string)
    (patterns : list (nat * regex)) : result (option string) :=
  match patterns with
  | [] => Ok None
  | (idx, pattern) :: rest =>
      match search pattern line with
      | Some m =>
          np <- (if Nat.eqb idx 4 then
                   params <- strip_of (group m 1) ;;
                   Ok ("<anonymous>", params)
                 else
                   let func_name := group m 1 in
                   let params :=
                     if Nat.ltb 1 (ngroups pattern) then group m 2 else Some "" in
                   let func_name :=
                     if truthy_of func_name then fmt func_name else "<anonymous>" in
                   params <- strip_of params ;;
                   Ok (func_name, params)) ;;
          Ok (Some (rel_path ++ ":" ++ Str.of_nat i ++ ": " ++ fst np ++ "("
                    ++ _clean_js_params (snd np) ++ ")")%string)
      | None => scan_functions rel_path i line rest
      end
  end.

(** The loop over [class_patterns] for one line. *)
Fixpoint scan_classes (rel_path : string) (i : nat) (line : string)
    (patterns : list regex) : option string :=
  match patterns with
  | [] => None
  | pattern :: rest =>
      match search pattern line with
      | Some m =>
          let class_name :=
            if truthy_of (group m 1) then fmt (group m 1) else "<anonymous>" in
          Some (rel_path ++ ":" ++ Str.of_nat i ++ ": class " ++ class_name)%string
      | None => scan_classes rel_path i line rest
      end
  end.

(** Append of an optional line. *)
Definition push (ls : list string) (o : option string) : list string :=
  match o with Some l => ls ++ [l] | None => ls end.

(** The loop over [enumerate(lines, 1)], with the two accumulators. *)
Fixpoint scan_lines (rel_path : string) (lines : list (nat * string))
    (func_lines cls_lines : list string) : result (list string * list string) :=
  match lines with
  | [] => Ok (func_lines, cls_lines)
  | (i, raw) :: rest =>
      let line := Str.strip raw in
      if negb (Str.truthy line) then
        scan_lines rel_path rest func_lines cls_lines
      else
        f <- scan_functions rel_path i line (Str.enumerate 0 function_patterns) ;;
        match f with
        | Some l => scan_lines rel_path rest (func_lines ++ [l]) cls_lines
        | None =>
            match search default_export_pattern line with
            | Some m =>
                scan_lines rel_path rest
                  (func_lines ++ [(rel_path ++ ":" ++ Str.of_nat i
                                     ++ ": export default " ++ fmt (group m 1))%string])
                  cls_lines
            | None =>
                scan_lines rel_path rest func_lines
                  (push cls_lines (scan_classes rel_path i line class_patterns))
            end
        end
  end.

Definition _parse_with_regex (content : string) (file_path : Path)
  : result (list string * list string) :=
  let rel_path := name file_path in
  let lines := Str.split "010" content in
  scan_lines rel_path (Str.enumerate 1 lines) [] [].

(** [try: ... except Exception: return [], []] *)
Definition parse_file (fs : filesystem) (file_path : Path)
  : result (list string * list string) :=
  match (content <- fs file_path ;; _parse_with_regex content file_path) with
  | Ok r => Ok r
  | Raise _ => Ok ([], [])
  end.

End Scanner.

End JS.

(** ** context_builder/typescript_parser.py *)

Module TS.

Import Re.

Section Scanner.

Context {U : Unicode}.

Definition function_patterns : list regex :=
  [ (* (?: export \s+ )? (?: async \s+ )? function \s+ (\w+) \s* \( ( [^)]* ) \)
       (?: \s* : \s* ( [^{]+ ) )? *)
    Opt (lit "export" >> ws1) >> Opt (lit "async" >> ws1) >>
      lit "function" >> ws1 >> Group 1 word1 >> ws0 >> chr "(" >>
      Group 2 (Star (notchr ")")) >> chr ")" >>
      Opt (ws0 >> chr ":" >> ws0 >> Group 3 (plus (notchr "{")));
    (* (?: export \s+ )? (?: const | let | var ) \s+ (\w+) \s* [:=] \s*
       (?: async \s+ )? \( ( [^)]* ) \) (?: \s* => \s* [^{]+ )? *)
    Opt (lit "export" >> ws1) >>
      Alt (lit "const") (Alt (lit "let") (lit "var")) >> ws1 >>
      Group 1 word1 >> ws0 >>
      Cls (fun c => Char.eqb c ":" || Char.eqb c "=") >> ws0 >>
      Opt (lit "async" >> ws1) >> chr "(" >>
      Group 2 (Star (notchr ")")) >> chr ")" >>
      Opt (ws0 >> lit "=>" >> ws0 >> plus (notchr "{"));
    (* (\w+) \s* \( ( [^)]* ) \) (?: \s* : \s* ( [^{]+ ) )? *)
    Group 1 word1 >> ws0 >> chr "(" >>
      Group 2 (Star (notchr ")")) >> chr ")" >>
      Opt (ws0 >> chr ":" >> ws0 >> Group 3 (plus (notchr "{"))) ].

Definition class_patterns : list regex :=
  [ (* (?: export \s+ )? (?: abstract \s+ )? class \s+ (\w+)
       (?: \s+ extends \s+ (\w+) )? (?: \s+ implements \s+ ( [^{]+ ) )? *)
    Opt (lit "export" >> ws1) >> Opt (lit "abstract" >> ws1) >>
      lit "class" >> ws1 >> Group 1 word1 >>
      Opt (ws1 >> lit "extends" >> ws1 >> Group 2 word1) >>
      Opt (ws1 >> lit "implements" >> ws1 >> Group 3 (plus (notchr "{")));
    (* (?: export \s+ )? interface \s+ (\w+) (?: \s+ extends \s+ ( [^{]+ ) )? *)
    Opt (lit "export" >> ws1) >> lit "interface" >> ws1 >> Group 1 word1 >>
      Opt (ws1 >> lit "extends" >> ws1 >> Group 2 (plus (notchr "{")));
    (* (?: export \s+ )? type \s+ (\w+) \s* = \s* ( [^;]+ ) *)
    Opt (lit "export" >> ws1) >> lit "type" >> ws1 >> Group 1 word1 >>
      ws0 >> chr "=" >> ws0 >> Group 2 (plus (notchr ";")) ].

(** The character loop of [_clean_typescript_params]: the state is
    [(param_list, current_param, paren_count)]. *)
Fixpoint split_loop (params : string) (param_list : list string)
    (current_param : string) (paren_count : Z) : list string * string :=
  match params with
  | EmptyString => (param_list, current_param)
  | String char rest =>
      if Char.eqb char "(" then
        split_loop rest param_list (current_param ++ String char "")
          (paren_count + 1)
      else if Char.eqb char ")" then
        split_loop rest param_list (current_param ++ String char "")
          (paren_count - 1)
      else if Char.eqb char "," && (paren_count =? 0)%Z then
        split_loop rest (param_list ++ [Str.strip current_param]) "" paren_count
      else
        split_loop rest param_list (current_param ++ String char "") paren_count
  end.

Definition param_list_of (params : string) : list string :=
  let '(param_list, current_param) := split_loop params [] "" 0%Z in
  if Str.truthy (Str.strip current_param)
  then param_list ++ [Str.strip current_param]
  else param_list.

(** One turn of the second loop: drop the default value, then render a
    [name: Type] shape when a colon is present. *)
Definition clean_param (param : string) : string :=
  let param :=
    if Str.contains "=" param then Str.strip (Str.before "=" param) else param in
  if Str.contains ":" param then
    let name := Str.strip (Str.before ":" param) in
    let type_ann := Str.strip (Str.after ":" param) in
    (name ++ ": " ++ type_ann)%string
  else Str.strip param.

Definition cleaned_params_of (params : string) : list string :=
  map clean_param (param_list_of params).

Definition _clean_typescript_params (params : string) : string :=
  if negb (Str.truthy params) then ""
  else Str.join ", " (cleaned_params_of params).

(** The function line built from a match of [pattern]. *)
Definition function_line (rel_path : string) (i : nat) (pattern : regex)
    (m : groups) : result string :=
  let func_name := group m 1 in
  params <- strip_of (group m 2) ;;
  return_type <-
    (if Nat.ltb 2 (ngroups pattern) && truthy_of (group m 3)
     then strip_of (group m 3) else Ok "any") ;;
  let params :=
    if Str.truthy params then _clean_typescript_params params else params in
  Ok (rel_path ++ ":" ++ Str.of_nat i ++ ": " ++ fmt func_name ++ "("
      ++ params ++ ") -> " ++ return_type)%string.

(** The loop over [function_patterns] for one line. *)
Fixpoint scan_functions (rel_path : string) (i : nat) (line : string)
    (patterns : list regex) : result (option string) :=
  match patterns with
  | [] => Ok None
  | pattern :: rest =>
      match search pattern line with
      | Some m => l <- function_line rel_path i pattern m ;; Ok (Some l)
      | None => scan_functions rel_path i line rest
      end
  end.

(** The class line built from a match of [pattern]. *)
Definition class_line (rel_path : string) (i : nat) (pattern : regex)
    (m : groups) : string :=
  let class_name := group m 1 in
  let extends :=
    if Nat.ltb 1 (ngroups pattern) && truthy_of (group m 2)
    then fmt (group m 2) else "" in
  let implements :=
    if Nat.ltb 2 (ngroups pattern) && truthy_of (group m 3)
    then fmt (group m 3) else "" in
  let class_def := ("class " ++ fmt class_name)%string in
  let class_def :=
    if Str.truthy extends then (class_def ++ " extends " ++ extends)%string
    else class_def in
  let class_def :=
    if Str.truthy implements
    then (class_def ++ " implements " ++ implements)%string
    else class_def in
  (rel_path ++ ":" ++ Str.of_nat i ++ ": " ++ class_def)%string.

(** The loop over [class_patterns] for one line. *)
Fixpoint scan_classes (rel_path : string) (i : nat) (line : string)
    (patterns : list regex) : option string :=
  match patterns with
  | [] => None
  | pattern :: rest =>
      match search pattern line with
      | Some m => Some (class_line rel_path i pattern m)
      | None => scan_classes rel_path i line rest
      end
  end.

Definition push (ls : list string) (o : option string) : list string :=
  match o with Some l => ls ++ [l] | None => ls end.

(** The loop over [enumerate(lines, 1)], with the two accumulators. *)
Fixpoint scan_lines (rel_path : string) (lines : list (nat * string))
    (func_lines cls_lines : list string) : result (list string * list string) :=
  match lines with
  | [] => Ok (func_lines, cls_lines)
  | (i, line) :: rest =>
      let line := Str.strip line in
      f <- scan_functions rel_path i line function_patterns ;;
      scan_lines rel_path rest (push func_lines f)
        (push cls_lines (scan_classes rel_path i line class_patterns))
  end.

Definition _parse_with_regex (content : string) (file_path : Path)
  : result (list string * list string) :=
  let rel_path := name file_path in
  let lines := Str.split "010" content in
  scan_lines rel_path (Str.enumerate 1 lines) [] [].

(** [try: ... except Exception: return [], []] *)
Definition parse_file (fs : filesystem) (file_path : Path)
  : result (list string * list string) :=
  match (content <- fs file_path ;; _parse_with_regex content file_path) with
  | Ok r => Ok r
  | Raise _ => Ok ([], [])
  end.

End Scanner.

End TS.

(** ** main.py: the tree-based extractor *)

Module Py.

(** *** The syntax tree, as [ast] builds it

    Expressions: the extractor looks at [Name] and [Attribute] only; [Expr]
    stands for the other expression classes, with its sub-expressions.  The
    field-less context and operator markers, which are leaves of no
    inspected class, are left out. *)
Inductive expr : Type :=
| Name (id : string)
| Attribute (value : expr) (attr : string)
| Expr (kind : string) (children : list expr).

Record arg : Type := mkArg {
  arg_name : string;               (* field [arg] *)
  annotation : option expr }.

Record arguments : Type := mkArguments {
  posonlyargs : list arg;
  args : list arg;
  vararg : option arg;
  kwonlyargs : list arg;
  kw_defaults : list (option expr);
  kwarg : option arg;
  defaults : list expr }.

(** Statements: [Stmt] stands for the statement classes the extractor does
    not inspect (and for the handler and case nodes inside them): first the
    expression children, then the nested blocks, as their fields are laid out. *)
Inductive stmt : Type :=
| FunctionDef (name : string) (a : arguments) (body : list stmt)
    (decorator_list : list expr) (returns : option expr) (lineno : nat)
| AsyncFunctionDef (name : string) (a : arguments) (body : list stmt)
    (decorator_list : list expr) (returns : option expr) (lineno : nat)
| ClassDef (name : string) (bases keywords : list expr) (body : list stmt)
    (decorator_list : list expr) (lineno : nat)
| Assign (targets : list expr) (value : expr) (type_comment : option string)
| AnnAssign (target annotation : expr) (value : option expr)
| Stmt (kind : string) (exprs : list expr) (blocks : list stmt).

(** Any node of the tree, as [ast.walk] yields them. *)
Inductive node : Type :=
| NModule (body : list stmt)
| NStmt (s : stmt)
| NExpr (e : expr)
| NArguments (a : arguments)
| NArg (a : arg).

Definition some_list {A : Type} (o : option A) : list A :=
  match o with Some x => [x] | None => [] end.

(** [ast.iter_child_nodes]: the node-valued fields in field order, lists
    flattened, [None] entries skipped. *)
Definition iter_child_nodes (n : node) : list node :=
  match n with
  | NModule body => map NStmt body
  | NStmt (FunctionDef _ a body decorator_list returns _)
  | NStmt (AsyncFunctionDef _ a body decorator_list returns _) =>
      NArguments a :: map NStmt body ++ map NExpr decorator_list
        ++ map NExpr (some_list returns)
  | NStmt (ClassDef _ bases keywords body decorator_list _) =>
      map NExpr bases ++ map NExpr keywords ++ map NStmt body
        ++ map NExpr decorator_list
  | NStmt (Assign targets value _) => map NExpr targets ++ [NExpr value]
  | NStmt (AnnAssign target annotation value) =>
      NExpr target :: NExpr annotation :: map NExpr (some_list value)
  | NStmt (Stmt _ exprs blocks) => map NExpr exprs ++ map NStmt blocks
  | NExpr (Name _) => []
  | NExpr (Attribute value _) => [NExpr value]
  | NExpr (Expr _ children) => map NExpr children
  | NArguments a =>
      map NArg (posonlyargs a) ++ map NArg (args a)
        ++ map NArg (some_list (vararg a)) ++ map NArg (kwonlyargs a)
        ++ map NExpr (flat_map some_list (kw_defaults a))
        ++ map NArg (some_list (kwarg a)) ++ map NExpr (defaults a)
  | NArg a => map NExpr (some_list (annotation a))
  end.

(** Number of nodes of a subtree: the fuel of [walk]. *)
Fixpoint size_expr (e : expr) : nat :=
  match e with
  | Name _ => 1
  | Attribute value _ => S (size_expr value)
  | Expr _ children => S (list_sum (map size_expr children))
  end.

Definition size_arg (a : arg) : nat :=
  S (list_sum (map size_expr (some_list (annotation a)))).

Definition size_arguments (a : arguments) : nat :=
  S (list_sum (map size_arg (posonlyargs a))
     + list_sum (map size_arg (args a))
     + list_sum (map size_arg (some_list (vararg a)))
     + list_sum (map size_arg (kwonlyargs a))
     + list_sum (map size_expr (flat_map some_list (kw_defaults a)))
     + list_sum (map size_arg (some_list (kwarg a)))
     + list_sum (map size_expr (defaults a))).

Fixpoint size_stmt (s : stmt) : nat :=
  match s with
  | FunctionDef _ a body decorator_list returns _
  | AsyncFunctionDef _ a body decorator_list returns _ =>
      S (size_arguments a + list_sum (map size_stmt body)
         + list_sum (map size_expr decorator_list)
         + list_sum (map size_expr (some_list returns)))
  | ClassDef _ bases keywords body decorator_list _ =>
      S (list_sum (map size_expr bases) + list_sum (map size_expr keywords)
         + list_sum (map size_stmt body)
         + list_sum (map size_expr decorator_list))
  | Assign targets value _ =>
      S (list_sum (map size_expr targets) + size_expr value)
  | AnnAssign target annotation value =>
      S (size_expr target + size_expr annotation
         + list_sum (map size_expr (some_list value)))
  | Stmt _ exprs blocks =>
      S (list_sum (map size_expr exprs) + list_sum (map size_stmt blocks))
  end.

Definition size (n : node) : nat :=
  match n with
  | NModule body => S (list_sum (map size_stmt body))
  | NStmt s => size_stmt s
  | NExpr e => size_expr e
  | NArguments a => size_arguments a
  | NArg a => size_arg a
  end.

(** [ast.walk]: a queue, served from the left, that receives the children
    of each node it yields.  The loop runs once per node of the tree. *)
Fixpoint walk_loop (fuel : nat) (todo : list node) : list node :=
  match fuel with
  | O => []
  | S fuel' =>
      match todo with
      | [] => []
      | n :: rest => n :: walk_loop fuel' (rest ++ iter_child_nodes n)
      end
  end.

Definition walk (n : node) : list node := walk_loop (size n) [n].

(** [sorted] on a list of [(name, type)] tuples: tuples compare
    component-wise, strings by code point. *)
Definition tuple_lt (p q : string * string) : bool :=
  String.ltb (fst p) (fst q)
  || (String.eqb (fst p) (fst q) && String.ltb (snd p) (snd q)).

Fixpoint insert (x : string * string) (l : list (string * string))
  : list (string * string) :=
  match l with
  | [] => [x]
  | y :: l' => if tuple_lt y x then y :: insert x l' else x :: l
  end.

Definition sorted (l : list (string * string)) : list (string * string) :=
  fold_right insert [] l.

(** [file.relative_to(project_root)] and [str] of the result. *)
Fixpoint strip_prefix (root file : list string) : option (list string) :=
  match root, file with
  | [], _ => Some file
  | r :: root', f :: file' =>
      if String.eqb r f then strip_prefix root' file' else None
  | _ :: _, [] => None
  end.

Definition relative_to (file project_root : Path) : result Path :=
  match strip_prefix (parts project_root) (parts file) with
  | Some r => Ok (mkPath r)
  | None => Raise ValueError
  end.

Definition path_str (p : Path) : string :=
  match parts p with [] => "." | ps => Str.join "/" ps end.

Section Extractor.

(** The two library functions the extractor calls on program text:
    [ast.parse], which returns the body of the module or raises, and
    [ast.unparse]. *)
Variable ast_parse : string -> result (list stmt).
Variable unparse : expr -> string.

Definition _type_of_assign (n : stmt) : string :=
  match n with
  | AnnAssign _ annotation _ => unparse annotation
  | Assign _ _ type_comment =>
      if truthy_of type_comment then fmt type_comment else "Unknown"
  | _ => "Unknown"
  end.

(** [targets] of an assignment node. *)
Definition targets_of (n : stmt) : list expr :=
  match n with
  | AnnAssign target _ _ => [target]
  | Assign targets _ _ => targets
  | _ => []
  end.

Definition is_assign (n : stmt) : bool :=
  match n with Assign _ _ _ | AnnAssign _ _ _ => true | _ => false end.

Definition _collect_class_attrs (body : list stmt) : list (string * string) :=
  flat_map
    (fun stmt =>
       if is_assign stmt then
         flat_map (fun tgt => match tgt with
                              | Name id => [(id, _type_of_assign stmt)]
                              | _ => []
                              end)
                  (targets_of stmt)
       else [])
    body.

(** The pairs one node of the initializer contributes. *)
Definition self_attrs (n : node) : list (string * string) :=
  match n with
  | NStmt s =>
      if is_assign s then
        flat_map (fun tgt => match tgt with
                             | Attribute (Name id) attr =>
                                 if String.eqb id "self"
                                 then [(attr, _type_of_assign s)] else []
                             | _ => []
                             end)
                 (targets_of s)
      else []
  | _ => []
  end.

Definition _collect_instance_attrs (body : list stmt) : list (string * string) :=
  flat_map
    (fun stmt =>
       match stmt with
       | FunctionDef name _ _ _ _ _ =>
           if String.eqb name "__init__"
           then flat_map self_attrs (walk (NStmt stmt)) else []
       | _ => []
       end)
    body.

Definition is_property (dec : expr) : bool :=
  match dec with
  | Name id => String.eqb id "property"
  | Attribute _ attr => String.eqb attr "property"
  | _ => false
  end.

(** The pairs one statement of the class body contributes. *)
Definition properties_of (stmt : stmt) : list (string * string) :=
  match stmt with
  | FunctionDef name _ _ decorator_list returns _ =>
      flat_map
        (fun dec =>
           if is_property dec then
             [(name, match returns with
                     | Some r => unparse r
                     | None => "Unknown"
                     end)]
           else [])
        decorator_list
  | _ => []
  end.

Definition _collect_properties (body : list stmt) : list (string * string) :=
  flat_map properties_of body.

(** The loop over [node.args.args], appending to [args]. *)
Fixpoint render_args (l : list arg) (acc : list string) : list string :=
  match l with
  | [] => acc
  | a :: l' =>
      let ann := option_map unparse (annotation a) in
      render_args l'
        (acc ++ [if truthy_of ann
                 then (arg_name a ++ ": " ++ fmt ann)%string
                 else arg_name a])
  end.

Definition function_line (rel : string) (name : string) (a : arguments)
    (returns : option expr) (lineno : nat) : string :=
  let l := render_args (args a) [] in
  let l := match vararg a with
           | Some v => l ++ [("*" ++ arg_name v)%string]
           | None => l
           end in
  let l := match kwarg a with
           | Some k => l ++ [("**" ++ arg_name k)%string]
           | None => l
           end in
  let ret := match returns with Some r => unparse r | None => "Unknown" end in
  (rel ++ ":" ++ Str.of_nat lineno ++ ": " ++ name ++ "("
   ++ Str.join ", " l ++ ") -> " ++ ret)%string.

Definition indent : string := "    • ".

(** [", ".join(f"{n} -> {t}" for n, t in pairs)] *)
Definition summary (pairs : list (string * string)) : string :=
  Str.join ", " (map (fun p => (fst p ++ " -> " ++ snd p)%string) pairs).

(** The lines appended to [cls_lines] for one class node. *)
Definition class_lines (rel : string) (name : string) (bases : list expr)
    (body : list stmt) (lineno : nat) : list string :=
  let header := (rel ++ ":" ++ Str.of_nat lineno ++ ": class " ++ name)%string in
  let bases :=
    match bases with
    | [] => ""
    | _ => Str.join ", " (map unparse bases)
    end in
  let header :=
    if Str.truthy bases then (header ++ "(" ++ bases ++ ")")%string else header in
  let cls_lines := [header] in
  let class_attrs := _collect_class_attrs body in
  let cls_lines :=
    match class_attrs with
    | [] => cls_lines
    | _ => cls_lines
             ++ [(indent ++ "class_attrs: " ++ summary (sorted class_attrs))%string]
    end in
  let inst_attrs := _collect_instance_attrs body in
  let cls_lines :=
    match inst_attrs with
    | [] => cls_lines
    | _ => cls_lines
             ++ [(indent ++ "instance_attrs: " ++ summary (sorted inst_attrs))%string]
    end in
  let props := _collect_properties body in
  match props with
  | [] => cls_lines
  | _ => cls_lines ++ [(indent ++ "properties: " ++ summary props)%string]
  end.

(** The body of the loop over the walked nodes, on the two accumulators. *)
Definition visit (rel : string) (acc : list string * list string) (n : node)
  : list string * list string :=
  let (func_lines, cls_lines) := acc in
  match n with
  | NStmt (FunctionDef name a _ _ returns lineno)
  | NStmt (AsyncFunctionDef name a _ _ returns lineno) =>
      (func_lines ++ [function_line rel name a returns lineno], cls_lines)
  | NStmt (ClassDef name bases _ body _ lineno) =>
      (func_lines, cls_lines ++ class_lines rel name bases body lineno)
  | _ => acc
  end.

Definition collect (rel : string) (nodes : list node)
  : list string * list string :=
  fold_left (visit rel) nodes ([], []).

(** Only [SyntaxError] is handled; the read and the parse are inside the
    [try], [relative_to] is after it. *)
Definition extract_from_file (fs : filesystem) (file project_root : Path)
  : result (list string * list string) :=
  match (content <- fs file ;; ast_parse content) with
  | Raise SyntaxError => Ok ([], [])
  | Raise e => Raise e
  | Ok tree =>
      rel <- relative_to file project_root ;;
      Ok (collect (path_str rel) (walk (NModule tree)))
  end.

End Extractor.

End Py.

(** ** Notions the statements below are phrased with *)

(** *** Parameter strings *)

Module Params.



(** The raw pieces of [s], entered at depth [d]: the text between
    consecutive depth-zero commas. *)
Fixpoint segs (s : string) (d : Z) : list string :=
  match s with
  | EmptyString => [EmptyString]
  | String c s' =>
      if Char.eqb c "(" then
        match segs s' (d + 1)%Z with
        | p :: ps => String c p :: ps
        | [] => [String c EmptyString]
        end
      else if Char.eqb c ")" then
        match segs s' (d - 1)%Z with
        | p :: ps => String c p :: ps
        | [] => [String c EmptyString]
        end
      else if Char.eqb c "," && (d =? 0)%Z then EmptyString :: segs s' d
      else
        match segs s' d with
        | p :: ps => String c p :: ps
        | [] => [String c EmptyString]
        end
  end.



(** The trimmed pieces the character loop of the cleaner has produced when
    it ends, the one still in [current] included. *)
Definition pieces (params : string) : list string :=
  let '(param_list, current) := JS.split_loop params [] "" 0%Z in
  param_list ++ [Str.strip current].

(** The final [if]: a blank last piece is not kept. *)
Definition drop_blank_last (l : list string) : list string :=
  if Str.truthy (last l "") then l else removelast l.



End Params.

(** *** Lines of a source file *)

Module Lines.

Section Tables.

Context {U : Unicode}.

Definition blank (line : string) : bool := negb (Str.truthy (Str.strip line)).


Definition unmatched (patterns : list Re.regex) (line : string) : bool :=
  forallb (fun p => match Re.search p (Str.strip line) with
                    | Some _ => false
                    | None => true
                    end) patterns.

(** A line that is blank, or that no pattern of the table matches: a
    comment line that holds no declaration-shaped text is one. *)
Definition quiet (patterns : list Re.regex) (line : string) : bool :=
  blank line || unmatched patterns line.

Definition js_patterns : list Re.regex :=
  JS.function_patterns ++ JS.default_export_pattern :: JS.class_patterns.

Definition ts_patterns : list Re.regex :=
  TS.function_patterns ++ TS.class_patterns.

(** Table checks: the groups the scanners read are bound by every match. *)
Definition js_function_pattern_ok (ip : nat * Re.regex) : bool :=
  if Nat.eqb (fst ip) 4 then Re.always_sets (snd ip) 1
  else Nat.ltb 1 (Re.ngroups (snd ip)) && Re.always_sets (snd ip) 2.

Definition ts_function_pattern_ok (p : Re.regex) : bool :=
  Re.always_sets p 1 && Re.always_sets p 2 && Re.group_nonnull p 3
  && (Nat.ltb 2 (Re.ngroups p) || negb (Re.mentions p 3)).

(** The pattern does not match the empty line. *)
Definition never_empty (p : Re.regex) : bool :=
  match Re.search p "" with Some _ => false | None => true end.

(** No pattern of the list matches the line. *)
Definition no_match (line : string) (patterns : list Re.regex) : Prop :=
  Forall (fun p => Re.search p line = None) patterns.

Fixpoint endswith (s suffix : string) : bool :=
  String.eqb s suffix
  || match s with
     | String _ s' => endswith s' suffix
     | EmptyString => false
     end.

End Tables.

End Lines.

(** *** Orders on the syntax tree *)

Module Orders.

Import Py.

(** The pre-order (depth-first) sequence of the nodes of a subtree. *)
Fixpoint preorder_expr (e : expr) : list node :=
  NExpr e ::
  match e with
  | Name _ => []
  | Attribute value _ => preorder_expr value
  | Expr _ children => flat_map preorder_expr children
  end.

Definition preorder_arg (a : arg) : list node :=
  NArg a :: flat_map preorder_expr (some_list (annotation a)).

Definition preorder_arguments (a : arguments) : list node :=
  NArguments a ::
  flat_map preorder_arg (posonlyargs a) ++ flat_map preorder_arg (args a)
  ++ flat_map preorder_arg (some_list (vararg a))
  ++ flat_map preorder_arg (kwonlyargs a)
  ++ flat_map preorder_expr (flat_map some_list (kw_defaults a))
  ++ flat_map preorder_arg (some_list (kwarg a))
  ++ flat_map preorder_expr (defaults a).

Fixpoint preorder_stmt (s : stmt) : list node :=
  NStmt s ::
  match s with
  | FunctionDef _ a body decorator_list returns _
  | AsyncFunctionDef _ a body decorator_list returns _ =>
      preorder_arguments a ++ flat_map preorder_stmt body
      ++ flat_map preorder_expr decorator_list
      ++ flat_map preorder_expr (some_list returns)
  | ClassDef _ bases keywords body decorator_list _ =>
      flat_map preorder_expr bases ++ flat_map preorder_expr keywords
      ++ flat_map preorder_stmt body ++ flat_map preorder_expr decorator_list
  | Assign targets value _ =>
      flat_map preorder_expr targets ++ preorder_expr value
  | AnnAssign target annotation value =>
      preorder_expr target ++ preorder_expr annotation
      ++ flat_map preorder_expr (some_list value)
  | Stmt _ exprs blocks =>
      flat_map preorder_expr exprs ++ flat_map preorder_stmt blocks
  end.

Definition preorder (n : node) : list node :=
  match n with
  | NModule body => n :: flat_map preorder_stmt body
  | NStmt s => preorder_stmt s
  | NExpr e => preorder_expr e
  | NArguments a => preorder_arguments a
  | NArg a => preorder_arg a
  end.

(** The nodes at depth [k] below [n], left to right. *)
Fixpoint level (k : nat) (n : node) : list node :=
  match k with
  | O => [n]
  | S k' => flat_map (level k') (iter_child_nodes n)
  end.

Definition is_function_def (n : node) : bool :=
  match n with
  | NStmt (FunctionDef _ _ _ _ _ _) | NStmt (AsyncFunctionDef _ _ _ _ _ _) => true
  | _ => false
  end.

Definition is_class_def (n : node) : bool :=
  match n with
  | NStmt (ClassDef _ _ _ _ _ _) => true
  | _ => false
  end.

(** What one node adds to each of the two output sequences. *)
Definition function_lines_of (unparse : expr -> string) (rel : string)
    (n : node) : list string :=
  fst (visit unparse rel ([], []) n).

Definition class_lines_of (unparse : expr -> string) (rel : string)
    (n : node) : list string :=
  snd (visit unparse rel ([], []) n).

(** One positional parameter as the signature shows it. *)
Definition render_arg (unparse : expr -> string) (a : arg) : string :=
  match annotation a with
  | Some e =>
      if Str.truthy (unparse e) then (arg_name a ++ ": " ++ unparse e)%string
      else arg_name a
  | None => arg_name a
  end.


(** An entry of a summary line: [name -> type]. *)
Definition entry (p : string * string) : string :=
  (fst p ++ " -> " ++ snd p)%string.






(** Total number of nodes of a queue of subtrees. *)
Definition total (todo : list node) : nat := list_sum (map size todo).

End Orders.

(** *** Sample inputs *)

Module Samples.

Import Py.

(** A Unicode database for the examples: the letters and digits of the
    Latin-1 supplement (U+0080-U+00FF), which is as far as the examples
    go. *)
Definition latin1 : Unicode :=
  {| isalnum := fun c =>
       ((c =? 170) || (c =? 178) || (c =? 179) || (c =? 181)
        || (c =? 185) || (c =? 186) || ((188 <=? c) && (c <=? 190))
        || ((192 <=? c) && (c <=? 214)) || ((216 <=? c) && (c <=? 246))
        || ((248 <=? c) && (c <=? 255)))%N |}.

Section Patterns.

Context {U : Unicode}.

Definition nl : string := String "010" "".

(** The six lines of [test_extract_functions], without the trailing
    semicolons of lines 2 and 4. *)
Definition six_lines : string := (
  "export function foo(a,b) {}" ++ nl ++
  "const bar = (x, y=1) => {}" ++ nl ++
  "export default function (z) {}" ++ nl ++
  "export default (q)=>{}" ++ nl ++
  "function qux() {}" ++ nl ++
  "export default qux;")%string.

(** The text of [test_extract_functions] and of [test_extract_classes]. *)
Definition functions_js : string := (
  "export function foo(a,b) {}" ++ nl ++
  "const bar = (x, y=1) => {};" ++ nl ++
  "export default function (z) {}" ++ nl ++
  "export default (q)=>{};" ++ nl ++
  "function qux() {}" ++ nl ++
  "export default qux;")%string.

Definition classes_js : string := (
  "export default class Foo {}" ++ nl ++
  "class Bar extends Baz {}" ++ nl ++
  "export class Baz {}")%string.



(** A class and one of its methods on one line. *)
Definition method_in_class : string := "class Foo { bar() {} }".

(** The method patterns (last of the function tables), the plain class
    pattern of JavaScript and the class pattern of TypeScript. *)
Definition js_method_pattern : Re.regex := nth 5 JS.function_patterns Re.Eps.
Definition js_class_pattern : Re.regex := nth 2 JS.class_patterns Re.Eps.
Definition ts_method_pattern : Re.regex := nth 2 TS.function_patterns Re.Eps.
Definition ts_class_pattern : Re.regex := nth 0 TS.class_patterns Re.Eps.

Definition annotated_function : string := "function f(a: number): string {".
Definition annotated_arrow : string := "const f = (x: number): number => x".
Definition object_typed_method : string := "baz(): {a: number} {".

Definition sample_js : Path := mkPath ["tmp"; "sample.js"].
Definition sample_ts : Path := mkPath ["tmp"; "sample.ts"].

(** A file system with one readable file. *)
Definition one_file (content : string) : filesystem := fun _ => Ok content.

(** A file system where every read fails. *)
Definition unreadable : filesystem := fun _ => Raise OSError.

(** [unparse] on dotted names, enough for the sample trees. *)
Fixpoint unparse_names (e : expr) : string :=
  match e with
  | Name id => id
  | Attribute value attr => (unparse_names value ++ "." ++ attr)%string
  | Expr kind _ => kind
  end.

Definition no_arguments : arguments := mkArguments [] [] None [] [] None [].
Definition self_only : arguments :=
  mkArguments [] [mkArg "self" None] None [] [] None [].
Definition pass : stmt := Stmt "Pass" [] [].

(** [class A:] with a method [f], followed by a function [g]:
<<
class A:
    def f(self): pass
def g(): pass
>> *)
Definition nested_module : list stmt :=
  [ ClassDef "A" [] [] [FunctionDef "f" self_only [pass] [] None 2] [] 1;
    FunctionDef "g" no_arguments [pass] [] None 3 ].

(** A parser that knows one program. *)
Definition parse_as (tree : list stmt) : string -> result (list stmt) :=
  fun _ => Ok tree.



Definition project : Path := mkPath ["proj"].
Definition module_py : Path := mkPath ["proj"; "pkg"; "m.py"].

(**
<<
class P(Base):
    y = 0
    x: int = 1
    def __init__(self):
        self.b = 1
        self.a: str = ''
    @property
    def q(self) -> int: ...
    @property
    def p(self): ...
>> *)
Definition class_body : list stmt :=
  [ Assign [Name "y"] (Expr "0" []) None;
    AnnAssign (Name "x") (Name "int") (Some (Expr "1" []));
    FunctionDef "__init__" self_only
      [ Assign [Attribute (Name "self") "b"] (Expr "1" []) None;
        AnnAssign (Attribute (Name "self") "a") (Name "str")
          (Some (Expr "''" [])) ]
      [] None 4;
    FunctionDef "q" self_only [pass] [Name "property"] (Some (Name "int")) 8;
    FunctionDef "p" self_only [pass] [Name "property"] None 10 ].

Definition class_module : list stmt :=
  [ ClassDef "P" [Name "Base"] [] class_body [] 1 ].

(** The parameters of [def h(a, /, b: int, *rest, c, **kw) -> str: pass] *)
Definition mixed_arguments : arguments :=
  mkArguments [mkArg "a" None] [mkArg "b" (Some (Name "int"))]
    (Some (mkArg "rest" None)) [mkArg "c" None] [None]
    (Some (mkArg "kw" None)) [].

(** The same without the positional-only and the keyword-only parameter:
    [def h(b: int, *rest, **kw) -> str: pass] *)
Definition regular_and_variadic : arguments :=
  mkArguments [] [mkArg "b" (Some (Name "int"))]
    (Some (mkArg "rest" None)) [] [] (Some (mkArg "kw" None)) [].

End Patterns.

End Samples.


(** ** More of Python's text and list operations *)

Module Text.

(** The line boundaries of [str.splitlines]: LF, VT, FF, CR, the
    separators U+001C-U+001E, NEL, the line separator and the paragraph
    separator; CR LF counts once. *)
Definition is_break (c : char) : bool :=
  (((10 <=? c) && (c <=? 13)) || ((28 <=? c) && (c <=? 30))
   || (c =? 133) || (c =? 8232) || (c =? 8233))%N.

(** [s.splitlines()]: no piece for the text after the last boundary when
    that text is empty. *)
Fixpoint splitlines (s : string) : list string :=
  match s with
  | EmptyString => []
  | String c s' =>
      if is_break c then
        EmptyString ::
          (if Char.eqb c "013" then
             match s' with
             | String d s'' => if Char.eqb d "010" then splitlines s''
                               else splitlines s'
             | EmptyString => splitlines s'
             end
           else splitlines s')
      else
        match splitlines s' with
        | p :: ps => String c p :: ps
        | [] => [String c EmptyString]
        end
  end.

(** [s.rstrip(ch)] for a one-character [ch]. *)
Fixpoint rstrip_char (ch : char) (s : string) : string :=
  match s with
  | String c s' =>
      match rstrip_char ch s' with
      | EmptyString => if Char.eqb c ch then EmptyString else String c EmptyString
      | r => String c r
      end
  | EmptyString => EmptyString
  end.

(** [s.startswith(p)] and [s.endswith(p)]. *)
Definition startswith (s p : string) : bool := prefix p s.

Fixpoint endswith (s p : string) : bool :=
  String.eqb s p
  || match s with
     | String _ s' => endswith s' p
     | EmptyString => false
     end.

(** [sorted] for an order given by its strict comparison: a stable
    insertion; Python's result is the same list. *)
Fixpoint insert_by {A : Type} (lt : A -> A -> bool) (x : A) (l : list A)
  : list A :=
  match l with
  | [] => [x]
  | y :: l' => if lt y x then y :: insert_by lt x l' else x :: l
  end.

Definition sort_by {A : Type} (lt : A -> A -> bool) (l : list A) : list A :=
  fold_right (insert_by lt) [] l.

(** [sorted(set(l))] on strings: the distinct elements in ascending order. *)
Definition sorted_set (l : list string) : list string :=
  sort_by String.ltb (nodup string_dec l).

(** Comparison of two lists of path components, as Python compares lists. *)
Fixpoint parts_lt (a b : list string) : bool :=
  match a, b with
  | [], [] => false
  | [], _ :: _ => true
  | _ :: _, [] => false
  | x :: a', y :: b' => if String.eqb x y then parts_lt a' b' else String.ltb x y
  end.

Definition path_lt (p q : Path) : bool := parts_lt (parts p) (parts q).

End Text.

(** ** The directory tree under the project root *)

Module Fs.

(** A file with the text [read_text] returns for it (or the error it
    raises), or a directory with its entries, in the order [iterdir] yields
    them.  Entries of one directory have distinct names.  Two kinds of
    directory deny access: one that cannot be listed ([iterdir] raises
    [PermissionError], an [OSError]), and one that can be listed but not
    searched (the names it holds are known, the status of none of them can
    be read); what such a directory holds cannot be read.  The tree is
    finite: no symbolic link leads back into it. *)
Inductive entry : Type :=
| File (name : string) (text : result string)
| Dir (name : string) (children : list entry)
| Locked (name : string)
| Sealed (name : string) (names : list string).

Definition entry_name (e : entry) : string :=
  match e with File n _ | Dir n _ | Locked n | Sealed n _ => n end.

(** [p.is_dir()] for an entry of a directory that can be searched. *)
Definition is_dir (e : entry) : bool :=
  match e with File _ _ => false | _ => true end.

(** The entries that can be reached by name. *)
Definition children_of (e : entry) : list entry :=
  match e with Dir _ ch => ch | _ => [] end.

(** The root directory, which can be listed and searched, what it holds,
    and what writing a text to the output file does: [write_text] returns,
    or raises. *)
Record world : Type :=
  mkWorld { root : Path; top : list entry; write_text : string -> result unit }.

(** An output file that takes every text. *)
Definition writable : string -> result unit := fun _ => Ok tt.

(** [p / name] *)
Definition child (p : Path) (n : string) : Path := mkPath (parts p ++ [n]).

Fixpoint by_name (n : string) (l : list entry) : option entry :=
  match l with
  | [] => None
  | e :: l' => if String.eqb (entry_name e) n then Some e else by_name n l'
  end.

(** The entry at a path relative to a directory. *)
Fixpoint find (l : list entry) (rel : list string) : option entry :=
  match rel with
  | [] => None
  | n :: rel' =>
      match by_name n l with
      | Some e =>
          match rel' with
          | [] => Some e
          | _ :: _ => find (children_of e) rel'
          end
      | None => None
      end
  end.

(** [p.exists()] *)
Definition exists_ (w : world) (p : Path) : bool :=
  match Py.strip_prefix (parts (root w)) (parts p) with
  | Some [] => true
  | Some rel => match find (top w) rel with Some _ => true | None => false end
  | None => false
  end.

(** [p.read_text(...)]: the text of a file; a directory and a missing path
    raise [OSError]. *)
Definition read_text (w : world) : filesystem :=
  fun p =>
    match Py.strip_prefix (parts (root w)) (parts p) with
    | Some rel =>
        match find (top w) rel with
        | Some (File _ text) => text
        | _ => Raise OSError
        end
    | None => Raise OSError
    end.

End Fs.

(** ** main.py: ignore rules, tree view, file discovery, dependencies, report *)

Module Report.

Import Fs.

Definition SKIP_ALWAYS : list string :=
  [ ".git"; ".hg"; ".svn"; ".venv"; "venv"; "__pycache__"; ".mypy_cache";
    ".pytest_cache"; ".idea"; ".vscode"; "node_modules"; "dist"; "build" ].

Definition B_MID : string := "├── ".
Definition B_LAST : string := "└── ".
Definition P_PIPE : string := "│   ".
Definition P_BLANK : string := "    ".

(** The loop of [load_gitignore] over the lines, appending to [patterns]. *)
Fixpoint gitignore_loop (lines : list string) (patterns : list string)
  : list string :=
  match lines with
  | [] => patterns
  | raw :: rest =>
      let line := Str.strip raw in
      if negb (Str.truthy line) || Text.startswith line "#"
         || Text.startswith line "!"
      then gitignore_loop rest patterns
      else gitignore_loop rest (patterns ++ [Text.rstrip_char "/" line])
  end.

Definition load_gitignore (w : world) (root : Path) : result (list string) :=
  let gi := child root ".gitignore" in
  if negb (exists_ w gi) then Ok []
  else
    text <- read_text w gi ;;
    Ok (gitignore_loop (Text.splitlines text) []).

(** A parsed TOML document, as far as the manifest reader looks: strings,
    arrays of strings and tables.  A manifest whose dependency array holds
    another kind of value, a number or a nested array, has no counterpart
    here: the dependencies of this development are strings. *)
Inductive value : Type :=
| VStr (s : string)
| VList (items : list string)
| VDict (d : list (string * value)).

Fixpoint assoc (key : string) (d : list (string * value)) : option value :=
  match d with
  | [] => None
  | (k, v) :: d' => if String.eqb k key then Some v else assoc key d'
  end.

(** [v.get(key, default)]: only a table has [get]. *)
Definition get (v : value) (key : string) (default : value) : result value :=
  match v with
  | VDict d => Ok (match assoc key d with Some x => x | None => default end)
  | _ => Raise AttributeError
  end.

(** [v or default] *)
Definition or_else (v default : value) : value :=
  match v with
  | VStr EmptyString | VList [] | VDict [] => default
  | _ => v
  end.

Fixpoint chars (s : string) : list string :=
  match s with
  | EmptyString => []
  | String c s' => String c EmptyString :: chars s'
  end.

(** What [deps.extend(v)] appends: the items of an array, the keys of a
    table, the characters of a string. *)
Definition iterate (v : value) : list string :=
  match v with
  | VStr s => chars s
  | VList items => items
  | VDict d => map fst d
  end.

(** [v.keys()]: only a table has [keys]. *)
Definition keys (v : value) : result (list string) :=
  match v with
  | VDict d => Ok (map fst d)
  | _ => Raise AttributeError
  end.

(** The requirement of one line of requirements.txt. *)
Definition requirement (ln : string) : string :=
  Str.strip (Str.before "#" ln).

Section Rules.

(** [fnmatch.fnmatch name pattern] and [tomllib.loads], two library calls. *)
Variable fnmatch : string -> string -> bool.
Variable toml_loads : string -> result value.

Definition should_ignore (p root : Path) (git_patterns : list string)
  : result bool :=
  if existsb (fun part => existsb (String.eqb part) SKIP_ALWAYS) (parts p)
  then Ok true
  else
    rel <- Py.relative_to p root ;;
    let rel := Py.path_str rel in
    Ok (existsb (fun pat => fnmatch rel pat || fnmatch rel (pat ++ "/**"))
          git_patterns).

(** A child that passed the filter of [_walk]: its path, what [is_dir]
    does for it, and the walk of its own entries. *)
Definition kid : Type :=
  (Path * (result bool * (Path -> string -> result (list string))))%type.

Definition kid_lt (a b : kid) : bool := Text.path_lt (fst a) (fst b).

(** The list comprehension of [_walk]: the children that are not ignored. *)
Fixpoint visible_kids (root : Path) (git_patterns : list string)
    (dir_path : Path)
    (subs : list (string
                  * (result bool * (Path -> string -> result (list string)))))
  : result (list kid) :=
  match subs with
  | [] => Ok []
  | (n, sub) :: rest =>
      let k := child dir_path n in
      ignored <- should_ignore k root git_patterns ;;
      more <- visible_kids root git_patterns dir_path rest ;;
      Ok (if ignored then more else (k, sub) :: more)
  end.

(** The loop of [_walk] over [enumerate(kids)]: the lines it appends. *)
Fixpoint walk_kids (kids : list kid) (n i : nat) (prefix : string)
  : result (list string) :=
  match kids with
  | [] => Ok []
  | (k, (dir, sub)) :: rest =>
      let last := Nat.eqb i (n - 1) in
      let conn := if last then B_LAST else B_MID in
      let line := (prefix ++ conn ++ name k)%string in
      dir <- dir ;;
      below <- (if dir : bool
                then sub k (prefix ++ (if last then P_BLANK else P_PIPE))%string
                else Ok []) ;;
      more <- walk_kids rest n (S i) prefix ;;
      Ok (line :: below ++ more)
  end.

(** [_walk(dir_path, prefix)] for the directory [e]: every child comes with
    the walk of its own entries, so that the recursion follows the tree.
    [iterdir] raises for a directory that cannot be listed; in one that
    cannot be searched, [is_dir] raises for the first child that is shown. *)
Fixpoint _walk (root : Path) (git_patterns : list string) (e : entry)
    (dir_path : Path) (prefix : string) : result (list string) :=
  match e with
  | File _ _ => Ok []
  | Locked _ => Raise OSError
  | Dir _ children =>
      kids <- visible_kids root git_patterns dir_path
                (map (fun c => (entry_name c,
                                (Ok (is_dir c), _walk root git_patterns c)))
                   children) ;;
      let kids := Text.sort_by kid_lt kids in
      walk_kids kids (List.length kids) 0 prefix
  | Sealed _ names =>
      kids <- visible_kids root git_patterns dir_path
                (map (fun n => (n, (Raise OSError, fun _ _ => Ok []))) names) ;;
      let kids := Text.sort_by kid_lt kids in
      walk_kids kids (List.length kids) 0 prefix
  end.

(** [ascii_tree(root, git_patterns)] for the root of the modelled tree. *)
Definition ascii_tree (w : world) (git_patterns : list string)
  : result string :=
  lines <- _walk (root w) git_patterns (Dir (name (root w)) (top w))
             (root w) "" ;;
  Ok (Str.join (String "010" "") (name (root w) :: lines)).

(** [dir.rglob("*.py")] below an entry of directory [parent]: every path,
    file or directory, whose name ends in [.py].  The search passes over a
    directory it cannot list; in one it cannot search it still sees the
    names. *)
Fixpoint rglob_py (e : entry) (parent : Path) : list Path :=
  let p := child parent (entry_name e) in
  (if Text.endswith (entry_name e) ".py" then [p] else [])
  ++ match e with
     | Dir _ children => flat_map (fun c => rglob_py c p) children
     | Sealed _ names =>
         map (child p) (filter (fun n => Text.endswith n ".py") names)
     | File _ _ | Locked _ => []
     end.

(** The generator expression of [list_py_files]. *)
Fixpoint not_ignored (root : Path) (git_patterns : list string)
    (paths : list Path) : result (list Path) :=
  match paths with
  | [] => Ok []
  | p :: rest =>
      ignored <- should_ignore p root git_patterns ;;
      more <- not_ignored root git_patterns rest ;;
      Ok (if ignored then more else p :: more)
  end.

Definition list_py_files (w : world) (git_patterns : list string)
  : result (list Path) :=
  kept <- not_ignored (root w) git_patterns
            (flat_map (fun c => rglob_py c (root w)) (top w)) ;;
  Ok (Text.sort_by Text.path_lt kept).

(** The [pyproject.toml] branch of [gather_dependencies], on the parsed
    document. *)
Definition pyproject_dependencies (data : value) : result (list string) :=
  project <- get data "project" (VDict []) ;;
  declared <- get project "dependencies" (VList []) ;;
  let deps := iterate (or_else declared (VList [])) in
  tool <- get data "tool" (VDict []) ;;
  poetry <- get tool "poetry" (VDict []) ;;
  poetry_deps <- get poetry "dependencies" (VDict []) ;;
  poetry_keys <- keys poetry_deps ;;
  let deps := deps ++ poetry_keys in
  pdm <- get tool "pdm" (VDict []) ;;
  pdm_deps <- get pdm "dependencies" (VDict []) ;;
  pdm_keys <- keys pdm_deps ;;
  let deps := deps ++ pdm_keys in
  Ok (Text.sorted_set deps).

Definition gather_dependencies (w : world) (root : Path)
  : result (list string) :=
  let pj := child root "pyproject.toml" in
  if exists_ w pj then
    text <- read_text w pj ;;
    data <- toml_loads text ;;
    pyproject_dependencies data
  else
    let req := child root "requirements.txt" in
    if exists_ w req then
      text <- read_text w req ;;
      let lines := map requirement (Text.splitlines text) in
      Ok (Text.sorted_set (filter Str.truthy lines))
    else Ok [].

(** The loop of [combined_source], appending to [blocks]. *)
Fixpoint source_blocks (fs : filesystem) (project_root : Path)
    (files : list Path) (blocks : list string) : result (list string) :=
  match files with
  | [] => Ok blocks
  | f :: rest =>
      rel <- Py.relative_to f project_root ;;
      text <- fs f ;;
      source_blocks fs project_root rest
        (blocks ++ [("# === " ++ Py.path_str rel ++ " ===")%string; text; ""])
  end.

Definition combined_source (fs : filesystem) (files : list Path)
    (project_root : Path) : result string :=
  blocks <- source_blocks fs project_root files [] ;;
  Ok (Str.join (String "010" "") blocks).

(** What a run of [main] ends with: the report written to the output file,
    [sys.exit] with a message, or an exception that reaches the top. *)
Inductive outcome : Type :=
| Written (report : string)
| Exit (message : string)
| Crash (e : exn).

(** [ast.parse] and [ast.unparse], as for the extractor. *)
Variable ast_parse : string -> result (list Py.stmt).
Variable unparse : Py.expr -> string.

(** The loop of [main] over [py_files], extending the two lists. *)
Fixpoint extract_all (w : world) (py_files : list Path)
    (all_funcs all_classes : list string)
  : result (list string * list string) :=
  match py_files with
  | [] => Ok (all_funcs, all_classes)
  | f :: rest =>
      fc <- Py.extract_from_file ast_parse unparse (read_text w) f (root w) ;;
      extract_all w rest (all_funcs ++ fst fc) (all_classes ++ snd fc)
  end.

(** [xs if xs else [placeholder]] *)
Definition or_placeholder (xs : list string) (placeholder : string)
  : list string :=
  match xs with [] => [placeholder] | _ => xs end.

(** The body of [main] once the files are known to exist: the lines of the
    report. *)
Definition report_lines (w : world) (git_patterns : list string)
    (py_files : list Path) (include_source : bool) : result (list string) :=
  tree <- ascii_tree w git_patterns ;;
  let report := ["# ───────────── Project Structure ─────────────"; tree] in
  fc <- extract_all w py_files [] [] ;;
  let report := report ++ ["# ───────────── Function Signatures ─────────────"] in
  let report := report ++ or_placeholder (fst fc) "<no functions found>" in
  let report := report ++ ["# ───────────── Class Definitions ─────────────"] in
  let report := report ++ or_placeholder (snd fc) "<no classes found>" in
  let report := report ++ ["# ───────────── Dependencies ─────────────"] in
  deps <- gather_dependencies w (root w) ;;
  let report := report ++ or_placeholder deps "<none detected>" in
  if include_source then
    let report := report ++ ["# ───────────── Combined Source ─────────────"] in
    source <- combined_source (read_text w) py_files (root w) ;;
    Ok (report ++ [source])
  else Ok report.

(** [main] for the root of the modelled tree, which is a directory: the
    first exit of the source is not reached.  The last step hands the
    joined report to [write_text] of the output file. *)
Definition main (w : world) (include_source : bool) : outcome :=
  match load_gitignore w (root w) with
  | Raise e => Crash e
  | Ok git_patterns =>
      match list_py_files w git_patterns with
      | Raise e => Crash e
      | Ok [] => Exit "[ERR] No Python files found (after filtering)."
      | Ok py_files =>
          match report_lines w git_patterns py_files include_source with
          | Raise e => Crash e
          | Ok report =>
              let text := Str.join (String "010" "") report in
              match write_text w text with
              | Raise e => Crash e
              | Ok _ => Written text
              end
          end
      end
  end.

End Rules.

End Report.

(** ** Notions for the further properties *)

Module More.

(** A record: the file label, the line number and the text found there. *)
Definition label (rel : string) (it : nat * string) : string :=
  (rel ++ ":" ++ Str.of_nat (fst it) ++ ": " ++ snd it)%string.

(** Line numbers between [lo] (included) and [hi] (excluded), ascending. *)
Definition ascending_within (lo hi : nat) (l : list nat) : Prop :=
  StronglySorted lt l /\ Forall (fun i => lo <= i /\ i < hi) l.

(** An optional clause of a class record. *)
Definition clause (keyword : string) (o : option string) : string :=
  match o with
  | Some text => (keyword ++ text)%string
  | None => ""
  end.

(** The groups the class scanner of TypeScript reads: group 1 is always
    bound, groups 1, 2 and 3 are bound to non-empty text, every pattern has
    at least two groups, and group 3 occurs only in a pattern that has
    three. *)
Definition ts_class_pattern_ok (p : Re.regex) : bool :=
  Re.always_sets p 1 && Re.group_nonnull p 1
  && Re.group_nonnull p 2 && Re.group_nonnull p 3
  && Nat.ltb 1 (Re.ngroups p)
  && (Nat.ltb 2 (Re.ngroups p) || negb (Re.mentions p 3)).

(** The groups the function scanner of JavaScript reads, for the pattern at
    index [fst ip]: the parameter group is bound; a bound name is not
    empty (the pattern at index 4 has no name group). *)
Definition js_function_groups_ok (ip : nat * Re.regex) : bool :=
  Lines.js_function_pattern_ok ip
  && (Nat.eqb (fst ip) 4 || Re.group_nonnull (snd ip) 1).

(** A pattern of .gitignore that [load_gitignore] returns as it is
    written: not empty, trimmed, no line boundary, no leading [#] or [!],
    no trailing [/]. *)
Definition plain_pattern (p : string) : bool :=
  Str.truthy p && String.eqb (Str.strip p) p
  && forallb (fun c => negb (Text.is_break c)) (list_char_of_string p)
  && negb (Text.startswith p "#") && negb (Text.startswith p "!")
  && negb (Text.endswith p "/").

(** A text without a line boundary. *)
Definition unbroken (s : string) : Prop :=
  forallb (fun c => negb (Text.is_break c)) (list_char_of_string s) = true.

(** A path has a component listed in [SKIP_ALWAYS]. *)
Definition has_skipped_part (p : Path) : bool :=
  existsb (fun part => existsb (String.eqb part) Report.SKIP_ALWAYS) (parts p).

(** [q] is [p] or a path below [p]. *)
Definition below (p q : Path) : Prop :=
  exists rel, parts q = parts p ++ rel.

(** The number of entries below a directory that the tree view shows: an
    ignored entry hides what it holds. *)
Fixpoint shown (fnmatch : string -> string -> bool) (root : Path)
    (git_patterns : list string) (e : Fs.entry) (dir_path : Path) : nat :=
  match e with
  | Fs.Dir _ children =>
      list_sum
        (map (fun c =>
                let k := Fs.child dir_path (Fs.entry_name c) in
                match Report.should_ignore fnmatch k root git_patterns with
                | Ok false => S (shown fnmatch root git_patterns c k)
                | _ => 0
                end)
             children)
  | _ => 0
  end.

(** The tree view is barred below a directory: its walk comes to a
    directory that cannot be listed, or shows an entry of a directory that
    cannot be searched.  What an ignored entry holds is not walked. *)
Fixpoint barred (fnmatch : string -> string -> bool) (root : Path)
    (git_patterns : list string) (e : Fs.entry) (dir_path : Path) : bool :=
  match e with
  | Fs.File _ _ => false
  | Fs.Locked _ => true
  | Fs.Dir _ children =>
      existsb (fun c =>
                 let k := Fs.child dir_path (Fs.entry_name c) in
                 match Report.should_ignore fnmatch k root git_patterns with
                 | Ok false => barred fnmatch root git_patterns c k
                 | _ => false
                 end)
        children
  | Fs.Sealed _ names =>
      existsb (fun n =>
                 match Report.should_ignore fnmatch (Fs.child dir_path n) root
                         git_patterns with
                 | Ok false => true
                 | _ => false
                 end)
        names
  end.

(** The lines the tree view prints below a child that passed the filter, and
    their number. *)
Definition lines_below (kd : Report.kid) (prefix : string)
  : result (list string) :=
  let '(k, (dir, sub)) := kd in
  dir <- dir ;; if dir : bool then sub k prefix else Ok [].

Definition weight (kd : Report.kid) : nat :=
  match lines_below kd "" with Ok l => List.length l | Raise _ => 0 end.

(** The walk below a child returns, with as many lines under any prefix. *)
Definition kid_ok (kd : Report.kid) : Prop :=
  forall prefix, exists lines,
    lines_below kd prefix = Ok lines /\ List.length lines = weight kd.

(** The walk below a child raises, under any prefix. *)
Definition kid_barred (kd : Report.kid) : Prop :=
  forall prefix, lines_below kd prefix = Raise OSError.

(** What the walk of an entry does, for any place under the root and any
    prefix: it raises when it is barred, and returns one line for every
    entry it shows when it is not. *)
Definition walked (fnmatch : string -> string -> bool) (root : Path)
    (git_patterns : list string) (e : Fs.entry) : Prop :=
  forall dir_path, below root dir_path ->
    (barred fnmatch root git_patterns e dir_path = false ->
     forall prefix, exists lines,
       Report._walk fnmatch root git_patterns e dir_path prefix = Ok lines
       /\ List.length lines = shown fnmatch root git_patterns e dir_path)
    /\ (barred fnmatch root git_patterns e dir_path = true ->
        forall prefix,
          Report._walk fnmatch root git_patterns e dir_path prefix
          = Raise OSError).

(** A path the file discovery keeps: [should_ignore] returns [False]. *)
Definition listed (fnmatch : string -> string -> bool) (root : Path)
    (git_patterns : list string) (p : Path) : bool :=
  match Report.should_ignore fnmatch p root git_patterns with
  | Ok false => true
  | _ => false
  end.


(** Ascending paths. *)
Definition paths_ascending (l : list Path) : Prop :=
  Sorted (fun a b => Text.path_lt b a = false) l.

End More.

(** *** More sample inputs *)

Module Samples2.

Import Fs.

(** [fnmatch] on patterns without wildcard characters, alone or followed
    by [/**]: the name is the pattern, or lies below it. *)
Definition fnmatch_plain (name pat : string) : bool :=
  if Text.endswith pat "/**"
  then prefix (take (String.length pat - 2) pat) name
  else String.eqb name pat.

Definition nl : string := String "010" "".

(**
<<
proj/
  .gitignore          "# local" / "out/" / "" / "!keep" / "notes.txt"
  requirements.txt    "requests>=2  # http" / "" / "# dev" / "attrs" / "requests>=2"
  a.py
  out/   gen.py
  pkg/   m.py   stubs.py/ (a directory)   notes.txt
  node_modules/  x.py
>> *)
Definition proj : world :=
  mkWorld (mkPath ["proj"])
    [ File ".gitignore"
        (Ok ("# local" ++ nl ++ "out/" ++ nl ++ "" ++ nl ++ "!keep" ++ nl
             ++ "notes.txt" ++ nl)%string);
      File "requirements.txt"
        (Ok ("requests>=2  # http" ++ nl ++ "" ++ nl ++ "# dev" ++ nl
             ++ "attrs" ++ nl ++ "requests>=2" ++ nl)%string);
      File "a.py" (Ok "def a(): pass");
      Dir "out" [File "gen.py" (Ok "def gen(): pass")];
      Dir "pkg" [ File "m.py" (Ok "def m(): pass");
                  Dir "stubs.py" [];
                  File "notes.txt" (Ok "") ];
      Dir "node_modules" [File "x.py" (Ok "")] ]
    writable.

(** The same project without the directory named like a module. *)
Definition proj_files_only : world :=
  mkWorld (mkPath ["proj"])
    [ File ".gitignore" (Ok ("out/" ++ nl)%string);
      File "a.py" (Ok "def a(): pass");
      Dir "out" [File "gen.py" (Ok "def gen(): pass")];
      Dir "pkg" [File "m.py" (Ok "def m(): pass")] ]
    writable.

(** A project with a manifest that declares nothing. *)
Definition proj_manifest : world :=
  mkWorld (mkPath ["proj"])
    [ File "pyproject.toml" (Ok "[build-system]");
      File "requirements.txt" (Ok "requests");
      File "a.py" (Ok "") ]
    writable.

(** A project with a directory that cannot be listed, [vault], one that
    cannot be searched, [cellar], and the same two below the ignored
    [out]. *)
Definition proj_denied : world :=
  mkWorld (mkPath ["proj"])
    [ File ".gitignore" (Ok ("out/" ++ nl)%string);
      File "a.py" (Ok "def a(): pass");
      Dir "pkg" [File "m.py" (Ok "def m(): pass"); Locked "vault"];
      Sealed "cellar" ["notes.txt"] ]
    writable.

Definition proj_denied_out_of_sight : world :=
  mkWorld (mkPath ["proj"])
    [ File ".gitignore" (Ok ("out/" ++ nl)%string);
      File "a.py" (Ok "def a(): pass");
      Dir "out" [Locked "vault"; Sealed "cellar" ["gen.py"]];
      Sealed "empty" [] ]
    writable.


Definition no_tables : string -> result Report.value :=
  fun _ => Ok (Report.VDict [("build-system", Report.VDict [])]).

(** A parser for the sample files: each holds one function without
    parameters, named after the file. *)
Definition parse_sample (text : string) : result (list Py.stmt) :=
  if String.eqb text "def a(): pass" then
    Ok [Py.FunctionDef "a" Samples.no_arguments [Samples.pass] [] None 1]
  else if String.eqb text "def m(): pass" then
    Ok [Py.FunctionDef "m" Samples.no_arguments [Samples.pass] [] None 1]
  else if String.eqb text "def gen(): pass" then
    Ok [Py.FunctionDef "gen" Samples.no_arguments [Samples.pass] [] None 1]
  else if String.eqb text "" then Ok []
  else Raise SyntaxError.

End Samples2.

(** * Properties *)

(** ** Characters and strings *)

Module CharFacts.

Lemma char_eqb_refl (c : char) : Char.eqb c c = true.
Proof. apply N.eqb_refl. Qed.

Lemma char_eqb_eq (a b : char) : Char.eqb a b = true <-> a = b.
Proof. apply N.eqb_eq. Qed.

Lemma char_eqb_spec (a b : char) : reflect (a = b) (Char.eqb a b).
Proof. apply N.eqb_spec. Qed.

End CharFacts.

Module StringFacts.

Lemma eqb_refl (s : string) : String.eqb s s = true.
Proof.
  induction s as [|c s IH]; [reflexivity|].
  cbn. now rewrite CharFacts.char_eqb_refl.
Qed.

Lemma eqb_eq (a b : string) : String.eqb a b = true <-> a = b.
Proof.
  split; [|intros ->; apply eqb_refl].
  revert b. induction a as [|c a IH]; intros [|d b]; cbn; try discriminate;
    [reflexivity|].
  intros H. apply andb_true_iff in H as [H1 H2].
  apply CharFacts.char_eqb_eq in H1. apply IH in H2. congruence.
Qed.

Lemma eqb_spec (a b : string) : reflect (a = b) (String.eqb a b).
Proof.
  destruct (String.eqb a b) eqn:E; constructor.
  - now apply eqb_eq.
  - intros H. apply eqb_eq in H. congruence.
Qed.

Lemma eqb_sym (a b : string) : String.eqb a b = String.eqb b a.
Proof.
  destruct (eqb_spec a b) as [->|N]; [now rewrite eqb_refl|].
  destruct (eqb_spec b a) as [->|_]; [contradiction|reflexivity].
Qed.

Lemma compare_antisym (a b : string) :
  String.compare a b = CompOpp (String.compare b a).
Proof.
  revert b. induction a as [|c a IH]; intros [|d b]; cbn; try reflexivity.
  unfold Char.compare. rewrite (N.compare_antisym d c).
  destruct (N.compare d c); cbn; [apply IH | reflexivity | reflexivity].
Qed.


End StringFacts.


(** ** Strings *)

Module StrFacts.

Import Str.

Lemma append_nil_r (s : string) : (s ++ "")%string = s.
Proof. induction s as [|c s IH]; simpl; [reflexivity | now rewrite IH]. Qed.

Lemma append_assoc (a b c : string) :
  ((a ++ b) ++ c)%string = (a ++ (b ++ c))%string.
Proof. induction a as [|x a IH]; simpl; [reflexivity | now rewrite IH]. Qed.

Lemma length_append (a b : string) :
  String.length (a ++ b) = String.length a + String.length b.
Proof. induction a as [|x a IH]; simpl; [reflexivity | now rewrite IH]. Qed.

Lemma truthy_false (s : string) : truthy s = false <-> s = "".
Proof. destruct s; simpl; split; congruence. Qed.

Lemma truthy_true (s : string) : truthy s = true <-> s <> "".
Proof. destruct s; simpl; split; congruence. Qed.

(** [rstrip] keeps a first character that is not a blank. *)
Lemma rstrip_cons (c : char) (s : string) :
  isspace c = false -> rstrip (String c s) = String c (rstrip s).
Proof. intros H. simpl. rewrite H. now destruct (rstrip s). Qed.

Lemma rstrip_cons_space (c : char) (s : string) :
  isspace c = true ->
  rstrip (String c s) = match rstrip s with "" => "" | r => String c r end.
Proof. intros H. simpl. now rewrite H. Qed.

Lemma rstrip_idem (s : string) : rstrip (rstrip s) = rstrip s.
Proof.
  induction s as [|c s IH]; [reflexivity|].
  simpl. destruct (rstrip s) as [|d r] eqn:E.
  - destruct (isspace c) eqn:Hc; [reflexivity|]. simpl. now rewrite Hc.
  - change (rstrip (String c (String d r)) = String c (String d r)).
    simpl. simpl in IH.
    destruct (match rstrip r with
              | "" => if isspace d then "" else String d ""
              | String a s0 => String d (String a s0)
              end) eqn:E2; [discriminate|].
    now inversion IH.
Qed.

Lemma lstrip_idem (s : string) : lstrip (lstrip s) = lstrip s.
Proof.
  induction s as [|c s IH]; [reflexivity|].
  simpl. destruct (isspace c) eqn:Hc; [exact IH|]. simpl. now rewrite Hc.
Qed.

(** The result of [lstrip] is empty or starts with a non-blank. *)
Lemma lstrip_head (s : string) :
  lstrip s = "" \/ exists c t, lstrip s = String c t /\ isspace c = false.
Proof.
  induction s as [|c s IH]; [now left|].
  simpl. destruct (isspace c) eqn:Hc; [exact IH|].
  right. now exists c, s.
Qed.

Lemma strip_stripped (s : string) : stripped (strip s).
Proof.
  unfold stripped, strip.
  destruct (lstrip_head s) as [E | (c & t & E & Hc)]; rewrite E.
  - now split.
  - rewrite (rstrip_cons _ _ Hc). split.
    + simpl. now rewrite Hc.
    + rewrite (rstrip_cons _ _ Hc). now rewrite rstrip_idem.
Qed.

Lemma stripped_strip (s : string) : stripped s -> strip s = s.
Proof. intros [H1 H2]. unfold strip. now rewrite H1, H2. Qed.

Lemma strip_idem (s : string) : strip (strip s) = strip s.
Proof. apply stripped_strip, strip_stripped. Qed.

Lemma stripped_empty : stripped "".
Proof. now split. Qed.




(** [rstrip s] is a prefix of [s], [lstrip s] a suffix. *)
Lemma rstrip_prefix (s : string) : exists w, s = (rstrip s ++ w)%string.
Proof.
  induction s as [|c s (w & IH)]; [now exists ""|].
  simpl. destruct (rstrip s) as [|d r] eqn:E.
  - destruct (isspace c).
    + now exists (String c s).
    + exists w. simpl. simpl in IH. now rewrite <- IH.
  - exists w. simpl. simpl in IH. now rewrite <- IH.
Qed.

Lemma contains_append (c : char) (a b : string) :
  contains c (a ++ b) = contains c a || contains c b.
Proof.
  induction a as [|x a IH]; [reflexivity|].
  simpl. rewrite IH. now rewrite orb_assoc.
Qed.

Lemma contains_lstrip (c : char) (s : string) :
  isspace c = false -> contains c (lstrip s) = contains c s.
Proof.
  intros Hc. induction s as [|x s IH]; [reflexivity|].
  simpl. destruct (isspace x) eqn:Hx; [|reflexivity].
  rewrite IH. destruct (CharFacts.char_eqb_spec x c) as [->|]; [congruence | reflexivity].
Qed.

Lemma contains_rstrip (c : char) (s : string) :
  isspace c = false -> contains c (rstrip s) = contains c s.
Proof.
  intros Hc. induction s as [|x s IH]; [reflexivity|].
  simpl. destruct (rstrip s) as [|d r] eqn:E.
  - destruct (isspace x) eqn:Hx; simpl.
    + rewrite <- IH. simpl.
      destruct (CharFacts.char_eqb_spec x c) as [->|]; [congruence | reflexivity].
    + now rewrite <- IH.
  - change (contains c (String x (String d r))) with
      (Char.eqb x c || contains c (String d r)).
    now rewrite IH.
Qed.

Lemma contains_strip (c : char) (s : string) :
  isspace c = false -> contains c (strip s) = contains c s.
Proof.
  intros Hc. unfold strip.
  now rewrite (contains_rstrip _ _ Hc), (contains_lstrip _ _ Hc).
Qed.

Lemma contains_before_same (c : char) (s : string) :
  contains c (before c s) = false.
Proof.
  induction s as [|x s IH]; [reflexivity|].
  simpl. destruct (Char.eqb x c) eqn:E; [reflexivity|].
  simpl. now rewrite E.
Qed.

Lemma before_absent (c : char) (s : string) :
  contains c s = false -> before c s = s.
Proof.
  induction s as [|x s IH]; [reflexivity|].
  simpl. destruct (Char.eqb x c); simpl; [discriminate|].
  intros H. now rewrite IH.
Qed.

(** [before c s] is a prefix of [s]. *)
Lemma before_prefix (c : char) (s : string) :
  exists w, s = (before c s ++ w)%string.
Proof.
  induction s as [|x s (w & IH)]; [now exists ""|].
  simpl. destruct (Char.eqb x c).
  - now exists (String x s).
  - exists w. simpl. now rewrite <- IH.
Qed.


Lemma contains_false_append (c : char) (a b : string) :
  contains c (a ++ b) = false -> contains c a = false /\ contains c b = false.
Proof. rewrite contains_append. apply orb_false_elim. Qed.

End StrFacts.

(** ** Matches of a pattern *)

Module ReFacts.

Import Re.

Lemma star_in (p : char -> bool) (s : string) (g : groups) x :
  In x (star p s g) ->
  snd x = g /\ String.length (fst x) <= String.length s.
Proof.
  induction s as [|c s IH]; simpl.
  - intros [<-|[]]. now split.
  - destruct (p c).
    + intros H. apply in_app_or in H as [H|[<-|[]]].
      * destruct (IH H) as [-> L]. split; [reflexivity | lia].
      * now split.
    + intros [<-|[]]. now split.
Qed.

(** A match never moves backwards, and moves forwards when the pattern
    cannot match the empty text. *)
Lemma run_len (r : regex) : forall s g x,
  In x (run r s g) ->
  String.length (fst x) <= String.length s
  /\ (nonnull r = true -> String.length (fst x) < String.length s).
Proof.
  induction r as [|p|a IHa b IHb|a IHa b IHb|a IHa|p|k a IHa];
    intros s g x; simpl.
  - intros [<-|[]]. simpl. split; [lia | discriminate].
  - destruct s as [|c s]; [intros []|].
    destruct (p c); [|intros []].
    intros [<-|[]]. simpl. split; lia.
  - intros H. apply in_flat_map in H as (y & Hy & Hx).
    destruct (IHa _ _ _ Hy) as [La Na], (IHb _ _ _ Hx) as [Lb Nb].
    split; [lia|]. intros H. apply orb_true_iff in H as [H|H];
      [specialize (Na H) | specialize (Nb H)]; lia.
  - intros H. apply in_app_or in H as [H|H].
    + destruct (IHa _ _ _ H) as [La Na]. split; [exact La|].
      intros E. apply andb_true_iff in E as [E _]. auto.
    + destruct (IHb _ _ _ H) as [Lb Nb]. split; [exact Lb|].
      intros E. apply andb_true_iff in E as [_ E]. auto.
  - intros H. apply in_app_or in H as [H|[<-|[]]].
    + destruct (IHa _ _ _ H) as [La _]. split; [exact La | discriminate].
    + split; [simpl; lia | discriminate].
  - intros H. apply star_in in H as [_ L]. split; [exact L | discriminate].
  - intros H. apply in_map_iff in H as (y & <- & Hy). simpl.
    exact (IHa _ _ _ Hy).
Qed.

(** A bound group stays bound. *)
Lemma run_keeps (n : nat) (r : regex) : forall s g x,
  In x (run r s g) -> group g n <> None -> group (snd x) n <> None.
Proof.
  induction r as [|p|a IHa b IHb|a IHa b IHb|a IHa|p|k a IHa];
    intros s g x; simpl.
  - now intros [<-|[]].
  - destruct s as [|c s]; [intros []|].
    destruct (p c); [|intros []]. now intros [<-|[]].
  - intros H G. apply in_flat_map in H as (y & Hy & Hx). eauto.
  - intros H G. apply in_app_or in H as [H|H]; eauto.
  - intros H G. apply in_app_or in H as [H|[<-|[]]]; eauto.
  - intros H G. apply star_in in H as [-> _]. exact G.
  - intros H G. apply in_map_iff in H as (y & <- & Hy). simpl.
    destruct (Nat.eqb k n); [discriminate | eauto].
Qed.

(** A group on every path of the pattern is bound by every match. *)
Lemma run_sets (n : nat) (r : regex) : forall s g x,
  always_sets r n = true -> In x (run r s g) -> group (snd x) n <> None.
Proof.
  induction r as [|p|a IHa b IHb|a IHa b IHb|a IHa|p|k a IHa];
    intros s g x; simpl; try discriminate.
  - intros A H. apply in_flat_map in H as (y & Hy & Hx).
    apply orb_true_iff in A as [A|A].
    + eapply run_keeps; eauto.
    + eauto.
  - intros A H. apply andb_true_iff in A as [A1 A2].
    apply in_app_or in H as [H|H]; eauto.
  - intros A H. apply in_map_iff in H as (y & <- & Hy). simpl.
    destruct (Nat.eqb k n) eqn:E; [discriminate|]. simpl in A. eauto.
Qed.

(** A group that does not occur in the pattern is left as it was. *)
Lemma run_unmentioned (n : nat) (r : regex) : forall s g x,
  mentions r n = false -> In x (run r s g) -> group (snd x) n = group g n.
Proof.
  induction r as [|p|a IHa b IHb|a IHa b IHb|a IHa|p|k a IHa];
    intros s g x; simpl.
  - now intros _ [<-|[]].
  - destruct s as [|c s]; [intros _ []|].
    destruct (p c); [|intros _ []]. now intros _ [<-|[]].
  - intros M H. apply orb_false_elim in M as [Ma Mb].
    apply in_flat_map in H as (y & Hy & Hx).
    rewrite (IHb _ _ _ Mb Hx). eauto.
  - intros M H. apply orb_false_elim in M as [Ma Mb].
    apply in_app_or in H as [H|H]; eauto.
  - intros M H. apply in_app_or in H as [H|[<-|[]]]; eauto.
  - intros _ H. apply star_in in H as [-> _]. reflexivity.
  - intros M H. apply orb_false_elim in M as [Mk Ma].
    apply in_map_iff in H as (y & <- & Hy). simpl. rewrite Mk. eauto.
Qed.

Lemma consumed_nonempty (s s' : string) :
  String.length s' < String.length s -> consumed s s' <> "".
Proof.
  unfold consumed. intros L.
  destruct s as [|c s]; [simpl in L; lia|].
  destruct (String.length (String c s) - String.length s') eqn:E; [lia|].
  simpl. discriminate.
Qed.

(** The text bound to group [n] is not empty when the body of the group
    cannot match the empty text. *)
Lemma run_group_nonnull (n : nat) (r : regex) : forall s g x,
  group_nonnull r n = true ->
  (forall v, group g n = Some v -> v <> "") ->
  In x (run r s g) ->
  forall v, group (snd x) n = Some v -> v <> "".
Proof.
  induction r as [|p|a IHa b IHb|a IHa b IHb|a IHa|p|k a IHa];
    intros s g x; simpl.
  - now intros _ G [<-|[]].
  - destruct s as [|c s]; [intros _ _ []|].
    destruct (p c); [|intros _ _ []]. now intros _ G [<-|[]].
  - intros N G H. apply andb_true_iff in N as [Na Nb].
    apply in_flat_map in H as (y & Hy & Hx).
    exact (IHb _ _ _ Nb (IHa _ _ _ Na G Hy) Hx).
  - intros N G H. apply andb_true_iff in N as [Na Nb].
    apply in_app_or in H as [H|H]; eauto.
  - intros N G H. apply in_app_or in H as [H|[<-|[]]]; eauto.
  - intros _ G H. apply star_in in H as [-> _]. exact G.
  - intros N G H. apply andb_true_iff in N as [Nk Na].
    apply in_map_iff in H as (y & <- & Hy). simpl.
    destruct (Nat.eqb k n) eqn:E.
    + intros v [= <-]. apply consumed_nonempty.
      now apply (run_len a s g y Hy).
    + eauto.
Qed.

(** What [search] returns is a match of the pattern at some position. *)
Lemma search_run (r : regex) (s : string) (m : groups) :
  search r s = Some m -> exists s0 x, In x (run r s0 []) /\ snd x = m.
Proof.
  induction s as [|c s IH]; simpl.
  - destruct (run r "" []) as [|x l] eqn:E; [discriminate|].
    intros [= <-]. exists "", x. rewrite E. split; [now left | reflexivity].
  - destruct (run r (String c s) []) as [|x l] eqn:E; [exact IH|].
    intros [= <-]. exists (String c s), x. rewrite E.
    split; [now left | reflexivity].
Qed.

Lemma search_sets (r : regex) (n : nat) (s : string) (m : groups) :
  always_sets r n = true -> search r s = Some m ->
  exists v, group m n = Some v.
Proof.
  intros A H. apply search_run in H as (s0 & x & Hx & <-).
  pose proof (run_sets n r s0 [] x A Hx) as G.
  destruct (group (snd x) n) as [v|]; [now exists v | contradiction].
Qed.

Lemma search_unmentioned (r : regex) (n : nat) (s : string) (m : groups) :
  mentions r n = false -> search r s = Some m -> group m n = None.
Proof.
  intros M H. apply search_run in H as (s0 & x & Hx & <-).
  now rewrite (run_unmentioned n r s0 [] x M Hx).
Qed.

Lemma search_group_nonnull (r : regex) (n : nat) (s : string) (m : groups) v :
  group_nonnull r n = true -> search r s = Some m ->
  group m n = Some v -> v <> "".
Proof.
  intros N H. apply search_run in H as (s0 & x & Hx & <-).
  apply (run_group_nonnull n r s0 [] x N); [discriminate | exact Hx].
Qed.

End ReFacts.

(** ** Parameter cleaning *)

Module ParamFacts.

Import Str StrFacts Params.

Lemma segs_nonempty (s : string) (d : Z) : segs s d <> [].
Proof.
  destruct s as [|c s]; simpl; [discriminate|].
  destruct (Char.eqb c "("); [now destruct (segs s (d + 1))|].
  destruct (Char.eqb c ")"); [now destruct (segs s (d - 1))|].
  destruct (Char.eqb c "," && (d =? 0)%Z); [discriminate|].
  now destruct (segs s d).
Qed.

(** The character loop computes the raw pieces: all but the last go,
    trimmed, to [param_list]; the last is in [current]. *)
Lemma split_loop_segs (s : string) : forall pl cur d,
  JS.split_loop s pl cur d =
  match segs s d with
  | p :: ps =>
      (pl ++ map strip (removelast ((cur ++ p)%string :: ps)),
       last ((cur ++ p)%string :: ps) "")
  | [] => (pl, cur)
  end.
Proof.
  induction s as [|c s IH]; intros pl cur d.
  - simpl. now rewrite append_nil_r, app_nil_r.
  - cbn [JS.split_loop segs].
    destruct (Char.eqb c "(").
    { rewrite IH. pose proof (segs_nonempty s (d + 1)) as N.
      destruct (segs s (d + 1)) as [|p ps]; [contradiction|].
      now rewrite append_assoc. }
    destruct (Char.eqb c ")").
    { rewrite IH. pose proof (segs_nonempty s (d - 1)) as N.
      destruct (segs s (d - 1)) as [|p ps]; [contradiction|].
      now rewrite append_assoc. }
    destruct (Char.eqb c "," && (d =? 0)%Z).
    { rewrite IH. pose proof (segs_nonempty s d) as N.
      destruct (segs s d) as [|p ps]; [contradiction|].
      rewrite append_nil_r. cbn [append removelast last map].
      now rewrite <- app_assoc. }
    rewrite IH. pose proof (segs_nonempty s d) as N.
    destruct (segs s d) as [|p ps]; [contradiction|].
    now rewrite append_assoc.
Qed.

Lemma pieces_segs (s : string) : pieces s = map strip (segs s 0).
Proof.
  unfold pieces. rewrite split_loop_segs.
  pose proof (segs_nonempty s 0) as N.
  destruct (segs s 0) as [|p ps]; [contradiction|].
  cbn [append]. cbn [app].
  change [strip (last (p :: ps) "")] with (map strip [last (p :: ps) ""]).
  rewrite <- map_app, <- app_removelast_last; [reflexivity | discriminate].
Qed.

(** The loop of the TypeScript cleaner is the same loop. *)
Lemma ts_split_loop (s : string) : forall pl cur d,
  TS.split_loop s pl cur d = JS.split_loop s pl cur d.
Proof.
  induction s as [|c s IH]; intros pl cur d; [reflexivity|].
  cbn [TS.split_loop JS.split_loop]. now rewrite !IH.
Qed.

Lemma ts_param_list_of (s : string) : TS.param_list_of s = JS.param_list_of s.
Proof. unfold TS.param_list_of, JS.param_list_of. now rewrite ts_split_loop. Qed.

Lemma param_list_of_pieces (s : string) :
  JS.param_list_of s = drop_blank_last (pieces s).
Proof.
  unfold JS.param_list_of, pieces, drop_blank_last.
  destruct (JS.split_loop s [] "" 0) as [pl cur].
  rewrite last_last, removelast_last. reflexivity.
Qed.





(** The second loop. *)
Lemma js_clean_param (p : string) :
  JS.clean_param p = strip (before "=" p).
Proof.
  unfold JS.clean_param. destruct (contains "=" p) eqn:E.
  - apply strip_idem.
  - now rewrite (before_absent _ _ E).
Qed.

Lemma contains_before (c d : char) (s : string) :
  contains c s = false -> contains c (before d s) = false.
Proof.
  destruct (before_prefix d s) as (w & E). intros H. rewrite E in H.
  now apply contains_false_append in H.
Qed.

Lemma contains_after (c d : char) (s : string) :
  contains c s = false -> contains c (after d s) = false.
Proof.
  induction s as [|x s IH]; [reflexivity|].
  simpl. destruct (Char.eqb x d); intros H; apply orb_false_elim in H as [_ H];
    [exact H | auto].
Qed.

Lemma js_clean_param_no_default (p : string) :
  contains "=" (JS.clean_param p) = false.
Proof.
  rewrite js_clean_param, contains_strip by reflexivity.
  apply contains_before_same.
Qed.

(** The parameter once its default value is dropped holds no [=]. *)
Lemma no_default (p : string) :
  contains "="
    (if contains "=" p then strip (before "=" p) else p) = false.
Proof.
  destruct (contains "=" p) eqn:E; [|exact E].
  rewrite contains_strip by reflexivity. apply contains_before_same.
Qed.

Lemma ts_clean_param_no_default (p : string) :
  contains "=" (TS.clean_param p) = false.
Proof.
  unfold TS.clean_param. pose proof (no_default p) as N.
  destruct (contains ":" _).
  - rewrite !contains_append, !contains_strip by reflexivity.
    rewrite (contains_before _ _ _ N), (contains_after _ _ _ N). reflexivity.
  - now rewrite contains_strip.
Qed.

(** *** Joining and splitting again *)

























(** *** Cleaning a cleaned list *)

Lemma js_clean_join (s : string) :
  JS._clean_js_params s = join ", " (JS.cleaned_of s).
Proof. now destruct s. Qed.

Lemma ts_clean_join (s : string) :
  TS._clean_typescript_params s = join ", " (TS.cleaned_params_of s).
Proof. now destruct s. Qed.










Lemma map_fix {A : Type} (f g : A -> A) (l : list A) :
  (forall x, f (g x) = g x) -> map f (map g l) = map g l.
Proof.
  intros H. rewrite map_map. apply map_ext. exact H.
Qed.



(** *** The two claims on parameter cleaning *)

Lemma in_removelast {A : Type} (l : list A) (x : A) :
  In x (removelast l) -> In x l.
Proof.
  destruct l as [|a l]; [intros []|].
  destruct (@exists_last _ (a :: l)) as (init & y & ->); [discriminate|].
  rewrite removelast_last. intros H. apply in_or_app. now left.
Qed.








End ParamFacts.

(** ** The line scanners *)

Module ScanFacts.

Import Str StrFacts Re ReFacts Lines.

Section Scanners.

Context {U : Unicode}.

Lemma enumerate_app {A : Type} (a b : list A) : forall k,
  enumerate k (a ++ b) = enumerate k a ++ enumerate (k + List.length a) b.
Proof.
  induction a as [|x a IH]; intros k; simpl.
  - now rewrite Nat.add_0_r.
  - rewrite IH. now rewrite Nat.add_succ_r.
Qed.

Lemma no_match_enumerate (line : string) (pre : list regex) : forall k,
  no_match line pre ->
  Forall (fun q => search (snd q) line = None) (enumerate k pre).
Proof.
  induction pre as [|p pre IH]; intros k H; simpl; [constructor|].
  inversion H; subst. constructor; [assumption | now apply IH].
Qed.

(** [no_match] by evaluation. *)
Lemma no_match_check (line : string) (patterns : list regex) :
  forallb (fun p => match search p line with Some _ => false | None => true end)
    patterns = true ->
  no_match line patterns.
Proof.
  unfold no_match. rewrite forallb_forall, Forall_forall.
  intros H p Hp. specialize (H p Hp). now destruct (search p line).
Qed.

Lemma unmatched_no_match (patterns : list regex) (line : string) :
  unmatched patterns line = true -> no_match (strip line) patterns.
Proof.
  unfold unmatched, no_match. rewrite forallb_forall, Forall_forall.
  intros H p Hp. specialize (H p Hp).
  now destruct (search p (strip line)).
Qed.

(** *** JavaScript *)

(** Patterns that do not match are passed over. *)
Lemma js_scan_functions_skip (rel : string) (i : nat) (line : string)
    (pre rest : list (nat * regex)) :
  Forall (fun q => search (snd q) line = None) pre ->
  JS.scan_functions rel i line (pre ++ rest)
  = JS.scan_functions rel i line rest.
Proof.
  induction pre as [|[idx p] pre IH]; intros H; [reflexivity|].
  inversion H as [|? ? Hp H']; subst. cbn [app JS.scan_functions].
  cbn [snd] in Hp. rewrite Hp. now apply IH.
Qed.

(** The first pattern that matches yields the function line. *)
Lemma js_scan_functions_hit (rel : string) (i : nat) (line : string)
    (idx : nat) (p : regex) (m : groups) (rest : list (nat * regex)) :
  js_function_pattern_ok (idx, p) = true -> search p line = Some m ->
  exists l, JS.scan_functions rel i line ((idx, p) :: rest) = Ok (Some l).
Proof.
  unfold js_function_pattern_ok. cbn [fst snd JS.scan_functions].
  intros K H. rewrite H. destruct (Nat.eqb idx 4).
  - destruct (search_sets _ _ _ _ K H) as (v & ->). cbn. eauto.
  - apply andb_true_iff in K as [K1 K2]. rewrite K1.
    destruct (search_sets _ _ _ _ K2 H) as (v & ->). cbn. eauto.
Qed.

Lemma js_table_ok :
  forallb js_function_pattern_ok (enumerate 0 JS.function_patterns) = true.
Proof. reflexivity. Qed.

Lemma js_functions_never_empty :
  forallb never_empty JS.function_patterns = true.
Proof. reflexivity. Qed.

(** With [fpre] unmatched and [pf] matched, the loop appends one line. *)
Lemma js_scan_functions_first (rel : string) (i : nat) (line : string)
    (fpre fpost : list regex) (pf : regex) (mf : groups) :
  JS.function_patterns = fpre ++ pf :: fpost ->
  no_match line fpre -> search pf line = Some mf ->
  exists l,
    JS.scan_functions rel i line (enumerate 0 JS.function_patterns)
    = Ok (Some l).
Proof.
  intros E N H. pose proof js_table_ok as T. rewrite E in T |- *.
  rewrite enumerate_app in T |- *. cbn [enumerate] in T |- *.
  rewrite js_scan_functions_skip by now apply no_match_enumerate.
  apply js_scan_functions_hit with (m := mf); [|exact H].
  rewrite forallb_app in T. apply andb_true_iff in T as [_ T].
  cbn [forallb] in T. now apply andb_true_iff in T as [T _].
Qed.

Lemma js_scan_functions_none (rel : string) (i : nat) (line : string)
    (pats : list (nat * regex)) :
  Forall (fun q => search (snd q) line = None) pats ->
  JS.scan_functions rel i line pats = Ok None.
Proof.
  intros H. rewrite <- (app_nil_r pats).
  now rewrite js_scan_functions_skip.
Qed.

Lemma js_scan_classes_skip (rel : string) (i : nat) (line : string)
    (pre rest : list regex) :
  no_match line pre ->
  JS.scan_classes rel i line (pre ++ rest) = JS.scan_classes rel i line rest.
Proof.
  induction pre as [|p pre IH]; intros H; [reflexivity|].
  inversion H as [|? ? Hp H']; subst. cbn [app JS.scan_classes].
  rewrite Hp. now apply IH.
Qed.

(** The loop over the function patterns never raises. *)
Lemma js_scan_functions_total (rel : string) (i : nat) (line : string) :
  forall pats,
    forallb js_function_pattern_ok pats = true ->
    exists o, JS.scan_functions rel i line pats = Ok o.
Proof.
  induction pats as [|[idx p] pats IH]; intros T; [now exists None|].
  cbn [forallb] in T. apply andb_true_iff in T as [K T].
  destruct (search p line) as [m|] eqn:H.
  - destruct (js_scan_functions_hit rel i line idx p m pats K H) as (l & ->).
    eauto.
  - cbn [JS.scan_functions]. rewrite H. now apply IH.
Qed.

Lemma js_scan_lines_total (rel : string) : forall lines F C,
  exists r, JS.scan_lines rel lines F C = Ok r.
Proof.
  induction lines as [|[i raw] lines IH]; intros F C; [now eexists|].
  cbn [JS.scan_lines]. destruct (negb (truthy (strip raw))); [apply IH|].
  destruct (js_scan_functions_total rel i (strip raw) _ js_table_ok)
    as (o & ->).
  cbn [bind]. destruct o; [apply IH|].
  destruct (search JS.default_export_pattern (strip raw)); apply IH.
Qed.

(** *** TypeScript *)

Lemma ts_table_ok : forallb ts_function_pattern_ok TS.function_patterns = true.
Proof. reflexivity. Qed.

Lemma ts_never_empty : forallb never_empty ts_patterns = true.
Proof. reflexivity. Qed.

Lemma ts_pattern_facts (p : regex) :
  In p TS.function_patterns ->
  always_sets p 1 = true /\ always_sets p 2 = true
  /\ group_nonnull p 3 = true
  /\ (Nat.ltb 2 (ngroups p) = true \/ mentions p 3 = false).
Proof.
  intros H. pose proof ts_table_ok as T. rewrite forallb_forall in T.
  specialize (T p H). unfold ts_function_pattern_ok in T.
  apply andb_true_iff in T as [T T4]. apply andb_true_iff in T as [T T3].
  apply andb_true_iff in T as [T1 T2]. repeat split; try assumption.
  apply orb_true_iff in T4 as [T4|T4]; [now left|].
  right. now apply negb_true_iff.
Qed.

(** The return type of a function line: the trimmed text of group 3 when
    it is bound, ["any"] otherwise. *)
Lemma ts_function_line_shape (rel : string) (i : nat) (line : string)
    (p : regex) (m : groups) :
  In p TS.function_patterns -> search p line = Some m ->
  exists name raw rt,
    group m 1 = Some name /\ group m 2 = Some raw
    /\ TS.function_line rel i p m
       = Ok (rel ++ ":" ++ of_nat i ++ ": " ++ name ++ "("
             ++ TS._clean_typescript_params (strip raw) ++ ") -> " ++ rt)%string
    /\ ((group m 3 = None /\ rt = "any")
        \/ (exists a, group m 3 = Some a /\ a <> "" /\ rt = strip a))
    /\ (mentions p 3 = false -> rt = "any").
Proof.
  intros Hp H. destruct (ts_pattern_facts p Hp) as (A1 & A2 & N3 & G).
  destruct (search_sets _ _ _ _ A1 H) as (name & E1).
  destruct (search_sets _ _ _ _ A2 H) as (raw & E2).
  assert (P : (if truthy (strip raw)
               then TS._clean_typescript_params (strip raw)
               else strip raw) = TS._clean_typescript_params (strip raw)).
  { now destruct (strip raw). }
  unfold TS.function_line. rewrite E1, E2. cbn [strip_of bind fmt].
  destruct (group m 3) as [a|] eqn:E3.
  - assert (Na : a <> "") by exact (search_group_nonnull _ _ _ _ _ N3 H E3).
    destruct G as [G|G];
      [|rewrite (search_unmentioned _ _ _ _ G H) in E3; discriminate].
    rewrite G. cbn [truthy_of andb].
    apply truthy_true in Na. rewrite Na. cbn [strip_of bind]. rewrite P.
    exists name, raw, (strip a). repeat split.
    + right. exists a. repeat split. now apply truthy_true.
    + intros M. rewrite (search_unmentioned _ _ _ _ M H) in E3. discriminate.
  - cbn [truthy_of]. rewrite andb_false_r. cbn [bind]. rewrite P.
    exists name, raw, "any". repeat split. now left.
Qed.

Lemma ts_scan_functions_skip (rel : string) (i : nat) (line : string)
    (pre rest : list regex) :
  no_match line pre ->
  TS.scan_functions rel i line (pre ++ rest)
  = TS.scan_functions rel i line rest.
Proof.
  induction pre as [|p pre IH]; intros H; [reflexivity|].
  inversion H as [|? ? Hp H']; subst. cbn [app TS.scan_functions].
  rewrite Hp. now apply IH.
Qed.

Lemma ts_scan_classes_skip (rel : string) (i : nat) (line : string)
    (pre rest : list regex) :
  no_match line pre ->
  TS.scan_classes rel i line (pre ++ rest) = TS.scan_classes rel i line rest.
Proof.
  induction pre as [|p pre IH]; intros H; [reflexivity|].
  inversion H as [|? ? Hp H']; subst. cbn [app TS.scan_classes].
  rewrite Hp. now apply IH.
Qed.

Lemma ts_scan_functions_total (rel : string) (i : nat) (line : string) :
  forall pats,
    (forall p, In p pats -> In p TS.function_patterns) ->
    exists o, TS.scan_functions rel i line pats = Ok o.
Proof.
  induction pats as [|p pats IH]; intros S; [now exists None|].
  cbn [TS.scan_functions]. destruct (search p line) as [m|] eqn:H.
  - destruct (ts_function_line_shape rel i line p m (S p (or_introl eq_refl)) H)
      as (name & raw & rt & _ & _ & -> & _). cbn [bind]. eauto.
  - apply IH. intros q Hq. apply S. now right.
Qed.

Lemma ts_scan_lines_total (rel : string) : forall lines F C,
  exists r, TS.scan_lines rel lines F C = Ok r.
Proof.
  induction lines as [|[i raw] lines IH]; intros F C; [now eexists|].
  cbn [TS.scan_lines].
  destruct (ts_scan_functions_total rel i (strip raw) TS.function_patterns)
    as (o & ->); [auto|].
  cbn [bind]. apply IH.
Qed.

(** *** Lines on which nothing matches *)

Lemma js_never_empty : forallb never_empty js_patterns = true.
Proof. reflexivity. Qed.

Lemma never_empty_no_match (ps : list regex) :
  forallb never_empty ps = true -> no_match "" ps.
Proof.
  unfold no_match. rewrite forallb_forall, Forall_forall.
  intros H p Hp. specialize (H p Hp). unfold never_empty in H.
  now destruct (search p "").
Qed.

(** A pattern of the tables matches no blank line. *)
Lemma matched_not_blank (ps : list regex) (p : regex) (line : string) m :
  forallb never_empty ps = true -> In p ps -> search p line = Some m ->
  truthy line = true.
Proof.
  intros T Hp H. destruct line; [|reflexivity].
  apply never_empty_no_match in T. unfold no_match in T.
  rewrite Forall_forall in T. rewrite (T p Hp) in H. discriminate.
Qed.

Lemma js_no_match_line (rel : string) (i : nat) (raw : string)
    (rest : list (nat * string)) (F C : list string) :
  no_match (strip raw) js_patterns ->
  JS.scan_lines rel ((i, raw) :: rest) F C = JS.scan_lines rel rest F C.
Proof.
  unfold no_match, js_patterns. intros N.
  apply Forall_app in N as [Nf N]. inversion N as [|? ? Nd Nc]; subst.
  cbn [JS.scan_lines]. destruct (negb (truthy (strip raw))); [reflexivity|].
  rewrite js_scan_functions_none by now apply no_match_enumerate.
  cbn [bind]. rewrite Nd.
  rewrite <- (app_nil_r JS.class_patterns), js_scan_classes_skip by exact Nc.
  reflexivity.
Qed.

Lemma js_scan_quiet (rel : string) : forall lines k F C,
  Forall (fun l => quiet js_patterns l = true) lines ->
  JS.scan_lines rel (enumerate k lines) F C = Ok (F, C).
Proof.
  induction lines as [|raw lines IH]; intros k F C H; [reflexivity|].
  inversion H as [|? ? Q H']; subst. cbn [enumerate].
  unfold quiet, blank in Q. destruct (negb (truthy (strip raw))) eqn:B.
  - cbn [JS.scan_lines]. rewrite B. now apply IH.
  - cbn [orb] in Q.
    rewrite js_no_match_line by now apply unmatched_no_match.
    now apply IH.
Qed.

Lemma ts_no_match_line (rel : string) (i : nat) (raw : string)
    (rest : list (nat * string)) (F C : list string) :
  no_match (strip raw) ts_patterns ->
  TS.scan_lines rel ((i, raw) :: rest) F C = TS.scan_lines rel rest F C.
Proof.
  unfold no_match, ts_patterns. intros N.
  apply Forall_app in N as [Nf Nc].
  cbn [TS.scan_lines].
  rewrite <- (app_nil_r TS.function_patterns), ts_scan_functions_skip
    by exact Nf.
  rewrite <- (app_nil_r TS.class_patterns), ts_scan_classes_skip by exact Nc.
  reflexivity.
Qed.

Lemma ts_scan_quiet (rel : string) : forall lines k F C,
  Forall (fun l => quiet ts_patterns l = true) lines ->
  TS.scan_lines rel (enumerate k lines) F C = Ok (F, C).
Proof.
  induction lines as [|raw lines IH]; intros k F C H; [reflexivity|].
  inversion H as [|? ? Q H']; subst. cbn [enumerate].
  rewrite ts_no_match_line; [now apply IH|].
  unfold quiet, blank in Q. destruct (negb (truthy (strip raw))) eqn:B.
  - apply negb_true_iff, truthy_false in B. rewrite B.
    apply never_empty_no_match, ts_never_empty.
  - cbn [orb] in Q. now apply unmatched_no_match.
Qed.


(** C5.  On the six lines of the test the JavaScript parser returns the six
    function records, in line order, and no class record. *)
Theorem six_lines_yield_six_function_records :
  JS.parse_file (Samples.one_file Samples.six_lines) Samples.sample_js
  = Ok ([ "sample.js:1: foo(a, b)";
          "sample.js:2: bar(x, y)";
          "sample.js:3: <anonymous>(z)";
          "sample.js:4: <anonymous>(q)";
          "sample.js:5: qux()";
          "sample.js:6: export default qux" ],
        []).
Proof. vm_compute. reflexivity. Qed.

Lemma in_middle {A : Type} (l pre post : list A) (x : A) :
  l = pre ++ x :: post -> In x l.
Proof. intros ->. apply in_elt. Qed.

(** The first matching function pattern decides the TypeScript line. *)
Lemma ts_scan_functions_first (rel : string) (i : nat) (line : string)
    (fpre fpost : list regex) (pf : regex) (mf : groups) :
  TS.function_patterns = fpre ++ pf :: fpost ->
  no_match line fpre -> search pf line = Some mf ->
  exists l,
    TS.function_line rel i pf mf = Ok l
    /\ TS.scan_functions rel i line TS.function_patterns = Ok (Some l).
Proof.
  intros E N H.
  destruct (ts_function_line_shape rel i line pf mf (in_middle _ _ _ _ E) H)
    as (name & raw & rt & _ & _ & L & _).
  eexists. split; [exact L|].
  rewrite E, ts_scan_functions_skip by exact N.
  cbn [TS.scan_functions]. rewrite H, L. reflexivity.
Qed.

Lemma ts_scan_classes_first (rel : string) (i : nat) (line : string)
    (cpre cpost : list regex) (pc : regex) (mc : groups) :
  TS.class_patterns = cpre ++ pc :: cpost ->
  no_match line cpre -> search pc line = Some mc ->
  TS.scan_classes rel i line TS.class_patterns
  = Some (TS.class_line rel i pc mc).
Proof.
  intros E N H. rewrite E, ts_scan_classes_skip by exact N.
  cbn [TS.scan_classes]. now rewrite H.
Qed.

(** *** What one line gives *)







Lemma ts_scan_functions_none (rel : string) (i : nat) (line : string)
    (pats : list regex) :
  no_match line pats -> TS.scan_functions rel i line pats = Ok None.
Proof.
  intros H. rewrite <- (app_nil_r pats). now rewrite ts_scan_functions_skip.
Qed.

Lemma ts_scan_classes_none (rel : string) (i : nat) (line : string)
    (pats : list regex) :
  no_match line pats -> TS.scan_classes rel i line pats = None.
Proof.
  intros H. rewrite <- (app_nil_r pats). now rewrite ts_scan_classes_skip.
Qed.

Lemma js_scan_classes_none (rel : string) (i : nat) (line : string)
    (pats : list regex) :
  no_match line pats -> JS.scan_classes rel i line pats = None.
Proof.
  intros H. rewrite <- (app_nil_r pats). now rewrite js_scan_classes_skip.
Qed.

Lemma default_export_ok :
  always_sets JS.default_export_pattern 1 = true
  /\ group_nonnull JS.default_export_pattern 1 = true.
Proof. split; reflexivity. Qed.

(** *** Which lines leave the two lists as they are *)



Lemma app_grows {A : Type} (F f g : list A) (x : A) :
  (F ++ [x]) ++ f = F ++ g -> g = x :: f.
Proof.
  rewrite <- app_assoc. intros H. apply app_inv_head in H. now symmetry.
Qed.







(** C4, as the code has it.  Within each list the first pattern that
    matches decides.  The TypeScript scanner consults the class patterns on
    every line, whatever the function patterns did: what a line adds to the
    class records depends on the class patterns alone, what it adds to the
    function records on the function patterns alone, so a line that matches
    both yields a function record and a class record.  The JavaScript
    scanner passes over a blank line; it stops at a function match, which
    yields the function record and no class record; on a line that matches
    no function pattern it stops at a default export of an identifier, which
    yields an [export default] record among the function records and no
    class record; only on the remaining lines are the class patterns
    consulted. *)
Theorem class_patterns_after_function_patterns :
  (forall rel i raw rest F C,
      exists fo co,
        TS.scan_lines rel ((i, raw) :: rest) F C
        = TS.scan_lines rel rest (TS.push F fo) (TS.push C co)
        /\ (no_match (strip raw) TS.function_patterns -> fo = None)
        /\ (forall fpre pf fpost mf,
              TS.function_patterns = fpre ++ pf :: fpost ->
              no_match (strip raw) fpre -> search pf (strip raw) = Some mf ->
              exists l, TS.function_line rel i pf mf = Ok l /\ fo = Some l)
        /\ (no_match (strip raw) TS.class_patterns -> co = None)
        /\ (forall cpre pc cpost mc,
              TS.class_patterns = cpre ++ pc :: cpost ->
              no_match (strip raw) cpre -> search pc (strip raw) = Some mc ->
              co = Some (TS.class_line rel i pc mc)))
  /\ (forall rel i raw rest F C,
        (truthy (strip raw) = false ->
         JS.scan_lines rel ((i, raw) :: rest) F C = JS.scan_lines rel rest F C)
        /\ (forall fpre pf fpost mf,
              JS.function_patterns = fpre ++ pf :: fpost ->
              no_match (strip raw) fpre -> search pf (strip raw) = Some mf ->
              exists l,
                JS.scan_functions rel i (strip raw)
                  (enumerate 0 JS.function_patterns) = Ok (Some l)
                /\ JS.scan_lines rel ((i, raw) :: rest) F C
                   = JS.scan_lines rel rest (F ++ [l]) C)
        /\ (forall m,
              no_match (strip raw) JS.function_patterns ->
              search JS.default_export_pattern (strip raw) = Some m ->
              exists ident,
                group m 1 = Some ident /\ ident <> ""
                /\ JS.scan_lines rel ((i, raw) :: rest) F C
                   = JS.scan_lines rel rest
                       (F ++ [(rel ++ ":" ++ of_nat i ++ ": export default "
                               ++ ident)%string]) C)
        /\ (forall cpre pc cpost mc,
              no_match (strip raw) JS.function_patterns ->
              search JS.default_export_pattern (strip raw) = None ->
              JS.class_patterns = cpre ++ pc :: cpost ->
              no_match (strip raw) cpre -> search pc (strip raw) = Some mc ->
              JS.scan_lines rel ((i, raw) :: rest) F C
              = JS.scan_lines rel rest F
                  (C ++ [(rel ++ ":" ++ of_nat i ++ ": class "
                          ++ (if truthy_of (group mc 1) then fmt (group mc 1)
                              else "<anonymous>"))%string]))
        /\ (no_match (strip raw) js_patterns ->
            JS.scan_lines rel ((i, raw) :: rest) F C
            = JS.scan_lines rel rest F C)).
Proof.
  split.
  - intros rel i raw rest F C.
    destruct (ts_scan_functions_total rel i (strip raw) TS.function_patterns)
      as (fo & S); [auto|].
    exists fo, (TS.scan_classes rel i (strip raw) TS.class_patterns).
    split; [cbn [TS.scan_lines]; now rewrite S|].
    split; [intros N; rewrite (ts_scan_functions_none _ _ _ _ N) in S;
            congruence|].
    split.
    { intros fpre pf fpost mf Ef Nf Hf.
      destruct (ts_scan_functions_first rel i _ _ _ _ _ Ef Nf Hf)
        as (l & L & S').
      exists l. split; [exact L | congruence]. }
    split; [apply ts_scan_classes_none|].
    intros cpre pc cpost mc Ec Nc Hc.
    apply (ts_scan_classes_first rel i _ _ _ _ _ Ec Nc Hc).
  - intros rel i raw rest F C. split; [|split; [|split; [|split]]].
    + intros T. cbn [JS.scan_lines]. now rewrite T.
    + intros fpre pf fpost mf Ef Nf Hf.
      destruct (js_scan_functions_first rel i _ _ _ _ _ Ef Nf Hf) as (l & S).
      exists l. split; [exact S|]. cbn [JS.scan_lines].
      assert (T : truthy (strip raw) = true).
      { apply (matched_not_blank JS.function_patterns pf _ mf);
          [exact js_functions_never_empty | exact (in_middle _ _ _ _ Ef)
          | exact Hf]. }
      rewrite T. cbn [negb]. rewrite S. reflexivity.
    + intros m Nf D. destruct default_export_ok as [A N].
      destruct (search_sets _ _ _ _ A D) as (ident & G).
      exists ident. split; [exact G|].
      split; [exact (search_group_nonnull _ _ _ _ _ N D G)|].
      cbn [JS.scan_lines].
      assert (T : truthy (strip raw) = true).
      { apply (matched_not_blank js_patterns JS.default_export_pattern _ m);
          [exact js_never_empty | | exact D].
        unfold js_patterns. apply in_or_app. right. now left. }
      rewrite T. cbn [negb].
      rewrite js_scan_functions_none by now apply no_match_enumerate.
      cbn [bind]. rewrite D, G. reflexivity.
    + intros cpre pc cpost mc Nf Nd Ec Nc Hc. cbn [JS.scan_lines].
      assert (T : truthy (strip raw) = true).
      { apply (matched_not_blank js_patterns pc _ mc);
          [exact js_never_empty | | exact Hc].
        unfold js_patterns. apply in_or_app. right. right.
        exact (in_middle _ _ _ _ Ec). }
      rewrite T. cbn [negb].
      rewrite js_scan_functions_none by now apply no_match_enumerate.
      cbn [bind]. rewrite Nd, Ec, js_scan_classes_skip by exact Nc.
      cbn [JS.scan_classes]. rewrite Hc. reflexivity.
    + apply js_no_match_line.
Qed.

(** C8, as the code has it.  The record of a TypeScript line matched by a
    function pattern is [name(params) -> returnType]: the name and the
    cleaned parameters come from groups 1 and 2 of the first pattern that
    matches, and [returnType] is the trimmed text of its group 3, the text
    that follows the colon after the closing parenthesis up to the next
    brace or the end of the line, when that group is bound, the literal
    ["any"] when it is not.  A pattern without group 3, the arrow-function
    pattern, always gives ["any"]. *)
Theorem ts_function_record_return_type :
  forall rel i line fpre pf fpost mf,
    TS.function_patterns = fpre ++ pf :: fpost ->
    no_match line fpre -> search pf line = Some mf ->
    exists name raw rt,
      group mf 1 = Some name /\ group mf 2 = Some raw
      /\ TS.scan_functions rel i line TS.function_patterns
         = Ok (Some (rel ++ ":" ++ of_nat i ++ ": " ++ name ++ "("
                     ++ TS._clean_typescript_params (strip raw)
                     ++ ") -> " ++ rt)%string)
      /\ ((group mf 3 = None /\ rt = "any")
          \/ (exists a, group mf 3 = Some a /\ a <> "" /\ rt = strip a))
      /\ (mentions pf 3 = false -> rt = "any").
Proof.
  intros rel i line fpre pf fpost mf E N H.
  destruct (ts_function_line_shape rel i line pf mf (in_middle _ _ _ _ E) H)
    as (name & raw & rt & E1 & E2 & L & R & A).
  exists name, raw, rt. repeat split; try assumption.
  rewrite E, ts_scan_functions_skip by exact N.
  cbn [TS.scan_functions]. rewrite H, L. reflexivity.
Qed.


End Scanners.

(** *** Examples *)

Section Cases.

Local Existing Instance Samples.latin1.


(** The two tests of [tests/test_javascript_parser.py]. *)
Example test_extract_functions :
  JS.parse_file (Samples.one_file Samples.functions_js) Samples.sample_js
  = Ok ([ "sample.js:1: foo(a, b)";
          "sample.js:2: bar(x, y)";
          "sample.js:3: <anonymous>(z)";
          "sample.js:4: <anonymous>(q)";
          "sample.js:5: qux()";
          "sample.js:6: export default qux" ],
        []).
Proof. vm_compute. reflexivity. Qed.

Example test_extract_classes :
  JS.parse_file (Samples.one_file Samples.classes_js)
    (mkPath ["tmp"; "classes.js"])
  = Ok ([],
        [ "classes.js:1: class Foo";
          "classes.js:2: class Bar";
          "classes.js:3: class Baz" ]).
Proof. vm_compute. reflexivity. Qed.

Lemma class_patterns_after_function_patterns_witness :
  TS.scan_lines "sample.ts" [(1, Samples.method_in_class)] [] []
  = Ok (["sample.ts:1: bar() -> any"], ["sample.ts:1: class Foo"])
  /\ TS.scan_lines "sample.ts" [(1, "class Foo {")] [] []
     = Ok ([], ["sample.ts:1: class Foo"])
  /\ JS.scan_lines "sample.js" [(1, Samples.method_in_class)] [] []
     = Ok (["sample.js:1: bar()"], [])
  /\ JS.scan_lines "sample.js" [(1, "export default Foo; class Bar {}")] [] []
     = Ok (["sample.js:1: export default Foo"], []).
Proof.
  split; [|split; [|split]].
  - destruct (proj1 class_patterns_after_function_patterns
                "sample.ts" 1 Samples.method_in_class [] [] [])
      as (fo & co & E & _ & Ff & _ & Cf).
    destruct (Ff (firstn 2 TS.function_patterns) Samples.ts_method_pattern []
                [(2, ""); (1, "bar")]) as (l & L & ->).
    + reflexivity.
    + apply no_match_check. vm_compute. reflexivity.
    + vm_compute. reflexivity.
    + rewrite (Cf [] Samples.ts_class_pattern (skipn 1 TS.class_patterns)
                 [(1, "Foo")]) in E.
      * rewrite E. vm_compute in L. injection L as <-. reflexivity.
      * reflexivity.
      * constructor.
      * vm_compute. reflexivity.
  - destruct (proj1 class_patterns_after_function_patterns
                "sample.ts" 1 "class Foo {" [] [] [])
      as (fo & co & E & Fn & _ & _ & Cf).
    rewrite Fn in E.
    + rewrite (Cf [] Samples.ts_class_pattern (skipn 1 TS.class_patterns)
                 [(1, "Foo")]) in E.
      * rewrite E. reflexivity.
      * reflexivity.
      * constructor.
      * vm_compute. reflexivity.
    + apply no_match_check. vm_compute. reflexivity.
  - destruct (proj1 (proj2 (proj2 class_patterns_after_function_patterns
                              "sample.js" 1 Samples.method_in_class [] [] []))
                (firstn 5 JS.function_patterns) Samples.js_method_pattern []
                [(2, ""); (1, "bar")]) as (l & S & E).
    + reflexivity.
    + apply no_match_check. vm_compute. reflexivity.
    + vm_compute. reflexivity.
    + rewrite E. vm_compute in S. injection S as <-. reflexivity.
  - destruct (proj1 (proj2 (proj2 (proj2 class_patterns_after_function_patterns
                              "sample.js" 1 "export default Foo; class Bar {}"
                              [] [] [])))
                [(1, "Foo")]) as (ident & G & _ & E).
    + apply no_match_check. vm_compute. reflexivity.
    + vm_compute. reflexivity.
    + rewrite E. injection G as <-. reflexivity.
Defined.

(** C4 as stated fails for JavaScript: the line matches the method
    pattern and the plain class pattern, and yields no class record. *)
Lemma js_class_pattern_skipped_after_function_match :
  search Samples.js_method_pattern Samples.method_in_class
  = Some [(2, ""); (1, "bar")]
  /\ search Samples.js_class_pattern Samples.method_in_class
     = Some [(1, "Foo")]
  /\ JS.parse_file (Samples.one_file Samples.method_in_class) Samples.sample_js
     = Ok (["sample.js:1: bar()"], [])
  /\ TS.parse_file (Samples.one_file Samples.method_in_class) Samples.sample_ts
     = Ok (["sample.ts:1: bar() -> any"], ["sample.ts:1: class Foo"]).
Proof. repeat split; vm_compute; reflexivity. Qed.

Lemma ts_function_record_return_type_witness :
  exists name raw rt,
    group [(3, "string "); (2, "a: number"); (1, "f")] 1 = Some name
    /\ group [(3, "string "); (2, "a: number"); (1, "f")] 2 = Some raw
    /\ TS.scan_functions "sample.ts" 1 Samples.annotated_function
         TS.function_patterns
       = Ok (Some ("sample.ts" ++ ":" ++ of_nat 1 ++ ": " ++ name ++ "("
                   ++ TS._clean_typescript_params (strip raw)
                   ++ ") -> " ++ rt)%string)
    /\ ((group [(3, "string "); (2, "a: number"); (1, "f")] 3 = None
         /\ rt = "any")
        \/ (exists a,
              group [(3, "string "); (2, "a: number"); (1, "f")] 3 = Some a
              /\ a <> "" /\ rt = strip a))
    /\ (mentions (hd Eps TS.function_patterns) 3 = false -> rt = "any").
Proof.
  apply (ts_function_record_return_type "sample.ts" 1
           Samples.annotated_function [] (hd Eps TS.function_patterns)
           (tl TS.function_patterns)
           [(3, "string "); (2, "a: number"); (1, "f")]).
  - reflexivity.
  - constructor.
  - vm_compute. reflexivity.
Defined.

(** C8 as stated fails: an arrow function with a return annotation is
    recorded with ["any"], and a method whose return type is an object type
    is recorded with an empty return type. *)
Lemma annotated_arrow_function_recorded_as_any :
  TS.parse_file (Samples.one_file Samples.annotated_arrow) Samples.sample_ts
  = Ok (["sample.ts:1: f(x: number) -> any"], [])
  /\ endswith "sample.ts:1: f(x: number) -> any" "number" = false
  /\ TS.parse_file (Samples.one_file Samples.object_typed_method)
       Samples.sample_ts
     = Ok (["sample.ts:1: baz() -> "], []).
Proof. repeat split; vm_compute; reflexivity. Qed.

End Cases.

End ScanFacts.

(** ** The tree walk *)

Module WalkFacts.

Import Py Orders.

Lemma sum_stmts (l : list stmt) :
  list_sum (map size (map NStmt l)) = list_sum (map size_stmt l).
Proof. now rewrite map_map. Qed.

Lemma sum_exprs (l : list expr) :
  list_sum (map size (map NExpr l)) = list_sum (map size_expr l).
Proof. now rewrite map_map. Qed.

Lemma sum_args (l : list arg) :
  list_sum (map size (map NArg l)) = list_sum (map size_arg l).
Proof. now rewrite map_map. Qed.

Lemma sum_cons (x : nat) (l : list nat) : list_sum (x :: l) = x + list_sum l.
Proof. reflexivity. Qed.

Lemma sum_nil : list_sum [] = 0.
Proof. reflexivity. Qed.

(** A node and its children: the sizes add up. *)
Lemma size_eq (n : node) :
  size n = S (list_sum (map size (iter_child_nodes n))).
Proof.
  destruct n as [body|s|e|a|a].
  - cbn [size iter_child_nodes]. now rewrite sum_stmts.
  - destruct s; cbn [size size_stmt iter_child_nodes map];
      rewrite ?sum_cons, ?map_app, ?list_sum_app, ?sum_cons, ?sum_nil,
        ?sum_stmts, ?sum_exprs;
      cbn [size map]; rewrite ?sum_cons, ?sum_nil; cbn [size]; lia.
  - destruct e; cbn [size size_expr iter_child_nodes map];
      rewrite ?sum_cons, ?sum_nil, ?sum_exprs; cbn [size]; lia.
  - cbn [size iter_child_nodes]. unfold size_arguments.
    rewrite ?map_app, ?list_sum_app, ?sum_args, ?sum_exprs. lia.
  - cbn [size iter_child_nodes]. unfold size_arg. now rewrite sum_exprs.
Qed.

Lemma flat_map_map {A B C : Type} (f : B -> list C) (g : A -> B) (l : list A) :
  flat_map f (map g l) = flat_map (fun x => f (g x)) l.
Proof. induction l as [|x l IH]; simpl; [reflexivity | now rewrite IH]. Qed.

Lemma pre_stmts (l : list stmt) :
  flat_map preorder (map NStmt l) = flat_map preorder_stmt l.
Proof. now rewrite flat_map_map. Qed.

Lemma pre_exprs (l : list expr) :
  flat_map preorder (map NExpr l) = flat_map preorder_expr l.
Proof. now rewrite flat_map_map. Qed.

Lemma pre_args (l : list arg) :
  flat_map preorder (map NArg l) = flat_map preorder_arg l.
Proof. now rewrite flat_map_map. Qed.

(** The pre-order sequence: the node, then its children's sequences. *)
Lemma preorder_eq (n : node) :
  preorder n = n :: flat_map preorder (iter_child_nodes n).
Proof.
  destruct n as [body|s|e|a|a].
  - cbn [preorder iter_child_nodes]. now rewrite pre_stmts.
  - destruct s; cbn [preorder preorder_stmt iter_child_nodes flat_map];
      rewrite ?flat_map_app, ?pre_stmts, ?pre_exprs;
      cbn [preorder flat_map]; rewrite ?app_nil_r, <- ?app_assoc; reflexivity.
  - destruct e; cbn [preorder preorder_expr iter_child_nodes flat_map];
      rewrite ?pre_exprs, ?app_nil_r; reflexivity.
  - cbn [preorder iter_child_nodes]. unfold preorder_arguments.
    rewrite ?flat_map_app, ?pre_args, ?pre_exprs, <- ?app_assoc. reflexivity.
  - cbn [preorder iter_child_nodes]. unfold preorder_arg.
    now rewrite pre_exprs.
Qed.

Lemma total_cons (n : node) (todo : list node) :
  total (n :: todo) = size n + total todo.
Proof. reflexivity. Qed.

Lemma total_app (a b : list node) : total (a ++ b) = total a + total b.
Proof. unfold total. now rewrite map_app, list_sum_app. Qed.

Lemma total_children (todo : list node) :
  total (flat_map iter_child_nodes todo) + List.length todo = total todo.
Proof.
  induction todo as [|n todo IH]; [reflexivity|].
  cbn [flat_map List.length]. rewrite total_app, total_cons, (size_eq n).
  fold (total (iter_child_nodes n)). lia.
Qed.

(** Fuel beyond the number of nodes in the queue changes nothing. *)
Lemma walk_loop_enough : forall fuel todo,
  total todo <= fuel -> walk_loop fuel todo = walk_loop (total todo) todo.
Proof.
  induction fuel as [|fuel IH]; intros todo H.
  - now replace (total todo) with 0 by lia.
  - destruct todo as [|n rest]; [reflexivity|].
    rewrite total_cons, (size_eq n) in *.
    fold (total (iter_child_nodes n)) in *.
    cbn [walk_loop plus]. f_equal.
    rewrite IH by (rewrite total_app; lia).
    f_equal. rewrite total_app. lia.
Qed.

(** One turn of the loop of [ast.walk]. *)
Lemma walk_loop_cons (n : node) (rest : list node) :
  walk_loop (total (n :: rest)) (n :: rest)
  = n :: walk_loop (total (rest ++ iter_child_nodes n))
           (rest ++ iter_child_nodes n).
Proof.
  rewrite total_cons, (size_eq n). fold (total (iter_child_nodes n)).
  cbn [walk_loop plus]. f_equal.
  apply walk_loop_enough. rewrite total_app. lia.
Qed.

(** The queue is served in order: what is in it comes out first, the
    children follow. *)
Lemma walk_loop_app (a : list node) : forall c,
  walk_loop (total (a ++ c)) (a ++ c)
  = a ++ walk_loop (total (c ++ flat_map iter_child_nodes a))
           (c ++ flat_map iter_child_nodes a).
Proof.
  induction a as [|n a IH]; intros c.
  - cbn [app flat_map]. now rewrite app_nil_r.
  - cbn [app flat_map]. rewrite walk_loop_cons. f_equal.
    rewrite <- app_assoc, IH. now rewrite <- app_assoc.
Qed.

(** Every node of the queued subtrees is yielded exactly once. *)
Lemma walk_loop_perm : forall k todo,
  total todo <= k ->
  Permutation (walk_loop (total todo) todo) (flat_map preorder todo).
Proof.
  induction k as [|k IH]; intros todo H.
  - destruct todo as [|n rest]; [constructor|].
    rewrite total_cons, (size_eq n) in H. lia.
  - destruct todo as [|n rest]; [constructor|].
    rewrite walk_loop_cons. cbn [flat_map]. rewrite (preorder_eq n).
    cbn [app]. constructor.
    rewrite IH.
    + rewrite flat_map_app. apply Permutation_app_comm.
    + rewrite total_app. rewrite total_cons, (size_eq n) in H.
      fold (total (iter_child_nodes n)) in H. lia.
Qed.

Lemma flat_map_flat_map {A B C : Type} (f : B -> list C) (g : A -> list B)
    (l : list A) :
  flat_map f (flat_map g l) = flat_map (fun x => flat_map f (g x)) l.
Proof.
  induction l as [|x l IH]; simpl; [reflexivity|].
  now rewrite flat_map_app, IH.
Qed.

Lemma level_succ (k : nat) (todo : list node) :
  flat_map (level (S k)) todo
  = flat_map (level k) (flat_map iter_child_nodes todo).
Proof. now rewrite flat_map_flat_map. Qed.

Lemma level_zero (todo : list node) : flat_map (level 0) todo = todo.
Proof.
  induction todo as [|n todo IH]; [reflexivity|].
  change (flat_map (level 0) (n :: todo)) with (n :: flat_map (level 0) todo).
  now rewrite IH.
Qed.

(** Below the number of nodes there is no level left. *)
Lemma level_beyond : forall k todo,
  total todo <= k -> flat_map (level k) todo = [].
Proof.
  induction k as [|k IH]; intros todo H.
  - destruct todo as [|n rest]; [reflexivity|].
    rewrite total_cons, (size_eq n) in H. lia.
  - rewrite level_succ. apply IH.
    pose proof (total_children todo) as T.
    destruct todo as [|n rest]; [cbn in *; lia|]. cbn [List.length] in T. lia.
Qed.

Lemma walk_loop_step (a : list node) :
  walk_loop (total a) a
  = a ++ walk_loop (total (flat_map iter_child_nodes a))
           (flat_map iter_child_nodes a).
Proof.
  pose proof (walk_loop_app a []) as H. now rewrite app_nil_r in H.
Qed.

Lemma flat_map_all_nil {A B : Type} (f : A -> list B) (l : list A) :
  (forall x, In x l -> f x = []) -> flat_map f l = [].
Proof.
  induction l as [|x l IH]; intros H; [reflexivity|].
  cbn [flat_map]. rewrite (H x (or_introl eq_refl)). apply IH.
  intros y Hy. apply H. now right.
Qed.

(** [ast.walk] yields the nodes level by level. *)
Lemma walk_loop_levels : forall k todo,
  total todo <= k ->
  walk_loop (total todo) todo
  = flat_map (fun d => flat_map (level d) todo) (seq 0 (total todo)).
Proof.
  induction k as [|k IH]; intros todo H.
  - destruct todo as [|n rest]; [reflexivity|].
    rewrite total_cons, (size_eq n) in H. lia.
  - destruct todo as [|n rest]; [reflexivity|].
    set (todo := n :: rest) in *.
    pose proof (total_children todo) as T.
    assert (L : 1 <= List.length todo) by (cbn; lia).
    rewrite walk_loop_step.
    set (kids := flat_map iter_child_nodes todo) in *.
    rewrite IH by lia.
    replace (total todo) with (S (total kids + (List.length todo - 1))) by lia.
    cbn [seq flat_map]. rewrite level_zero. f_equal.
    rewrite <- seq_shift, flat_map_map.
    rewrite seq_app, flat_map_app.
    rewrite <- (app_nil_r (flat_map _ (seq 0 (total kids)))) at 1.
    f_equal.
    + apply flat_map_ext. intros d. now rewrite level_succ.
    + symmetry. apply flat_map_all_nil. intros d Hd.
      apply in_seq in Hd. rewrite level_succ. apply level_beyond.
      fold kids. lia.
Qed.

(** *** The walk from one node *)

Lemma walk_perm (n : node) : Permutation (walk n) (preorder n).
Proof.
  unfold walk. replace (size n) with (total [n]) by (cbn; lia).
  rewrite (walk_loop_perm (total [n]) [n]) by lia.
  cbn [flat_map]. now rewrite app_nil_r.
Qed.

Lemma walk_levels (n : node) :
  walk n = flat_map (fun d => level d n) (seq 0 (size n)).
Proof.
  unfold walk. replace (size n) with (total [n]) by (cbn; lia).
  rewrite (walk_loop_levels (total [n]) [n]) by lia.
  apply flat_map_ext. intros d. cbn [flat_map]. now rewrite app_nil_r.
Qed.

(** *** The loop over the walked nodes *)

Section Collect.

Variable unparse : expr -> string.
Variable rel : string.

Lemma visit_appends (F C : list string) (n : node) :
  visit unparse rel (F, C) n
  = (F ++ function_lines_of unparse rel n, C ++ class_lines_of unparse rel n).
Proof.
  unfold function_lines_of, class_lines_of.
  destruct n as [body|s|e|a|a]; try (cbn; now rewrite !app_nil_r).
  destruct s; cbn; now rewrite ?app_nil_r.
Qed.

Lemma fold_visit (nodes : list node) : forall F C,
  fold_left (visit unparse rel) nodes (F, C)
  = (F ++ flat_map (function_lines_of unparse rel) nodes,
     C ++ flat_map (class_lines_of unparse rel) nodes).
Proof.
  induction nodes as [|n nodes IH]; intros F C.
  - cbn. now rewrite !app_nil_r.
  - cbn [fold_left flat_map]. rewrite visit_appends, IH.
    now rewrite <- !app_assoc.
Qed.

Lemma collect_flat_map (nodes : list node) :
  collect unparse rel nodes
  = (flat_map (function_lines_of unparse rel) nodes,
     flat_map (class_lines_of unparse rel) nodes).
Proof. unfold collect. now rewrite fold_visit. Qed.

(** One line per function node, none for any other node. *)
Lemma function_lines_of_def (n : node) :
  if is_function_def n
  then exists l, function_lines_of unparse rel n = [l]
  else function_lines_of unparse rel n = [].
Proof.
  destruct n as [body|s|e|a|a]; try reflexivity.
  destruct s; cbn; eauto.
Qed.

(** One record per class node, its header first, none for any other node. *)
Lemma class_lines_of_def (n : node) :
  if is_class_def n
  then exists header more, class_lines_of unparse rel n = header :: more
  else class_lines_of unparse rel n = [].
Proof.
  destruct n as [body|s|e|a|a]; try reflexivity.
  destruct s; try reflexivity.
  unfold class_lines_of. cbn [is_class_def visit snd app].
  unfold class_lines.
  destruct (_collect_class_attrs _ _), (_collect_instance_attrs _ _),
    (_collect_properties _ _); cbn [app]; eauto.
Qed.

End Collect.

End WalkFacts.

(** ** The tree-based extractor *)

Module PyFacts.

Import Py Orders WalkFacts.

(** C2, as the code has it.  For a parseable file under the project root
    the extractor emits one function line per function or async-function
    node and one class record (a header line, then its summary lines) per
    class node, at any depth: the nodes [ast.walk] yields are a permutation
    of the pre-order sequence of the tree.  The records follow the order of
    [ast.walk], which is breadth-first: the nodes at depth [d], left to
    right, come before the nodes at depth [d + 1]. *)
Theorem extractor_records_follow_the_walk :
  forall ast_parse unparse (fs : filesystem) file root content tree rel,
    fs file = Ok content ->
    ast_parse content = Ok tree ->
    relative_to file root = Ok rel ->
    extract_from_file ast_parse unparse fs file root
    = Ok (flat_map (function_lines_of unparse (path_str rel))
            (walk (NModule tree)),
          flat_map (class_lines_of unparse (path_str rel))
            (walk (NModule tree)))
    /\ (forall n,
          if is_function_def n
          then exists l, function_lines_of unparse (path_str rel) n = [l]
          else function_lines_of unparse (path_str rel) n = [])
    /\ (forall n,
          if is_class_def n
          then exists header more,
                 class_lines_of unparse (path_str rel) n = header :: more
          else class_lines_of unparse (path_str rel) n = [])
    /\ Permutation (walk (NModule tree)) (preorder (NModule tree))
    /\ walk (NModule tree)
       = flat_map (fun d => level d (NModule tree))
           (seq 0 (size (NModule tree))).
Proof.
  intros ast_parse unparse fs file root content tree rel R P L.
  split; [|split; [|split; [|split]]].
  - unfold extract_from_file. rewrite R. cbn [bind]. rewrite P, L.
    cbn [bind]. now rewrite collect_flat_map.
  - apply function_lines_of_def.
  - apply class_lines_of_def.
  - apply walk_perm.
  - apply walk_levels.
Qed.

Lemma extractor_records_follow_the_walk_witness :
  extract_from_file (Samples.parse_as Samples.nested_module)
    Samples.unparse_names (Samples.one_file "") Samples.module_py
    Samples.project
  = Ok (flat_map (function_lines_of Samples.unparse_names "pkg/m.py")
          (walk (NModule Samples.nested_module)),
        flat_map (class_lines_of Samples.unparse_names "pkg/m.py")
          (walk (NModule Samples.nested_module))).
Proof.
  apply (extractor_records_follow_the_walk
           (Samples.parse_as Samples.nested_module) Samples.unparse_names
           (Samples.one_file "") Samples.module_py Samples.project ""
           Samples.nested_module (mkPath ["pkg"; "m.py"])
           eq_refl eq_refl eq_refl).
Defined.

(** C2 as stated fails on the order: the method [f] of class [A] comes
    before the function [g] in pre-order, and after it in the output. *)
Lemma walk_order_is_not_preorder :
  extract_from_file (Samples.parse_as Samples.nested_module)
    Samples.unparse_names (Samples.one_file "") Samples.module_py
    Samples.project
  = Ok (["pkg/m.py:3: g() -> Unknown"; "pkg/m.py:2: f(self) -> Unknown"],
        ["pkg/m.py:1: class A"])
  /\ collect Samples.unparse_names "pkg/m.py"
       (preorder (NModule Samples.nested_module))
     = (["pkg/m.py:2: f(self) -> Unknown"; "pkg/m.py:3: g() -> Unknown"],
        ["pkg/m.py:1: class A"]).
Proof. split; vm_compute; reflexivity. Qed.

(** *** Sorting the attribute pairs *)











(** *** Class records *)

Section ClassRecords.

Variable unparse : expr -> string.









End ClassRecords.

(** The record of the sample class. *)
Example class_record_example :
  extract_from_file (Samples.parse_as Samples.class_module)
    Samples.unparse_names (Samples.one_file "") Samples.module_py
    Samples.project
  = Ok ([ "pkg/m.py:4: __init__(self) -> Unknown";
          "pkg/m.py:8: q(self) -> int";
          "pkg/m.py:10: p(self) -> Unknown" ],
        [ "pkg/m.py:1: class P(Base)";
          "    • class_attrs: x -> int, y -> Unknown";
          "    • instance_attrs: a -> str, b -> Unknown";
          "    • properties: q -> int, p -> Unknown" ]).
Proof. vm_compute. reflexivity. Qed.



(** *** Function signatures *)

Lemma render_args_map (unparse : expr -> string) (l : list arg) :
  forall acc, render_args unparse l acc = acc ++ map (render_arg unparse) l.
Proof.
  induction l as [|a l IH]; intros acc; cbn [render_args map].
  - now rewrite app_nil_r.
  - rewrite IH, <- app_assoc. cbn [app]. do 2 f_equal.
    unfold render_arg. now destruct (annotation a).
Qed.

(** C10.  The signature of a function lists the regular positional
    parameters, then [*name] for the variadic-positional parameter and
    [**name] for the variadic-keyword parameter, and nothing else: two
    definitions that differ only in their positional-only and keyword-only
    parameters (and defaults) are rendered alike.  The line is emitted for
    function and async-function nodes. *)
Theorem signature_omits_positional_only_and_keyword_only :
  forall unparse rel name a returns lineno,
    function_line unparse rel name a returns lineno
    = (rel ++ ":" ++ Str.of_nat lineno ++ ": " ++ name ++ "("
       ++ Str.join ", "
            (map (render_arg unparse) (args a)
             ++ map (fun v => "*" ++ arg_name v) (some_list (vararg a))
             ++ map (fun k => "**" ++ arg_name k) (some_list (kwarg a)))
       ++ ") -> "
       ++ match returns with Some r => unparse r | None => "Unknown" end)%string
    /\ (forall a',
          args a' = args a -> vararg a' = vararg a -> kwarg a' = kwarg a ->
          function_line unparse rel name a' returns lineno
          = function_line unparse rel name a returns lineno)
    /\ (forall body decs F C,
          visit unparse rel (F, C)
            (NStmt (FunctionDef name a body decs returns lineno))
          = (F ++ [function_line unparse rel name a returns lineno], C)
          /\ visit unparse rel (F, C)
               (NStmt (AsyncFunctionDef name a body decs returns lineno))
             = (F ++ [function_line unparse rel name a returns lineno], C)).
Proof.
  intros unparse rel name a returns lineno. split; [|split].
  - unfold function_line. rewrite render_args_map. cbn [app].
    destruct (vararg a), (kwarg a); cbn [some_list map app];
      rewrite ?app_nil_r, <- ?app_assoc; reflexivity.
  - intros a' E1 E2 E3. unfold function_line. now rewrite E1, E2, E3.
  - intros body decs F C. split; reflexivity.
Qed.

Lemma signature_omits_positional_only_and_keyword_only_witness :
  function_line Samples.unparse_names "m.py" "h" Samples.mixed_arguments
    (Some (Name "str")) 1
  = function_line Samples.unparse_names "m.py" "h"
      Samples.regular_and_variadic (Some (Name "str")) 1.
Proof.
  apply (proj1 (proj2 (signature_omits_positional_only_and_keyword_only
                         Samples.unparse_names "m.py" "h"
                         Samples.regular_and_variadic (Some (Name "str")) 1))
           Samples.mixed_arguments);
    reflexivity.
Defined.

(** *** Errors of a single-file extraction *)

Section Errors.

Context {U : Unicode}.

Lemma js_parse_file_total (fs : filesystem) (file : Path) :
  exists r, JS.parse_file fs file = Ok r.
Proof. unfold JS.parse_file. destruct (bind _ _); eauto. Qed.

Lemma ts_parse_file_total (fs : filesystem) (file : Path) :
  exists r, TS.parse_file fs file = Ok r.
Proof. unfold TS.parse_file. destruct (bind _ _); eauto. Qed.


(** Whatever the read raises reaches the caller of the Python extractor. *)
Lemma read_error_propagates ast_parse unparse (fs : filesystem) file root :
  fs file = Raise OSError ->
  extract_from_file ast_parse unparse fs file root = Raise OSError.
Proof. intros R. unfold extract_from_file. now rewrite R. Qed.

Lemma read_error_recovered_by_scanners (fs : filesystem) file e :
  fs file = Raise e ->
  JS.parse_file fs file = Ok ([], []) /\ TS.parse_file fs file = Ok ([], []).
Proof.
  intros R. unfold JS.parse_file, TS.parse_file. now rewrite R.
Qed.

(** C1 on the code.  A read that fails is recovered by the JavaScript and
    the TypeScript parser, which return two empty sequences, and is not by
    the Python extractor, which handles [SyntaxError] only: the error of the
    read reaches the caller.  So does the [ValueError] of [relative_to] for
    a file that is not under the project root. *)
Theorem python_extractor_raises_on_unreadable_file :
  forall ast_parse unparse file root,
    extract_from_file ast_parse unparse Samples.unreadable file root
    = Raise OSError
    /\ JS.parse_file Samples.unreadable file = Ok ([], [])
    /\ TS.parse_file Samples.unreadable file = Ok ([], [])
    /\ extract_from_file (Samples.parse_as []) unparse (Samples.one_file "")
         (mkPath ["elsewhere"; "m.py"]) Samples.project
       = Raise ValueError.
Proof. intros. repeat split; reflexivity. Qed.

End Errors.

(** *** Files that give no record *)



Section Quiet.

Context {U : Unicode}.


End Quiet.

Section QuietCases.

Local Existing Instance Samples.latin1.


End QuietCases.

End PyFacts.

(** * Further properties *)

(** ** The line scanners, continued *)

Module ScanMore.

Import Str StrFacts Re ReFacts Lines ScanFacts More.

Section Records.

Context {U : Unicode}.

(** *** The scan itself raises nothing *)

(** X1.  Scanning a text never raises, for the JavaScript and for the
    TypeScript scanner: the handler of [parse_file] is reached by a failing
    read only, and a file that can be read gets the result of the scan. *)
Theorem scan_never_raises :
  forall content file,
    (exists r, JS._parse_with_regex content file = Ok r)
    /\ (exists r, TS._parse_with_regex content file = Ok r)
    /\ (forall fs : filesystem,
          fs file = Ok content ->
          JS.parse_file fs file = JS._parse_with_regex content file
          /\ TS.parse_file fs file = TS._parse_with_regex content file).
Proof.
  intros content file.
  destruct (js_scan_lines_total (name file) (enumerate 1 (split "010" content))
              [] []) as (rj & Hj).
  destruct (ts_scan_lines_total (name file) (enumerate 1 (split "010" content))
              [] []) as (rt & Ht).
  split; [now exists rj|]. split; [now exists rt|].
  intros fs R. unfold JS.parse_file, TS.parse_file. rewrite R. cbn [bind].
  unfold JS._parse_with_regex, TS._parse_with_regex. now rewrite Hj, Ht.
Qed.

(** *** Line numbers *)

Lemma js_function_label (rel : string) (i : nat) (line : string) :
  forall pats l,
    JS.scan_functions rel i line pats = Ok (Some l) ->
    exists t, l = label rel (i, t).
Proof.
  induction pats as [|[idx p] pats IH]; intros l; [discriminate|].
  cbn [JS.scan_functions]. destruct (search p line) as [m|]; [|apply IH].
  destruct (Nat.eqb idx 4).
  - destruct (strip_of (group m 1)); cbn [bind]; [|discriminate].
    intros [= <-]. eexists. unfold label. cbn [fst snd]. reflexivity.
  - destruct (strip_of _); cbn [bind]; [|discriminate].
    intros [= <-]. eexists. unfold label. cbn [fst snd]. reflexivity.
Qed.

Lemma js_class_label (rel : string) (i : nat) (line : string) :
  forall pats l,
    JS.scan_classes rel i line pats = Some l -> exists t, l = label rel (i, t).
Proof.
  induction pats as [|p pats IH]; intros l; [discriminate|].
  cbn [JS.scan_classes]. destruct (search p line) as [m|]; [|apply IH].
  intros [= <-]. eexists. unfold label. cbn [fst snd]. reflexivity.
Qed.

Lemma ts_function_label (rel : string) (i : nat) (line : string) :
  forall pats l,
    TS.scan_functions rel i line pats = Ok (Some l) ->
    exists t, l = label rel (i, t).
Proof.
  induction pats as [|p pats IH]; intros l; [discriminate|].
  cbn [TS.scan_functions]. destruct (search p line) as [m|]; [|apply IH].
  unfold TS.function_line.
  destruct (strip_of (group m 2)); cbn [bind]; [|discriminate].
  destruct (if Nat.ltb 2 (ngroups p) && truthy_of (group m 3)
            then strip_of (group m 3) else Ok "any"); cbn [bind];
    [|discriminate].
  intros [= <-]. eexists. unfold label. cbn [fst snd]. reflexivity.
Qed.

Lemma ts_class_label (rel : string) (i : nat) (line : string) :
  forall pats l,
    TS.scan_classes rel i line pats = Some l -> exists t, l = label rel (i, t).
Proof.
  induction pats as [|p pats IH]; intros l; [discriminate|].
  cbn [TS.scan_classes]. destruct (search p line) as [m|]; [|apply IH].
  intros [= <-]. eexists. unfold TS.class_line, label. cbn [fst snd].
  reflexivity.
Qed.

Lemma ascending_nil (lo hi : nat) : ascending_within lo hi [].
Proof. split; constructor. Qed.

(** Line numbers from the next line on. *)
Lemma ascending_weaken (k n : nat) (l : list nat) :
  ascending_within (S k) (S k + n) l -> ascending_within k (k + S n) l.
Proof.
  intros [S F]. split; [exact S|].
  revert F. apply Forall_impl. intros i. lia.
Qed.

(** The number of the current line in front. *)
Lemma ascending_cons (k n : nat) (l : list nat) :
  ascending_within (S k) (S k + n) l -> ascending_within k (k + S n) (k :: l).
Proof.
  intros [S F]. split.
  - constructor; [exact S|]. revert F. apply Forall_impl. intros i. lia.
  - constructor; [lia|]. revert F. apply Forall_impl. intros i. lia.
Qed.

Lemma js_scan_lines_labels (rel : string) : forall lines k F C,
  exists fl cl,
    JS.scan_lines rel (enumerate k lines) F C
    = Ok (F ++ map (label rel) fl, C ++ map (label rel) cl)
    /\ ascending_within k (k + List.length lines) (map fst fl)
    /\ ascending_within k (k + List.length lines) (map fst cl)
    /\ (forall i, In i (map fst fl) -> ~ In i (map fst cl)).
Proof.
  induction lines as [|raw lines IH]; intros k F C.
  - exists [], []. cbn [enumerate JS.scan_lines map List.length].
    rewrite !app_nil_r.
    split; [reflexivity|]. split; [apply ascending_nil|].
    split; [apply ascending_nil|]. intros i [].
  - cbn [enumerate JS.scan_lines List.length].
    assert (Skip : forall F' C',
      exists fl cl,
        JS.scan_lines rel (enumerate (S k) lines) F' C'
        = Ok (F' ++ map (label rel) fl, C' ++ map (label rel) cl)
        /\ ascending_within k (k + S (List.length lines)) (map fst fl)
        /\ ascending_within k (k + S (List.length lines)) (map fst cl)
        /\ (forall i, In i (map fst fl) -> ~ In i (map fst cl))).
    { intros F' C'. destruct (IH (S k) F' C') as (fl & cl & E & A1 & A2 & D).
      exists fl, cl. split; [exact E|].
      split; [now apply ascending_weaken|].
      split; [now apply ascending_weaken | exact D]. }
    destruct (negb (truthy (strip raw))); [apply Skip|].
    destruct (js_scan_functions_total rel k (strip raw) _ js_table_ok)
      as (o & Ho).
    rewrite Ho. cbn [bind]. destruct o as [l|].
    + destruct (js_function_label _ _ _ _ _ Ho) as (t & ->).
      destruct (IH (S k) (F ++ [label rel (k, t)]) C)
        as (fl & cl & E & A1 & A2 & D).
      exists ((k, t) :: fl), cl. rewrite E. cbn [map fst].
      rewrite <- app_assoc. split; [reflexivity|]. split; [|split].
      * now apply ascending_cons.
      * now apply ascending_weaken.
      * intros i [<-|Hi]; [|now apply D].
        intros Hc. destruct A2 as [_ A2]. rewrite Forall_forall in A2.
        specialize (A2 _ Hc). lia.
    + destruct (search JS.default_export_pattern (strip raw)) as [m|].
      * destruct (IH (S k)
                    (F ++ [(rel ++ ":" ++ of_nat k ++ ": export default "
                            ++ fmt (group m 1))%string]) C)
          as (fl & cl & E & A1 & A2 & D).
        exists ((k, ("export default " ++ fmt (group m 1))%string) :: fl), cl.
        rewrite E. cbn [map fst]. unfold label at 1. cbn [fst snd].
        rewrite <- app_assoc. split; [reflexivity|]. split; [|split].
        -- now apply ascending_cons.
        -- now apply ascending_weaken.
        -- intros i [<-|Hi]; [|now apply D].
           intros Hc. destruct A2 as [_ A2]. rewrite Forall_forall in A2.
           specialize (A2 _ Hc). lia.
      * destruct (JS.scan_classes rel k (strip raw) JS.class_patterns)
          as [l|] eqn:Hc; cbn [JS.push]; [|apply Skip].
        destruct (js_class_label _ _ _ _ _ Hc) as (t & ->).
        destruct (IH (S k) F (C ++ [label rel (k, t)]))
          as (fl & cl & E & A1 & A2 & D).
        exists fl, ((k, t) :: cl). rewrite E. cbn [map fst].
        rewrite <- app_assoc. split; [reflexivity|]. split; [|split].
        -- now apply ascending_weaken.
        -- now apply ascending_cons.
        -- intros i Hi [<-|Hc']; [|now apply (D i)].
           destruct A1 as [_ A1]. rewrite Forall_forall in A1.
           specialize (A1 _ Hi). lia.
Qed.

Lemma ts_scan_lines_labels (rel : string) : forall lines k F C,
  exists fl cl,
    TS.scan_lines rel (enumerate k lines) F C
    = Ok (F ++ map (label rel) fl, C ++ map (label rel) cl)
    /\ ascending_within k (k + List.length lines) (map fst fl)
    /\ ascending_within k (k + List.length lines) (map fst cl).
Proof.
  induction lines as [|raw lines IH]; intros k F C.
  - exists [], []. cbn [enumerate TS.scan_lines map List.length].
    rewrite !app_nil_r.
    split; [reflexivity|]. split; apply ascending_nil.
  - cbn [enumerate TS.scan_lines List.length].
    destruct (ts_scan_functions_total rel k (strip raw) TS.function_patterns)
      as (o & Ho); [auto|].
    rewrite Ho. cbn [bind].
    destruct (TS.scan_classes rel k (strip raw) TS.class_patterns)
      as [c|] eqn:Hc.
    + destruct (ts_class_label _ _ _ _ _ Hc) as (tc & ->).
      destruct o as [l|].
      * destruct (ts_function_label _ _ _ _ _ Ho) as (t & ->).
        destruct (IH (S k) (F ++ [label rel (k, t)])
                    (C ++ [label rel (k, tc)])) as (fl & cl & E & A1 & A2).
        exists ((k, t) :: fl), ((k, tc) :: cl). cbn [TS.push]. rewrite E.
        cbn [map fst]. rewrite <- !app_assoc.
        split; [reflexivity|]. split; now apply ascending_cons.
      * destruct (IH (S k) F (C ++ [label rel (k, tc)]))
          as (fl & cl & E & A1 & A2).
        exists fl, ((k, tc) :: cl). cbn [TS.push]. rewrite E.
        cbn [map fst]. rewrite <- !app_assoc.
        split; [reflexivity|].
        split; [now apply ascending_weaken | now apply ascending_cons].
    + destruct o as [l|].
      * destruct (ts_function_label _ _ _ _ _ Ho) as (t & ->).
        destruct (IH (S k) (F ++ [label rel (k, t)]) C)
          as (fl & cl & E & A1 & A2).
        exists ((k, t) :: fl), cl. cbn [TS.push]. rewrite E.
        cbn [map fst]. rewrite <- !app_assoc.
        split; [reflexivity|].
        split; [now apply ascending_cons | now apply ascending_weaken].
      * destruct (IH (S k) F C) as (fl & cl & E & A1 & A2).
        exists fl, cl. cbn [TS.push]. rewrite E.
        split; [reflexivity|]. split; now apply ascending_weaken.
Qed.

Lemma ascending_nodup (l : list nat) : StronglySorted lt l -> NoDup l.
Proof.
  induction 1 as [|a l S IH F]; constructor; [|exact IH].
  intros Hin. rewrite Forall_forall in F. specialize (F _ Hin). lia.
Qed.

Lemma disjoint_nodup (a b : list nat) :
  NoDup a -> NoDup b -> (forall i, In i a -> ~ In i b) -> NoDup (a ++ b).
Proof.
  induction 1 as [|x a Hx Ha IH]; intros Hb D; [exact Hb|].
  cbn [app]. constructor.
  - intros Hin. apply in_app_or in Hin as [Hin|Hin]; [contradiction|].
    apply (D x); [now left | exact Hin].
  - apply IH; [exact Hb|]. intros i Hi. apply D. now right.
Qed.

(** X2.  Every record of the two scanners is [file_name:line: text] where
    [line] is the 1-based number of a line of the file; within each of the
    two sequences the line numbers are strictly ascending; in JavaScript no
    line number occurs twice over the two sequences: a line gives at most
    one record. *)
Theorem records_carry_ascending_line_numbers :
  forall content file,
    (exists fl cl,
        JS._parse_with_regex content file
        = Ok (map (label (name file)) fl, map (label (name file)) cl)
        /\ ascending_within 1 (1 + List.length (split "010" content))
             (map fst fl)
        /\ ascending_within 1 (1 + List.length (split "010" content))
             (map fst cl)
        /\ NoDup (map fst fl ++ map fst cl))
    /\ (exists fl cl,
          TS._parse_with_regex content file
          = Ok (map (label (name file)) fl, map (label (name file)) cl)
          /\ ascending_within 1 (1 + List.length (split "010" content))
               (map fst fl)
          /\ ascending_within 1 (1 + List.length (split "010" content))
               (map fst cl)).
Proof.
  intros content file. split.
  - destruct (js_scan_lines_labels (name file) (split "010" content) 1 [] [])
      as (fl & cl & E & A1 & A2 & D).
    exists fl, cl. split; [exact E|]. split; [exact A1|]. split; [exact A2|].
    apply disjoint_nodup; [apply ascending_nodup, A1
                          | apply ascending_nodup, A2 | exact D].
  - destruct (ts_scan_lines_labels (name file) (split "010" content) 1 [] [])
      as (fl & cl & E & A1 & A2).
    exists fl, cl. split; [exact E|]. now split.
Qed.

(** *** The shape of the records *)

Lemma ts_class_table_ok : forallb ts_class_pattern_ok TS.class_patterns = true.
Proof. reflexivity. Qed.

Lemma js_function_groups_table_ok :
  forallb js_function_groups_ok (enumerate 0 JS.function_patterns) = true.
Proof. reflexivity. Qed.

Lemma nonempty_truthy (v : string) : v <> "" -> truthy v = true.
Proof. now destruct v. Qed.

Lemma ts_class_line_shape (rel : string) (i : nat) (line : string)
    (p : regex) (m : groups) :
  ts_class_pattern_ok p = true -> search p line = Some m ->
  exists name,
    group m 1 = Some name /\ name <> ""
    /\ group m 2 <> Some "" /\ group m 3 <> Some ""
    /\ TS.class_line rel i p m
       = label rel (i, ("class " ++ name ++ clause " extends " (group m 2)
                        ++ clause " implements " (group m 3))%string).
Proof.
  unfold ts_class_pattern_ok. intros K H.
  apply andb_true_iff in K as [K K6]. apply andb_true_iff in K as [K K5].
  apply andb_true_iff in K as [K K4]. apply andb_true_iff in K as [K K3].
  apply andb_true_iff in K as [K1 K2].
  destruct (search_sets _ _ _ _ K1 H) as (name & E1).
  pose proof (search_group_nonnull _ _ _ _ name K2 H E1) as N1.
  assert (N2 : group m 2 <> Some "").
  { intros E. now apply (search_group_nonnull _ _ _ _ "" K3 H E). }
  assert (N3 : group m 3 <> Some "").
  { intros E. now apply (search_group_nonnull _ _ _ _ "" K4 H E). }
  exists name. split; [exact E1|]. split; [exact N1|].
  split; [exact N2|]. split; [exact N3|].
  unfold TS.class_line, label. cbn [fst snd]. rewrite E1, K5. cbn [fmt andb].
  assert (G3 : Nat.ltb 2 (ngroups p) = false -> group m 3 = None).
  { intros L. rewrite L in K6. cbn [orb] in K6. apply negb_true_iff in K6.
    now apply (search_unmentioned _ _ _ _ K6 H). }
  destruct (group m 2) as [e|] eqn:E2; destruct (group m 3) as [u|] eqn:E3;
    cbn [truthy_of fmt clause];
    try (assert (Te : truthy e = true)
          by (apply nonempty_truthy; intros ->; now apply N2));
    try (assert (Tu : truthy u = true)
          by (apply nonempty_truthy; intros ->; now apply N3));
    try (destruct (Nat.ltb 2 (ngroups p)) eqn:L;
         [|now discriminate (G3 eq_refl)]);
    rewrite ?andb_false_r;
    do 3 (rewrite ?Te, ?Tu; cbn [andb truthy]);
    rewrite ?append_assoc, ?append_nil_r; reflexivity.
Qed.

Lemma forallb_middle {A : Type} (f : A -> bool) (l pre post : list A) (x : A) :
  forallb f l = true -> l = pre ++ x :: post -> f x = true.
Proof.
  intros T ->. rewrite forallb_app in T. apply andb_true_iff in T as [_ T].
  cbn [forallb] in T. now apply andb_true_iff in T as [T _].
Qed.

(** X3.  The class record of a TypeScript line comes from the first class
    pattern that matches it: [class Name] with the text of group 1, then
    [ extends X] when group 2 captured X, then [ implements Y] when
    group 3 captured Y; no captured text is empty.  An interface and a type
    alias are recorded as classes by the second and the third pattern,
    which have no group 3; the alias pattern always captures group 2, so
    that the aliased type is what a type alias "extends".  A line that
    matches no class pattern gives no class record. *)
Theorem ts_class_record_shape :
  forall rel i line,
    (no_match line TS.class_patterns ->
     TS.scan_classes rel i line TS.class_patterns = None)
    /\ (forall cpre pc cpost m,
          TS.class_patterns = cpre ++ pc :: cpost ->
          no_match line cpre -> search pc line = Some m ->
          exists name,
            group m 1 = Some name /\ name <> ""
            /\ group m 2 <> Some "" /\ group m 3 <> Some ""
            /\ TS.scan_classes rel i line TS.class_patterns
               = Some (label rel
                         (i, ("class " ++ name
                              ++ clause " extends " (group m 2)
                              ++ clause " implements " (group m 3))%string))
            /\ (cpre <> [] -> group m 3 = None)
            /\ (List.length cpre = 2 -> exists aliased, group m 2 = Some aliased))
    /\ map (fun p => mentions p 3) TS.class_patterns = [true; false; false]
    /\ map (fun p => always_sets p 2) TS.class_patterns = [false; false; true].
Proof.
  intros rel i line. split; [apply ts_scan_classes_none|].
  split; [|split; reflexivity].
  intros cpre pc cpost m E N H.
  pose proof (forallb_middle _ _ _ _ _ ts_class_table_ok E) as K.
  destruct (ts_class_line_shape rel i line pc m K H)
    as (name & G1 & N1 & N2 & N3 & L).
  exists name. split; [exact G1|]. split; [exact N1|].
  split; [exact N2|]. split; [exact N3|].
  split; [rewrite (ts_scan_classes_first rel i _ _ _ _ _ E N H); now rewrite L|].
  assert (D : cpre = [] \/ (cpre <> [] /\ mentions pc 3 = false
                            /\ (List.length cpre = 2 -> always_sets pc 2 = true))).
  { unfold TS.class_patterns in E.
    destruct cpre as [|a [|b [|c cpre]]]; [now left|right..].
    - injection E as _ <- _. split; [discriminate|]. split; [reflexivity|].
      discriminate.
    - injection E as _ _ <- _. split; [discriminate|]. split; reflexivity.
    - exfalso. injection E as _ _ _ E. destruct cpre; discriminate. }
  destruct D as [->|(Ne & M & A)].
  - split; [contradiction | discriminate].
  - split; [intros _; now apply (search_unmentioned _ _ _ _ M H)|].
    intros Len. apply (search_sets _ _ _ _ (A Len) H).
Qed.

Lemma enumerate_length {A : Type} (l : list A) : forall k,
  List.length (enumerate k l) = List.length l.
Proof. induction l as [|x l IH]; intros k; cbn; [reflexivity | now rewrite IH]. Qed.

(** X4.  The function record of a JavaScript line comes from the first
    function pattern that matches it and reads [name(parameters)].  For the
    pattern at index 4, the anonymous arrow function, the name is
    [<anonymous>] and the parameters are the text of group 1; for the other
    patterns the name is the text of group 1, never empty, or [<anonymous>]
    when group 1 captured nothing, and the parameters are the text of
    group 2.  The parameters are trimmed and then cleaned.  A line that
    matches no function pattern gives no function record. *)
Theorem js_function_record_shape :
  forall rel i line,
    (no_match line JS.function_patterns ->
     JS.scan_functions rel i line (enumerate 0 JS.function_patterns) = Ok None)
    /\ (forall fpre pf fpost m,
          JS.function_patterns = fpre ++ pf :: fpost ->
          no_match line fpre -> search pf line = Some m ->
          exists name raw,
            JS.scan_functions rel i line (enumerate 0 JS.function_patterns)
            = Ok (Some (label rel
                          (i, (name ++ "(" ++ JS._clean_js_params (strip raw)
                               ++ ")")%string)))
            /\ (if Nat.eqb (List.length fpre) 4
                then name = "<anonymous>" /\ group m 1 = Some raw
                else group m 2 = Some raw
                     /\ match group m 1 with
                        | Some n => n <> "" /\ name = n
                        | None => name = "<anonymous>"
                        end)).
Proof.
  intros rel i line.
  split; [intros N; apply js_scan_functions_none; now apply no_match_enumerate|].
  intros fpre pf fpost m E N H.
  pose proof js_function_groups_table_ok as T. rewrite E in T |- *.
  rewrite enumerate_app in T |- *. cbn [enumerate] in T |- *.
  rewrite js_scan_functions_skip by now apply no_match_enumerate.
  rewrite forallb_app in T. apply andb_true_iff in T as [_ T].
  cbn [forallb] in T. apply andb_true_iff in T as [K _].
  cbn [Nat.add] in K |- *.
  unfold js_function_groups_ok, js_function_pattern_ok in K.
  cbn [fst snd] in K. apply andb_true_iff in K as [K G].
  cbn [JS.scan_functions]. rewrite H.
  destruct (Nat.eqb (List.length fpre) 4) eqn:D.
  - destruct (search_sets _ _ _ _ K H) as (v & E1). rewrite E1.
    cbn [strip_of bind fst snd]. exists "<anonymous>", v.
    split; [reflexivity | now split].
  - apply andb_true_iff in K as [K1 K2]. rewrite K1. cbn [orb] in G.
    destruct (search_sets _ _ _ _ K2 H) as (v & E2). rewrite E2.
    cbn [strip_of bind fst snd].
    destruct (group m 1) as [n|] eqn:E1; cbn [truthy_of fmt].
    + pose proof (search_group_nonnull _ _ _ _ n G H E1) as Nn.
      rewrite (nonempty_truthy _ Nn). exists n, v.
      split; [reflexivity|]. split; [reflexivity | now split].
    + exists "<anonymous>", v. split; [reflexivity | now split].
Qed.

Lemma js_class_table_ok :
  forallb (fun p => group_nonnull p 1) JS.class_patterns = true.
Proof. reflexivity. Qed.

(** X7.  The class record of a JavaScript line on which the class patterns
    are consulted comes from the first class pattern that matches it and
    reads [class Name] with the text of group 1, never empty, or
    [class <anonymous>] when group 1 captured nothing.  A line that matches
    no class pattern gives no class record. *)
Theorem js_class_record_shape :
  forall rel i line,
    (no_match line JS.class_patterns ->
     JS.scan_classes rel i line JS.class_patterns = None)
    /\ (forall cpre pc cpost m,
          JS.class_patterns = cpre ++ pc :: cpost ->
          no_match line cpre -> search pc line = Some m ->
          JS.scan_classes rel i line JS.class_patterns
          = Some (label rel
                    (i, ("class " ++ match group m 1 with
                                     | Some n => n
                                     | None => "<anonymous>"
                                     end)%string))
          /\ group m 1 <> Some "").
Proof.
  intros rel i line. split; [apply js_scan_classes_none|].
  intros cpre pc cpost m E N H.
  pose proof (forallb_middle _ _ _ _ _ js_class_table_ok E) as K.
  assert (G : group m 1 <> Some "").
  { intros G. now apply (search_group_nonnull _ _ _ _ "" K H G). }
  split; [|exact G].
  rewrite E, js_scan_classes_skip by exact N.
  cbn [JS.scan_classes]. rewrite H. unfold label. cbn [fst snd].
  destruct (group m 1) as [n|]; cbn [truthy_of fmt]; [|reflexivity].
  rewrite nonempty_truthy; [reflexivity|]. intros ->. now apply G.
Qed.

(** *** The two cleaners *)

Lemma contains_join (c : char) (sep : string) (l : list string) :
  contains c sep = false ->
  Forall (fun x => contains c x = false) l ->
  contains c (join sep l) = false.
Proof.
  intros S. unfold join. induction 1 as [|x l X F IH]; [reflexivity|].
  destruct l as [|y l]; [exact X|].
  change (concat sep (x :: y :: l))
    with (x ++ sep ++ concat sep (y :: l))%string.
  now rewrite !contains_append, X, S, IH.
Qed.

(** X5.  Cleaned parameters hold no [=]: both cleaners cut every
    parameter at its first [=], whatever follows it. *)
Theorem cleaned_parameters_hold_no_default :
  forall s,
    contains "=" (JS._clean_js_params s) = false
    /\ contains "=" (TS._clean_typescript_params s) = false.
Proof.
  intros s. rewrite ParamFacts.js_clean_join, ParamFacts.ts_clean_join.
  split; (apply contains_join; [reflexivity|]);
    unfold JS.cleaned_of, TS.cleaned_params_of;
    apply Forall_forall; intros x Hin; apply in_map_iff in Hin as (p & <- & _).
  - apply ParamFacts.js_clean_param_no_default.
  - apply ParamFacts.ts_clean_param_no_default.
Qed.

Lemma segs_avoid (c : char) (s : string) :
  contains c s = false ->
  forall d, Forall (fun x => contains c x = false) (Params.segs s d).
Proof.
  induction s as [|a s IH]; intros C d; [now repeat constructor|].
  cbn [contains] in C. apply orb_false_iff in C as [Ca C].
  assert (K : forall d',
             Forall (fun x => contains c x = false)
               match Params.segs s d' with
               | p :: ps => String a p :: ps
               | [] => [String a ""]
               end).
  { intros d'. specialize (IH C d').
    destruct (Params.segs s d') as [|p ps].
    - constructor; [|constructor]. cbn [contains]. now rewrite Ca.
    - inversion IH as [|? ? Hp Hps]; subst. constructor; [|exact Hps].
      cbn [contains]. now rewrite Ca, Hp. }
  cbn [Params.segs].
  destruct (Char.eqb a "("); [apply K|].
  destruct (Char.eqb a ")"); [apply K|].
  destruct (Char.eqb a "," && (d =? 0)%Z); [|apply K].
  constructor; [reflexivity | now apply IH].
Qed.

Lemma param_list_avoid (c : char) (s : string) :
  isspace c = false -> contains c s = false ->
  Forall (fun x => contains c x = false) (JS.param_list_of s).
Proof.
  intros S C. rewrite ParamFacts.param_list_of_pieces.
  assert (P : Forall (fun x => contains c x = false) (Params.pieces s)).
  { rewrite ParamFacts.pieces_segs. apply Forall_forall. intros x Hin.
    apply in_map_iff in Hin as (y & <- & Hin).
    rewrite (contains_strip _ _ S).
    pose proof (segs_avoid c s C 0%Z) as A. rewrite Forall_forall in A.
    now apply A. }
  unfold Params.drop_blank_last.
  destruct (truthy (last (Params.pieces s) "")); [exact P|].
  apply Forall_forall. intros x Hin. rewrite Forall_forall in P.
  apply P. now apply ParamFacts.in_removelast.
Qed.

(** X6.  On a parameter text without a colon the TypeScript cleaner and
    the JavaScript cleaner return the same text: they differ only in how
    they render [name: Type]. *)
Theorem cleaners_agree_without_colon :
  forall s,
    contains ":" s = false ->
    TS._clean_typescript_params s = JS._clean_js_params s.
Proof.
  intros s C. rewrite ParamFacts.js_clean_join, ParamFacts.ts_clean_join.
  f_equal. unfold JS.cleaned_of, TS.cleaned_params_of.
  rewrite ParamFacts.ts_param_list_of. apply map_ext_in. intros p Hin.
  pose proof (param_list_avoid ":" s eq_refl C) as A.
  rewrite Forall_forall in A. specialize (A p Hin).
  unfold TS.clean_param, JS.clean_param.
  destruct (contains "=" p).
  - rewrite (contains_strip ":" _ eq_refl), (ParamFacts.contains_before _ _ _ A).
    reflexivity.
  - now rewrite A.
Qed.

End Records.

(** *** Examples *)

Section RecordCases.

Local Existing Instance Samples.latin1.

Lemma scan_never_raises_witness :
  JS.parse_file (Samples.one_file Samples.six_lines) Samples.sample_js
  = JS._parse_with_regex Samples.six_lines Samples.sample_js
  /\ TS.parse_file (Samples.one_file Samples.six_lines) Samples.sample_js
     = TS._parse_with_regex Samples.six_lines Samples.sample_js.
Proof.
  apply (proj2 (proj2 (scan_never_raises Samples.six_lines Samples.sample_js))
           (Samples.one_file Samples.six_lines)).
  reflexivity.
Defined.

Lemma ts_class_record_shape_witness :
  TS.scan_classes "m.ts" 3 "type Id = string | number;" TS.class_patterns
  = Some "m.ts:3: class Id extends string | number"
  /\ TS.scan_classes "m.ts" 4 "interface Shape extends Base {" TS.class_patterns
     = Some "m.ts:4: class Shape extends Base ".
Proof.
  split.
  - destruct (proj1 (proj2 (ts_class_record_shape "m.ts" 3
                              "type Id = string | number;"))
                (firstn 2 TS.class_patterns) (nth 2 TS.class_patterns Eps) []
                [(2, "string | number"); (1, "Id")])
      as (name & G1 & _ & _ & _ & E & _).
    + reflexivity.
    + apply no_match_check. vm_compute. reflexivity.
    + vm_compute. reflexivity.
    + rewrite E. injection G1 as <-. reflexivity.
  - destruct (proj1 (proj2 (ts_class_record_shape "m.ts" 4
                              "interface Shape extends Base {"))
                (firstn 1 TS.class_patterns) (nth 1 TS.class_patterns Eps)
                (skipn 2 TS.class_patterns)
                [(2, "Base "); (1, "Shape")])
      as (name & G1 & _ & _ & _ & E & _).
    + reflexivity.
    + apply no_match_check. vm_compute. reflexivity.
    + vm_compute. reflexivity.
    + rewrite E. injection G1 as <-. reflexivity.
Defined.

Lemma js_function_record_shape_witness :
  JS.scan_functions "a.js" 2 "export default (x, y = 1) => x"
    (enumerate 0 JS.function_patterns)
  = Ok (Some "a.js:2: <anonymous>(x, y)")
  /\ JS.scan_functions "a.js" 3 "export default function (z) {}"
       (enumerate 0 JS.function_patterns)
     = Ok (Some "a.js:3: <anonymous>(z)").
Proof.
  split.
  - destruct (proj2 (js_function_record_shape "a.js" 2
                       "export default (x, y = 1) => x")
                (firstn 4 JS.function_patterns) (nth 4 JS.function_patterns Eps)
                (skipn 5 JS.function_patterns) [(1, "x, y = 1")])
      as (name & raw & E & N & G).
    + reflexivity.
    + apply no_match_check. vm_compute. reflexivity.
    + vm_compute. reflexivity.
    + rewrite E, N. injection G as <-. reflexivity.
  - destruct (proj2 (js_function_record_shape "a.js" 3
                       "export default function (z) {}")
                [] (nth 0 JS.function_patterns Eps)
                (skipn 1 JS.function_patterns) [(2, "z")])
      as (name & raw & E & G & N).
    + reflexivity.
    + constructor.
    + vm_compute. reflexivity.
    + rewrite E. cbn in N. rewrite N. injection G as <-. reflexivity.
Defined.

Lemma cleaners_agree_without_colon_witness :
  TS._clean_typescript_params "a, b = f(1, 2), ...rest"
  = JS._clean_js_params "a, b = f(1, 2), ...rest".
Proof.
  apply (cleaners_agree_without_colon "a, b = f(1, 2), ...rest").
  reflexivity.
Defined.

Lemma js_class_record_shape_witness :
  JS.scan_classes "a.js" 7 "export default class {" JS.class_patterns
  = Some "a.js:7: class <anonymous>"
  /\ JS.scan_classes "a.js" 8 "class Bar extends Baz {}" JS.class_patterns
     = Some "a.js:8: class Bar".
Proof.
  split.
  - destruct (proj2 (js_class_record_shape "a.js" 7 "export default class {")
                [] (nth 0 JS.class_patterns Eps) (skipn 1 JS.class_patterns)
                []) as [E _].
    + reflexivity.
    + constructor.
    + vm_compute. reflexivity.
    + rewrite E. reflexivity.
  - destruct (proj2 (js_class_record_shape "a.js" 8 "class Bar extends Baz {}")
                (firstn 2 JS.class_patterns) (nth 2 JS.class_patterns Eps) []
                [(1, "Bar")]) as [E _].
    + reflexivity.
    + apply no_match_check. vm_compute. reflexivity.
    + vm_compute. reflexivity.
    + rewrite E. reflexivity.
Defined.

End RecordCases.

End ScanMore.

(** ** Text operations and paths *)

Module TextFacts.

Import Str StrFacts Text More.

Lemma endswith_cons (c : char) (s p : string) :
  endswith (String c s) p = String.eqb (String c s) p || endswith s p.
Proof. reflexivity. Qed.

Lemma rstrip_char_cons (ch c : char) (s : string) :
  rstrip_char ch (String c s)
  = match rstrip_char ch s with
    | EmptyString => if Char.eqb c ch then EmptyString else String c EmptyString
    | r => String c r
    end.
Proof. reflexivity. Qed.

(** What [rstrip] of a character returns does not end with it. *)
Lemma rstrip_char_no_trailing (ch : char) (s : string) :
  endswith (rstrip_char ch s) (String ch "") = false.
Proof.
  induction s as [|c s IH]; [reflexivity|].
  rewrite rstrip_char_cons. destruct (rstrip_char ch s) as [|d r] eqn:E.
  - destruct (Char.eqb c ch) eqn:Ec; [reflexivity|].
    rewrite endswith_cons. cbn. rewrite Ec. reflexivity.
  - rewrite endswith_cons, IH. cbn. destruct (Char.eqb c ch); reflexivity.
Qed.

(** A text that does not end with the character is left as it is. *)
Lemma rstrip_char_keeps (ch : char) (s : string) :
  endswith s (String ch "") = false -> rstrip_char ch s = s.
Proof.
  induction s as [|c s IH]; [reflexivity|].
  rewrite endswith_cons. intros H. apply orb_false_iff in H as [H1 H2].
  rewrite rstrip_char_cons, (IH H2). destruct s as [|d r]; [|reflexivity].
  cbn in H1. destruct (Char.eqb c ch); [discriminate|reflexivity].
Qed.

(** It keeps the first character, unless nothing is left. *)
Lemma rstrip_char_head (ch : char) (s : string) :
  rstrip_char ch s = ""
  \/ exists c r r', s = String c r /\ rstrip_char ch s = String c r'.
Proof.
  destruct s as [|c s]; [now left|].
  rewrite rstrip_char_cons. destruct (rstrip_char ch s) as [|d r] eqn:E.
  - destruct (Char.eqb c ch); [now left|]. right. now exists c, s, "".
  - right. now exists c, s, (String d r).
Qed.

Lemma rstrip_char_startswith (ch : char) (s p : string) :
  Str.truthy p = true ->
  startswith s p = false -> startswith (rstrip_char ch s) p = false.
Proof.
  intros T H. destruct p as [|a p]; [discriminate|].
  unfold startswith in *.
  induction s as [|c s IH] in a, p, H |- *; [reflexivity|].
  rewrite rstrip_char_cons.
  destruct (rstrip_char ch s) as [|d r] eqn:E.
  - destruct (Char.eqb c ch); [reflexivity|].
    cbn in *. destruct (Char.eq_dec a c) as [->|N]; [|reflexivity].
    destruct p as [|b p]; [destruct s; discriminate H|reflexivity].
  - cbn in *. destruct (Char.eq_dec a c) as [->|N]; [|reflexivity].
    destruct p as [|b p]; [destruct s; discriminate H|].
    apply IH. exact H.
Qed.

Lemma splitlines_cons (c : char) (s : string) :
  is_break c = false ->
  splitlines (String c s)
  = match splitlines s with
    | p :: ps => String c p :: ps
    | [] => [String c EmptyString]
    end.
Proof. intros H. cbn [splitlines]. now rewrite H. Qed.

Lemma splitlines_line (p s : string) :
  unbroken p ->
  splitlines (p ++ String "010" s) = p :: splitlines s.
Proof.
  unfold unbroken. induction p as [|c p IH]; intros U; [reflexivity|].
  cbn in U. apply andb_true_iff in U as [U1 U2].
  apply negb_true_iff in U1.
  change (String c p ++ String "010" s)%string
    with (String c (p ++ String "010" s)).
  rewrite (splitlines_cons _ _ U1), (IH U2). reflexivity.
Qed.

Lemma splitlines_single (p : string) :
  unbroken p -> Str.truthy p = true -> splitlines p = [p].
Proof.
  unfold unbroken. induction p as [|c p IH]; intros U T; [discriminate|].
  cbn in U. apply andb_true_iff in U as [U1 U2].
  apply negb_true_iff in U1.
  rewrite (splitlines_cons _ _ U1).
  destruct p as [|d p]; [reflexivity|].
  rewrite (IH U2 eq_refl). reflexivity.
Qed.

(** Joining lines by LF and splitting again is the identity on non-empty
    lines that hold no boundary. *)
Lemma splitlines_join (ls : list string) :
  Forall (fun p => unbroken p /\ Str.truthy p = true) ls ->
  splitlines (Str.join (String "010" "") ls) = ls.
Proof.
  unfold Str.join. induction 1 as [|p ls [U T] F IH]; [reflexivity|].
  destruct ls as [|q ls].
  - cbn [concat]. now apply splitlines_single.
  - change (concat (String "010" "") (p :: q :: ls))
      with (p ++ String "010" (concat (String "010" "") (q :: ls)))%string.
    now rewrite (splitlines_line _ _ U), IH.
Qed.

(** *** Sorting *)

Section Sorting.

Context {A : Type}.
Variable lt : A -> A -> bool.

Lemma insert_by_perm (x : A) (l : list A) :
  Permutation (insert_by lt x l) (x :: l).
Proof.
  induction l as [|y l IH]; [reflexivity|]. cbn [insert_by].
  destruct (lt y x); [|reflexivity].
  rewrite IH. apply perm_swap.
Qed.

Lemma sort_by_perm (l : list A) : Permutation (sort_by lt l) l.
Proof.
  induction l as [|x l IH]; [reflexivity|]. cbn [sort_by fold_right].
  fold (sort_by lt l). rewrite insert_by_perm. now constructor.
Qed.

Hypothesis lt_asym : forall a b, lt a b = true -> lt b a = false.

Lemma insert_by_sorted (x : A) (l : list A) :
  Sorted (fun a b => lt b a = false) l ->
  Sorted (fun a b => lt b a = false) (insert_by lt x l).
Proof.
  induction 1 as [|y l S IH H]; [repeat constructor|].
  cbn [insert_by]. destruct (lt y x) eqn:E.
  - constructor; [exact IH|].
    destruct l as [|z l]; cbn [insert_by].
    + constructor. now apply lt_asym.
    + destruct (lt z x); constructor;
        [now inversion H | now apply lt_asym].
  - constructor; [now constructor|]. now constructor.
Qed.

Lemma sort_by_sorted (l : list A) :
  Sorted (fun a b => lt b a = false) (sort_by lt l).
Proof.
  induction l as [|x l IH]; [constructor|].
  cbn [sort_by fold_right]. now apply insert_by_sorted.
Qed.

End Sorting.

Lemma ltb_asym (a b : string) : String.ltb a b = true -> String.ltb b a = false.
Proof.
  unfold String.ltb. rewrite (StringFacts.compare_antisym a b).
  now destruct (String.compare b a).
Qed.

Lemma parts_lt_asym (a b : list string) :
  parts_lt a b = true -> parts_lt b a = false.
Proof.
  revert b. induction a as [|x a IH]; intros [|y b]; cbn; try congruence.
  rewrite (StringFacts.eqb_sym y x). destruct (String.eqb x y); [apply IH|].
  apply ltb_asym.
Qed.

Lemma list_sum_perm (l l' : list nat) :
  Permutation l l' -> list_sum l = list_sum l'.
Proof. unfold list_sum. induction 1; cbn in *; lia. Qed.






Lemma sorted_set_in (l : list string) (x : string) :
  In x (sorted_set l) <-> In x l.
Proof.
  unfold sorted_set. rewrite <- (nodup_In string_dec l x).
  split; apply Permutation_in;
    [apply sort_by_perm | apply Permutation_sym, sort_by_perm].
Qed.


End TextFacts.

(** ** Ignore rules, tree view, file discovery, dependencies and report *)

Module ReportFacts.

Import Str StrFacts Text TextFacts Fs Report More.

Lemma strip_prefix_app (r x : list string) :
  Py.strip_prefix r (r ++ x) = Some x.
Proof.
  induction r as [|a r IH]; [reflexivity|].
  cbn. now rewrite StringFacts.eqb_refl.
Qed.

Lemma strip_prefix_some (r f rel : list string) :
  Py.strip_prefix r f = Some rel <-> f = r ++ rel.
Proof.
  split; [|intros ->; apply strip_prefix_app].
  revert f. induction r as [|a r IH]; intros f H; [cbn in *; congruence|].
  destruct f as [|b f]; [discriminate|]. cbn in H.
  destruct (StringFacts.eqb_spec a b) as [->|N]; [|discriminate].
  cbn. f_equal. now apply IH.
Qed.

Lemma below_iff (root p : Path) :
  below root p <-> exists rel, Py.strip_prefix (parts root) (parts p) = Some rel.
Proof.
  unfold below. split; intros [rel H]; exists rel; now apply strip_prefix_some.
Qed.

Lemma below_refl (p : Path) : below p p.
Proof. exists []. now rewrite app_nil_r. Qed.

Lemma below_child (root p : Path) (n : string) :
  below root p -> below root (child p n).
Proof.
  intros [rel H]. exists (rel ++ [n]). cbn. now rewrite H, app_assoc.
Qed.

Lemma name_child (p : Path) (n : string) : name (child p n) = n.
Proof. unfold name, child. cbn. apply last_last. Qed.

Lemma find_one (l : list entry) (n : string) : find l [n] = by_name n l.
Proof. cbn. now destruct (by_name n l). Qed.

Lemma exists_child (w : world) (n : string) :
  exists_ w (child (root w) n)
  = match by_name n (top w) with Some _ => true | None => false end.
Proof.
  unfold exists_, child. cbn [parts]. rewrite strip_prefix_app.
  now rewrite find_one.
Qed.

Lemma read_text_child (w : world) (n : string) :
  read_text w (child (root w) n)
  = match by_name n (top w) with
    | Some (File _ text) => text
    | _ => Raise OSError
    end.
Proof.
  unfold read_text, child. cbn [parts]. rewrite strip_prefix_app.
  now rewrite find_one.
Qed.

Lemma read_ok_exists (w : world) (p : Path) (text : string) :
  read_text w p = Ok text -> exists_ w p = true.
Proof.
  unfold read_text, exists_.
  destruct (Py.strip_prefix (parts (root w)) (parts p)) as [rel|];
    [|discriminate].
  destruct (find (top w) rel) as [e|] eqn:F; [|discriminate].
  intros _. now destruct rel.
Qed.

(** *** load_gitignore *)

Lemma gitignore_loop_acc (lines acc : list string) :
  gitignore_loop lines acc = acc ++ gitignore_loop lines [].
Proof.
  revert acc. induction lines as [|raw rest IH]; intros acc;
    [cbn; now rewrite app_nil_r|].
  cbn [gitignore_loop].
  destruct (negb (truthy (strip raw)) || startswith (strip raw) "#"
            || startswith (strip raw) "!"); [apply IH|].
  rewrite (IH (acc ++ _)), (IH ([] ++ _)). now rewrite <- app_assoc.
Qed.

Lemma gitignore_loop_shape (lines : list string) :
  Forall (fun p => endswith p "/" = false
                   /\ startswith p "#" = false /\ startswith p "!" = false)
    (gitignore_loop lines []).
Proof.
  induction lines as [|raw rest IH]; [constructor|].
  cbn [gitignore_loop].
  destruct (negb (truthy (strip raw))) eqn:T; [exact IH|].
  destruct (startswith (strip raw) "#") eqn:H1; [exact IH|].
  destruct (startswith (strip raw) "!") eqn:H2; [exact IH|].
  cbn [orb]. rewrite gitignore_loop_acc. cbn [app]. constructor; [|exact IH].
  split; [apply rstrip_char_no_trailing|].
  split; now apply rstrip_char_startswith.
Qed.

Lemma gitignore_loop_plain (ps : list string) :
  forallb plain_pattern ps = true -> gitignore_loop ps [] = ps.
Proof.
  induction ps as [|p ps IH]; [reflexivity|].
  cbn [forallb]. intros H. apply andb_true_iff in H as [P H].
  unfold plain_pattern in P.
  repeat (apply andb_true_iff in P as [P ?]).
  cbn [gitignore_loop].
  match goal with E : String.eqb (strip p) p = true |- _ =>
    apply StringFacts.eqb_eq in E; rewrite E end.
  rewrite P.
  repeat match goal with E : negb _ = true |- _ =>
    apply negb_true_iff in E; rewrite ?E end.
  cbn [negb orb]. rewrite gitignore_loop_acc. cbn [app].
  rewrite rstrip_char_keeps by assumption. now rewrite IH.
Qed.

Lemma plain_lines (ps : list string) :
  forallb plain_pattern ps = true ->
  Forall (fun p => unbroken p /\ truthy p = true) ps.
Proof.
  intros H. apply Forall_forall. intros p Hin.
  rewrite forallb_forall in H. specialize (H p Hin).
  unfold plain_pattern in H.
  repeat (apply andb_true_iff in H as [H ?]).
  split; assumption.
Qed.

(** X8.  Whatever [load_gitignore] returns, no pattern ends with a slash
    and none starts with [#] or [!]; without a .gitignore under the root
    there is no pattern at all. *)
Theorem gitignore_patterns_shape :
  forall w root pats,
    load_gitignore w root = Ok pats ->
    Forall (fun p => endswith p "/" = false
                     /\ startswith p "#" = false /\ startswith p "!" = false)
      pats
    /\ (exists_ w (child root ".gitignore") = false -> pats = []).
Proof.
  intros w root pats. unfold load_gitignore.
  destruct (exists_ w (child root ".gitignore")) eqn:E; cbn [negb].
  - destruct (read_text w (child root ".gitignore")) as [text|e];
      [|discriminate].
    cbn [bind]. intros [= <-]. split; [apply gitignore_loop_shape|discriminate].
  - intros [= <-]. split; [constructor|reflexivity].
Qed.

Lemma gitignore_patterns_shape_witness :
  Forall (fun p => endswith p "/" = false
                   /\ startswith p "#" = false /\ startswith p "!" = false)
    ["out"; "notes.txt"].
Proof.
  apply (proj1 (gitignore_patterns_shape Samples2.proj
                  (root Samples2.proj) ["out"; "notes.txt"] eq_refl)).
Defined.

(** X9.  Patterns written one per line come back as they are: when the
    .gitignore holds only plain patterns (not empty, trimmed, without line
    boundary, not starting with [#] or [!], not ending with a slash),
    [load_gitignore] returns exactly these patterns, in their order. *)
Theorem gitignore_round_trip :
  forall w root ps,
    forallb plain_pattern ps = true ->
    read_text w (child root ".gitignore") = Ok (Str.join (String "010" "") ps) ->
    load_gitignore w root = Ok ps.
Proof.
  intros w root ps P R. unfold load_gitignore.
  rewrite (read_ok_exists _ _ _ R), R. cbn [negb bind].
  rewrite (splitlines_join _ (plain_lines _ P)).
  now rewrite (gitignore_loop_plain _ P).
Qed.

Lemma gitignore_round_trip_witness :
  load_gitignore
    (mkWorld (mkPath ["proj"])
       [File ".gitignore" (Ok (Str.join (String "010" "") ["*.log"; "out"]))]
       writable)
    (mkPath ["proj"])
  = Ok ["*.log"; "out"].
Proof.
  apply gitignore_round_trip; reflexivity.
Defined.

(** X10.  A .gitignore that is a directory exists but cannot be read:
    [load_gitignore] raises [OSError], and [main] ends with that exception
    whatever the project holds. *)
Theorem gitignore_directory_crashes :
  forall fnmatch toml_loads ast_parse unparse w include_source n ch,
    by_name ".gitignore" (top w) = Some (Dir n ch) ->
    load_gitignore w (root w) = Raise OSError
    /\ main fnmatch toml_loads ast_parse unparse w include_source
       = Crash OSError.
Proof.
  intros fnmatch toml_loads ast_parse unparse w include_source n ch H.
  assert (L : load_gitignore w (root w) = Raise OSError).
  { unfold load_gitignore. rewrite exists_child, read_text_child, H.
    reflexivity. }
  split; [exact L|]. unfold main. now rewrite L.
Qed.

Lemma gitignore_directory_crashes_witness :
  main Samples2.fnmatch_plain Samples2.no_tables Samples2.parse_sample
    Samples.unparse_names
    (mkWorld (mkPath ["proj"]) [Dir ".gitignore" []; File "a.py" (Ok "")]
       writable)
    false
  = Crash OSError.
Proof.
  apply (proj2 (gitignore_directory_crashes Samples2.fnmatch_plain
                  Samples2.no_tables Samples2.parse_sample
                  Samples.unparse_names
                  (mkWorld (mkPath ["proj"])
                     [Dir ".gitignore" []; File "a.py" (Ok "")] writable)
                  false ".gitignore" [] eq_refl)).
Defined.

(** *** should_ignore *)

Section Ignore.

Variable fnmatch : string -> string -> bool.

Lemma skipped_part_app (p q : Path) (rel : list string) :
  parts q = parts p ++ rel ->
  has_skipped_part p = true -> has_skipped_part q = true.
Proof.
  unfold has_skipped_part. intros -> H. rewrite existsb_app, H. reflexivity.
Qed.

Lemma should_ignore_skipped (p root : Path) (pats : list string) :
  has_skipped_part p = true -> should_ignore fnmatch p root pats = Ok true.
Proof.
  unfold should_ignore, has_skipped_part. now intros ->.
Qed.

Lemma should_ignore_below (p root : Path) (pats : list string) :
  below root p -> exists b, should_ignore fnmatch p root pats = Ok b.
Proof.
  intros B. apply below_iff in B as [rel B]. unfold should_ignore.
  destruct (existsb _ (parts p)); [now exists true|].
  unfold Py.relative_to. rewrite B. cbn [bind]. eauto.
Qed.

(** X11.  A path with a component listed in [SKIP_ALWAYS] is ignored for
    every root and every pattern list, even outside the root, and so is
    every path below it. *)
Theorem skipped_directories_hide_what_they_hold :
  forall p q root pats,
    has_skipped_part p = true -> below p q ->
    should_ignore fnmatch p root pats = Ok true
    /\ should_ignore fnmatch q root pats = Ok true.
Proof.
  intros p q root pats H [rel B]. split.
  - now apply should_ignore_skipped.
  - apply should_ignore_skipped. now apply (skipped_part_app p q rel).
Qed.

(** X12.  [should_ignore] returns for exactly the paths that have a skipped
    component or lie under the root; for any other path it raises
    [ValueError]. *)
Theorem should_ignore_raises_outside_root :
  forall p root pats,
    ((exists b, should_ignore fnmatch p root pats = Ok b)
     <-> has_skipped_part p = true \/ below root p)
    /\ (has_skipped_part p = false -> ~ below root p ->
        should_ignore fnmatch p root pats = Raise ValueError).
Proof.
  intros p root pats.
  assert (R : has_skipped_part p = false -> ~ below root p ->
              should_ignore fnmatch p root pats = Raise ValueError).
  { intros S N. unfold should_ignore. fold (has_skipped_part p). rewrite S.
    unfold Py.relative_to.
    destruct (Py.strip_prefix (parts root) (parts p)) as [rel|] eqn:E;
      [|reflexivity].
    exfalso. apply N. apply below_iff. now exists rel. }
  split; [|exact R]. split.
  - intros [b H]. destruct (has_skipped_part p) eqn:S; [now left|]. right.
    unfold should_ignore in H. fold (has_skipped_part p) in H. rewrite S in H.
    unfold Py.relative_to in H.
    destruct (Py.strip_prefix (parts root) (parts p)) as [rel|] eqn:E;
      [|discriminate].
    apply below_iff. now exists rel.
  - intros [S|B]; [exists true; now apply should_ignore_skipped|].
    now apply should_ignore_below.
Qed.

(** X13.  Patterns add up: under two pattern lists taken together a path is
    ignored exactly when it is ignored under one of them; with no pattern a
    path under the root is ignored exactly when it has a skipped component. *)
Theorem patterns_add_up :
  forall p root a b x y,
    should_ignore fnmatch p root a = Ok x ->
    should_ignore fnmatch p root b = Ok y ->
    should_ignore fnmatch p root (a ++ b) = Ok (x || y)
    /\ (a = [] -> x = has_skipped_part p).
Proof.
  intros p root a b x y. unfold should_ignore. fold (has_skipped_part p).
  destruct (has_skipped_part p).
  - intros [= <-] [= <-]. split; [reflexivity|]. reflexivity.
  - destruct (Py.relative_to p root) as [rel|e]; [|discriminate].
    cbn [bind]. intros [= <-] [= <-]. rewrite existsb_app.
    split; [reflexivity|]. now intros ->.
Qed.

End Ignore.

Lemma skipped_directories_hide_what_they_hold_witness :
  should_ignore Samples2.fnmatch_plain (mkPath ["proj"; "node_modules"])
    (mkPath ["proj"]) []
  = Ok true
  /\ should_ignore Samples2.fnmatch_plain
       (mkPath ["proj"; "node_modules"; "x.py"]) (mkPath ["elsewhere"]) []
     = Ok true.
Proof.
  split.
  - apply (proj1 (skipped_directories_hide_what_they_hold
                    Samples2.fnmatch_plain (mkPath ["proj"; "node_modules"])
                    (mkPath ["proj"; "node_modules"]) (mkPath ["proj"]) []
                    eq_refl (below_refl _))).
  - apply (proj2 (skipped_directories_hide_what_they_hold
                    Samples2.fnmatch_plain (mkPath ["proj"; "node_modules"])
                    (mkPath ["proj"; "node_modules"; "x.py"])
                    (mkPath ["elsewhere"]) [] eq_refl
                    (ex_intro _ ["x.py"] eq_refl))).
Defined.

Lemma should_ignore_raises_outside_root_witness :
  should_ignore Samples2.fnmatch_plain (mkPath ["other"; "m.py"]) (mkPath ["proj"]) ["*.log"]
  = Raise ValueError.
Proof.
  apply (proj2 (should_ignore_raises_outside_root Samples2.fnmatch_plain
                  (mkPath ["other"; "m.py"]) (mkPath ["proj"]) ["*.log"]));
    [reflexivity|].
  intros [rel H]. discriminate H.
Defined.

Lemma patterns_add_up_witness :
  should_ignore Samples2.fnmatch_plain (mkPath ["proj"; "out"; "gen.py"])
    (mkPath ["proj"]) (["notes.txt"] ++ ["out"])
  = Ok (false || true).
Proof.
  apply (proj1 (patterns_add_up Samples2.fnmatch_plain
                  (mkPath ["proj"; "out"; "gen.py"]) (mkPath ["proj"])
                  ["notes.txt"] ["out"] false true eq_refl eq_refl)).
Defined.


(** *** ascii_tree *)

Lemma entry_nested_ind (P : entry -> Prop) :
  (forall n t, P (File n t)) ->
  (forall n ch, Forall P ch -> P (Dir n ch)) ->
  (forall n, P (Locked n)) ->
  (forall n names, P (Sealed n names)) ->
  forall e, P e.
Proof.
  intros HF HD HL HS. fix IH 1. intros [n t|n ch|n|n names];
    [apply HF| |apply HL|apply HS].
  apply HD. induction ch as [|c ch IHch]; constructor; [apply IH|exact IHch].
Qed.

Section Tree.

Variable fnmatch : string -> string -> bool.
Variable root : Path.
Variable pats : list string.

Lemma walk_kids_count (kids : list kid) :
  Forall kid_ok kids ->
  forall n i prefix,
    exists lines,
      walk_kids kids n i prefix = Ok lines
      /\ List.length lines = list_sum (map (fun kd => S (weight kd)) kids).
Proof.
  induction 1 as [|[k [dir sub]] kids K F IH]; intros n i prefix;
    [now exists []|].
  cbn [walk_kids].
  destruct (K (prefix ++ (if Nat.eqb i (n - 1) then P_BLANK else P_PIPE))%string)
    as (below & E & L).
  cbn [lines_below] in E. destruct dir as [dir|e]; [|discriminate E].
  cbn [bind] in E |- *. rewrite E. cbn [bind].
  destruct (IH n (S i) prefix) as (more & E' & L'). rewrite E'. cbn [bind].
  eexists. split; [reflexivity|].
  cbn [List.length map list_sum]. rewrite length_app, L, L'. reflexivity.
Qed.

Lemma walk_kids_barred (kids : list kid) :
  Forall (fun kd => kid_ok kd \/ kid_barred kd) kids ->
  Exists kid_barred kids ->
  forall n i prefix, walk_kids kids n i prefix = Raise OSError.
Proof.
  induction 1 as [|[k [dir sub]] kids K F IH]; intros X n i prefix;
    [inversion X|].
  cbn [walk_kids].
  assert (B : kid_barred (k, (dir, sub)) ->
              (d <- dir ;;
               below <- (if d : bool
                         then sub k (prefix ++ (if Nat.eqb i (n - 1)
                                                then P_BLANK else P_PIPE))%string
                         else Ok []) ;;
               more <- walk_kids kids n (S i) prefix ;;
               Ok ((prefix ++ (if Nat.eqb i (n - 1) then B_LAST else B_MID)
                           ++ name k)%string :: below ++ more))
              = Raise OSError).
  { intros H.
    specialize (H (prefix ++ (if Nat.eqb i (n - 1) then P_BLANK else P_PIPE))%string).
    cbn [lines_below] in H. destruct dir as [d|e]; cbn [bind] in H |- *;
      [|exact H].
    now rewrite H. }
  destruct K as [K|K]; [|now apply B].
  apply Exists_cons in X as [X|X]; [now apply B|].
  destruct (K (prefix ++ (if Nat.eqb i (n - 1) then P_BLANK else P_PIPE))%string)
    as (below & E & _).
  cbn [lines_below] in E. destruct dir as [d|e]; [|discriminate E].
  cbn [bind] in E |- *. rewrite E. cbn [bind].
  now rewrite (IH X n (S i) prefix).
Qed.

Lemma visible_kids_dir (dir_path : Path) (children : list entry) :
  below root dir_path ->
  Forall (walked fnmatch root pats) children ->
  exists kids,
    visible_kids fnmatch root pats dir_path
      (map (fun c => (entry_name c,
                      (Ok (is_dir c), _walk fnmatch root pats c))) children)
    = Ok kids
    /\ Forall (fun kd => kid_ok kd \/ kid_barred kd) kids
    /\ (barred fnmatch root pats (Dir "" children) dir_path = false ->
        Forall kid_ok kids
        /\ list_sum (map (fun kd => S (weight kd)) kids)
           = shown fnmatch root pats (Dir "" children) dir_path)
    /\ (barred fnmatch root pats (Dir "" children) dir_path = true ->
        Exists kid_barred kids).
Proof.
  intros B. induction 1 as [|c children Q F IH].
  { exists []. cbn. repeat split; try constructor; discriminate. }
  cbn [map visible_kids].
  destruct (should_ignore_below fnmatch (child dir_path (entry_name c)) root
              pats (below_child _ _ _ B)) as [b E].
  rewrite E. cbn [bind]. destruct IH as (kids & E' & A & K & X).
  rewrite E'. cbn [bind]. cbn [shown barred map list_sum existsb] in *.
  rewrite E.
  destruct b.
  { exists kids. cbn [orb]. split; [reflexivity|]. split; [exact A|].
    split; [|exact X]. intros H. destruct (K H) as [K1 K2].
    split; [exact K1|]. rewrite K2. reflexivity. }
  eexists. split; [reflexivity|].
  destruct (Q (child dir_path (entry_name c)) (below_child _ _ _ B))
    as [Qok Qbad].
  set (kd := (child dir_path (entry_name c),
              (Ok (is_dir c), _walk fnmatch root pats c)) : kid).
  assert (W : barred fnmatch root pats c (child dir_path (entry_name c)) = false ->
              kid_ok kd
              /\ weight kd
                 = shown fnmatch root pats c (child dir_path (entry_name c))).
  { intros Hb.
    assert (W : forall prefix, exists lines,
               lines_below kd prefix = Ok lines
               /\ List.length lines
                  = shown fnmatch root pats c (child dir_path (entry_name c))).
    { intros prefix. unfold kd. cbn [lines_below bind].
      destruct c as [n t|n ch|n|n names]; cbn [is_dir];
        [now exists [] | now apply Qok | discriminate Hb | now apply Qok]. }
    assert (N : weight kd
                = shown fnmatch root pats c (child dir_path (entry_name c))).
    { unfold weight. destruct (W "") as (lines & -> & L'). exact L'. }
    split; [|exact N]. intros prefix. rewrite N. apply W. }
  assert (V : barred fnmatch root pats c (child dir_path (entry_name c)) = true ->
              kid_barred kd).
  { intros Hb prefix. unfold kd. cbn [lines_below bind].
    destruct c as [n t|n ch|n|n names]; cbn [is_dir];
      [discriminate Hb | now apply Qbad | reflexivity | now apply Qbad]. }
  destruct (barred fnmatch root pats c (child dir_path (entry_name c))) eqn:Hb.
  - split; [constructor; [right; now apply V | exact A]|].
    split; [discriminate|]. intros _. left. now apply V.
  - destruct (W eq_refl) as [Wok N]. cbn [orb] in *.
    split; [constructor; [now left | exact A]|]. split.
    + intros H. destruct (K H) as [K1 K2]. split; [now constructor|].
      cbn [map]. unfold list_sum in *. cbn [fold_right]. rewrite N.
      f_equal. exact K2.
    + intros H. right. now apply X.
Qed.

Lemma visible_kids_sealed (dir_path : Path) (names : list string) :
  below root dir_path ->
  exists kids,
    visible_kids fnmatch root pats dir_path
      (map (fun n => (n, (Raise OSError, fun _ _ => Ok []))) names)
    = Ok kids
    /\ Forall kid_barred kids
    /\ (barred fnmatch root pats (Sealed "" names) dir_path = false ->
        kids = [])
    /\ (barred fnmatch root pats (Sealed "" names) dir_path = true ->
        Exists kid_barred kids).
Proof.
  intros B. induction names as [|n names IH].
  { exists []. cbn. repeat split; try constructor; discriminate. }
  cbn [map visible_kids].
  destruct (should_ignore_below fnmatch (child dir_path n) root
              pats (below_child _ _ _ B)) as [b E].
  rewrite E. cbn [bind]. destruct IH as (kids & E' & A & K & X).
  rewrite E'. cbn [bind]. cbn [barred existsb] in *. rewrite E.
  destruct b; [exists kids; cbn [orb]; now repeat split|].
  eexists. split; [reflexivity|].
  assert (V : kid_barred (child dir_path n,
                          (@Raise bool OSError,
                           fun (_ : Path) (_ : string) => @Ok (list string) [])))
    by (intros prefix; reflexivity).
  split; [now constructor|]. split; [discriminate|].
  intros _. now left.
Qed.

Lemma walk_outcome (e : entry) : walked fnmatch root pats e.
Proof.
  induction e as [n t|n children IH|n|n names] using entry_nested_ind;
    intros dir_path B.
  - split; [intros _ prefix; now exists [] | discriminate].
  - destruct (visible_kids_dir dir_path children B IH)
      as (kids & E & A & K & X).
    cbn [_walk]. rewrite E. cbn [bind].
    change (barred fnmatch root pats (Dir n children) dir_path)
      with (barred fnmatch root pats (Dir "" children) dir_path).
    change (shown fnmatch root pats (Dir n children) dir_path)
      with (shown fnmatch root pats (Dir "" children) dir_path).
    split; intros Hb prefix.
    + destruct (K Hb) as [K1 K2].
      destruct (walk_kids_count (sort_by kid_lt kids)
                  (Permutation_Forall
                     (Permutation_sym (sort_by_perm kid_lt kids)) K1)
                  (List.length (sort_by kid_lt kids)) 0 prefix)
        as (lines & E' & L').
      exists lines. split; [exact E'|]. rewrite L'.
      rewrite (list_sum_perm _ _
                 (Permutation_map _ (sort_by_perm kid_lt kids))).
      exact K2.
    + apply walk_kids_barred.
      * exact (Permutation_Forall
                 (Permutation_sym (sort_by_perm kid_lt kids)) A).
      * exact (Permutation_Exists
                 (Permutation_sym (sort_by_perm kid_lt kids)) (X Hb)).
  - split; [discriminate | reflexivity].
  - destruct (visible_kids_sealed dir_path names B) as (kids & E & A & K & X).
    cbn [_walk]. rewrite E. cbn [bind].
    change (barred fnmatch root pats (Sealed n names) dir_path)
      with (barred fnmatch root pats (Sealed "" names) dir_path).
    split; intros Hb prefix.
    + rewrite (K Hb). now exists [].
    + apply walk_kids_barred.
      * apply (Permutation_Forall
                 (Permutation_sym (sort_by_perm kid_lt kids))).
        eapply Forall_impl. 2: exact A. intros kd H. now right.
      * exact (Permutation_Exists
                 (Permutation_sym (sort_by_perm kid_lt kids)) (X Hb)).
Qed.

End Tree.

(** X14.  The tree view returns unless its walk is barred: when no
    directory that it comes to refuses to be listed and no entry that it
    shows lies in a directory that cannot be searched, it has, after the
    line of the root, one line for every entry of the tree that is not
    ignored and whose ancestors are not ignored, an ignored directory hiding
    everything it holds; otherwise [iterdir] or [is_dir] raises and the
    tree view raises [OSError]. *)
Theorem tree_view_counts_shown_entries :
  forall fnmatch w pats,
    (barred fnmatch (root w) pats (Dir (name (root w)) (top w)) (root w)
     = false ->
     exists lines,
       ascii_tree fnmatch w pats
       = Ok (Str.join (String "010" "") (name (root w) :: lines))
       /\ List.length lines
          = shown fnmatch (root w) pats (Dir (name (root w)) (top w)) (root w))
    /\ (barred fnmatch (root w) pats (Dir (name (root w)) (top w)) (root w)
        = true ->
        ascii_tree fnmatch w pats = Raise OSError).
Proof.
  intros fnmatch w pats. unfold ascii_tree.
  destruct (walk_outcome fnmatch (root w) pats (Dir (name (root w)) (top w))
              (root w) (below_refl _)) as [Hok Hbad].
  split; intros Hb.
  - destruct (Hok Hb "") as (lines & E & L).
    exists lines. rewrite E. now split.
  - now rewrite (Hbad Hb "").
Qed.

Lemma tree_view_counts_shown_entries_witness :
  (exists lines,
      ascii_tree Samples2.fnmatch_plain Samples2.proj_denied_out_of_sight
        ["out"]
      = Ok (Str.join (String "010" "") ("proj" :: lines))
      /\ List.length lines = 3)
  /\ ascii_tree Samples2.fnmatch_plain Samples2.proj_denied ["out"]
     = Raise OSError.
Proof.
  split.
  - apply (proj1 (tree_view_counts_shown_entries Samples2.fnmatch_plain
                    Samples2.proj_denied_out_of_sight ["out"])).
    reflexivity.
  - apply (proj2 (tree_view_counts_shown_entries Samples2.fnmatch_plain
                    Samples2.proj_denied ["out"])).
    reflexivity.
Defined.


(** *** list_py_files *)

Section Listing.

Variable fnmatch : string -> string -> bool.
Variable root : Path.
Variable pats : list string.

Lemma rglob_py_below (e : entry) :
  forall parent, below root parent ->
    Forall (fun p => below root p /\ endswith (name p) ".py" = true)
      (rglob_py e parent).
Proof.
  assert (Own : forall n parent, below root parent ->
            Forall (fun p => below root p /\ endswith (name p) ".py" = true)
              (if endswith n ".py" then [child parent n] else [])).
  { intros n parent B. destruct (endswith n ".py") eqn:E;
      constructor; [|constructor].
    split; [now apply below_child | now rewrite name_child]. }
  induction e as [n t|n children IH|n|n names] using entry_nested_ind;
    intros parent B; cbn [rglob_py entry_name]; apply Forall_app;
    (split; [now apply Own|]).
  - constructor.
  - apply Forall_flat_map. apply Forall_forall. intros c Hin.
    rewrite Forall_forall in IH. apply (IH c Hin). now apply below_child.
  - constructor.
  - apply Forall_forall. intros p Hin.
    apply in_map_iff in Hin as (m & <- & Hin).
    apply filter_In in Hin as [_ Hm].
    split; [now apply below_child, below_child | now rewrite name_child].
Qed.

Lemma not_ignored_filter (paths : list Path) :
  Forall (below root) paths ->
  not_ignored fnmatch root pats paths
  = Ok (filter (listed fnmatch root pats) paths).
Proof.
  induction 1 as [|p paths B F IH]; [reflexivity|].
  cbn [not_ignored filter]. unfold listed at 1.
  destruct (should_ignore_below fnmatch p root pats B) as [b E].
  rewrite E, IH. cbn [bind]. now destruct b.
Qed.

End Listing.

(** X15.  The file discovery never raises.  It returns, in ascending order
    of their components, the paths under the root whose name ends in [.py]
    and that are not ignored, each as often as the search yields it;
    directories with such a name are among them.  The search passes over
    what lies in a directory it cannot list. *)
Theorem python_files_listed :
  forall fnmatch w pats,
    exists files,
      list_py_files fnmatch w pats = Ok files
      /\ paths_ascending files
      /\ Permutation files
           (filter (listed fnmatch (root w) pats)
              (flat_map (fun c => rglob_py c (root w)) (top w)))
      /\ Forall (fun p => below (root w) p /\ endswith (name p) ".py" = true)
           files.
Proof.
  intros fnmatch w pats. unfold list_py_files.
  assert (G : Forall (fun p => below (root w) p
                               /\ endswith (name p) ".py" = true)
                (flat_map (fun c => rglob_py c (root w)) (top w))).
  { apply Forall_flat_map. apply Forall_forall. intros c _.
    apply rglob_py_below, below_refl. }
  rewrite (not_ignored_filter fnmatch (root w) pats);
    [|apply (Forall_impl _ (fun p H => proj1 H) G)].
  cbn [bind]. eexists. split; [reflexivity|].
  split; [|split].
  - apply sort_by_sorted. intros a b. apply parts_lt_asym.
  - apply sort_by_perm.
  - apply Forall_forall. intros p Hin.
    apply (Permutation_in _ (sort_by_perm _ _)) in Hin.
    apply filter_In in Hin as [Hin _].
    rewrite Forall_forall in G. now apply G.
Qed.


(** *** gather_dependencies *)




Lemma requirement_shape (ln : string) :
  contains "#" (requirement ln) = false
  /\ strip (requirement ln) = requirement ln.
Proof.
  unfold requirement. split; [|apply strip_idem].
  rewrite contains_strip by reflexivity. apply contains_before_same.
Qed.

(** X17.  Without a pyproject.toml, the dependencies are the requirements
    of the lines of requirements.txt: for each line the text before the
    first [#], trimmed, when it is not empty.  No entry holds a [#] or has
    blanks around it. *)
Theorem requirements_entries :
  forall toml_loads w root text,
    exists_ w (child root "pyproject.toml") = false ->
    read_text w (child root "requirements.txt") = Ok text ->
    exists deps,
      gather_dependencies toml_loads w root = Ok deps
      /\ (forall d, In d deps
                    <-> d <> "" /\ In d (map requirement (splitlines text)))
      /\ Forall (fun d => contains "#" d = false /\ strip d = d) deps.
Proof.
  intros toml_loads w root text P R. unfold gather_dependencies.
  rewrite P, (read_ok_exists _ _ _ R), R. cbn [bind].
  eexists. split; [reflexivity|].
  assert (M : forall d,
             In d (sorted_set (filter truthy
                                 (map requirement (splitlines text))))
             <-> d <> "" /\ In d (map requirement (splitlines text))).
  { intros d. rewrite sorted_set_in, filter_In, truthy_true. tauto. }
  split; [exact M|].
  apply Forall_forall. intros d Hin. apply M in Hin as [_ Hin].
  apply in_map_iff in Hin as (ln & <- & _). apply requirement_shape.
Qed.

Lemma requirements_entries_witness :
  exists deps,
    gather_dependencies Samples2.no_tables Samples2.proj (root Samples2.proj)
    = Ok deps
    /\ Forall (fun d => contains "#" d = false /\ strip d = d) deps.
Proof.
  destruct (requirements_entries Samples2.no_tables Samples2.proj
              (root Samples2.proj) _ eq_refl eq_refl) as (deps & E & _ & F).
  exists deps. split; [exact E | exact F].
Defined.

(** X18.  A pyproject.toml takes precedence: requirements.txt is not read
    when it exists.  What its parser raises reaches the caller, and a
    manifest with neither a [project] nor a [tool] table gives no
    dependency. *)
Theorem manifest_takes_precedence :
  forall toml_loads w root text,
    read_text w (child root "pyproject.toml") = Ok text ->
    (forall e, toml_loads text = Raise e ->
               gather_dependencies toml_loads w root = Raise e)
    /\ (forall d, toml_loads text = Ok (VDict d) ->
                  assoc "project" d = None -> assoc "tool" d = None ->
                  gather_dependencies toml_loads w root = Ok []).
Proof.
  intros toml_loads w root text R. unfold gather_dependencies.
  rewrite (read_ok_exists _ _ _ R), R. cbn [bind]. split.
  - now intros e ->.
  - intros d -> P T. unfold pyproject_dependencies. cbn [get bind].
    rewrite P, T. reflexivity.
Qed.

Lemma manifest_takes_precedence_witness :
  gather_dependencies Samples2.no_tables Samples2.proj_manifest
    (root Samples2.proj_manifest)
  = Ok []
  /\ gather_dependencies (fun _ => Raise ValueError) Samples2.proj_manifest
       (root Samples2.proj_manifest)
     = Raise ValueError.
Proof.
  split.
  - apply (proj2 (manifest_takes_precedence Samples2.no_tables
                    Samples2.proj_manifest (root Samples2.proj_manifest)
                    "[build-system]" eq_refl)
             [("build-system", VDict [])]); reflexivity.
  - apply (proj1 (manifest_takes_precedence (fun _ => Raise ValueError)
                    Samples2.proj_manifest (root Samples2.proj_manifest)
                    "[build-system]" eq_refl)
             ValueError). reflexivity.
Defined.


(** *** combined_source *)

Lemma source_blocks_ok (fs : filesystem) (root : Path) (files : list Path) :
  Forall (fun f => below root f /\ exists t, fs f = Ok t) files ->
  forall acc, exists blocks,
    source_blocks fs root files acc = Ok (acc ++ blocks)
    /\ List.length blocks = 3 * List.length files.
Proof.
  induction 1 as [|f files [B [t R]] F IH]; intros acc.
  - exists []. now rewrite app_nil_r.
  - cbn [source_blocks]. apply below_iff in B as [rel B].
    unfold Py.relative_to. rewrite B, R. cbn [bind].
    destruct (IH (acc ++ [("# === " ++ Py.path_str (mkPath rel) ++ " ===")%string;
                          t; ""])) as (blocks & E & L).
    rewrite E. eexists. rewrite <- app_assoc. split; [reflexivity|].
    rewrite length_app, L. cbn [List.length]. lia.
Qed.

Lemma source_blocks_inv (fs : filesystem) (root : Path) (files : list Path) :
  forall acc blocks,
    source_blocks fs root files acc = Ok blocks ->
    Forall (fun f => below root f /\ exists t, fs f = Ok t) files.
Proof.
  induction files as [|f files IH]; intros acc blocks H; [constructor|].
  cbn [source_blocks] in H. unfold Py.relative_to in H.
  destruct (Py.strip_prefix (parts root) (parts f)) as [rel|] eqn:B;
    [|discriminate].
  cbn [bind] in H. destruct (fs f) as [t|] eqn:R; [|discriminate].
  cbn [bind] in H. constructor; [|now apply (IH _ _ H)].
  split; [apply below_iff; now exists rel | now exists t].
Qed.

(** What the loop appends: for every file, in order, its three blocks. *)
Lemma source_blocks_content (fs : filesystem) (root : Path)
    (files : list Path) :
  forall acc all,
    source_blocks fs root files acc = Ok all ->
    exists blocks,
      Forall2 (fun f b =>
                 exists rel text,
                   Py.relative_to f root = Ok rel /\ fs f = Ok text
                   /\ b = [("# === " ++ Py.path_str rel ++ " ===")%string;
                           text; ""])
        files blocks
      /\ all = acc ++ List.concat blocks.
Proof.
  induction files as [|f files IH]; intros acc all H.
  - cbn in H. injection H as <-. exists []. split; [constructor|].
    cbn. now rewrite app_nil_r.
  - cbn [source_blocks] in H.
    destruct (Py.relative_to f root) as [rel|] eqn:B; [|discriminate].
    cbn [bind] in H. destruct (fs f) as [t|] eqn:R; [|discriminate].
    cbn [bind] in H. destruct (IH _ _ H) as (blocks & F2 & ->).
    exists ([("# === " ++ Py.path_str rel ++ " ===")%string; t; ""] :: blocks).
    split.
    + constructor; [|exact F2]. now exists rel, t.
    + cbn [List.concat]. now rewrite <- app_assoc.
Qed.

(** The first file that fails decides the exception. *)
Lemma source_blocks_first_failure (fs : filesystem) (root : Path)
    (pre : list Path) (f : Path) (post : list Path) :
  Forall (fun g => below root g /\ exists t, fs g = Ok t) pre ->
  forall acc,
    (~ below root f ->
     source_blocks fs root (pre ++ f :: post) acc = Raise ValueError)
    /\ (below root f -> forall e, fs f = Raise e ->
        source_blocks fs root (pre ++ f :: post) acc = Raise e).
Proof.
  induction 1 as [|g pre [B [t R]] F IH]; intros acc.
  - cbn [app source_blocks]. unfold Py.relative_to. split.
    + intros N.
      destruct (Py.strip_prefix (parts root) (parts f)) as [rel|] eqn:E;
        [|reflexivity].
      exfalso. apply N. apply below_iff. now exists rel.
    + intros B e R. apply below_iff in B as [rel B]. rewrite B. cbn [bind].
      now rewrite R.
  - cbn [app source_blocks]. apply below_iff in B as [rel B].
    replace (Py.relative_to g root) with (Ok (mkPath rel))
      by (unfold Py.relative_to; now rewrite B).
    rewrite R. cbn [bind]. apply IH.
Qed.

(** X19.  The combined source is returned exactly when every file lies
    under the project root and can be read.  It is then the blocks of the
    files, in their order, joined by line feeds, three blocks for each
    file: the header [# === rel ===] with the path relative to the root,
    the text of the file, and an empty block.  Otherwise the first file
    that fails decides: [ValueError] when it lies outside the root, else
    what reading it raises. *)
Theorem combined_source_needs_every_file :
  forall fs files root,
    ((exists s, combined_source fs files root = Ok s)
     <-> Forall (fun f => below root f /\ exists t, fs f = Ok t) files)
    /\ (forall s,
          combined_source fs files root = Ok s ->
          exists blocks,
            Forall2 (fun f b =>
                       exists rel text,
                         Py.relative_to f root = Ok rel /\ fs f = Ok text
                         /\ b = [("# === " ++ Py.path_str rel ++ " ===")%string;
                                 text; ""])
              files blocks
            /\ s = Str.join (String "010" "") (List.concat blocks))
    /\ (forall pre f post,
          files = pre ++ f :: post ->
          Forall (fun g => below root g /\ exists t, fs g = Ok t) pre ->
          (~ below root f ->
           combined_source fs files root = Raise ValueError)
          /\ (below root f -> forall e, fs f = Raise e ->
              combined_source fs files root = Raise e)).
Proof.
  intros fs files root. unfold combined_source. split; [split|split].
  - intros [s H].
    destruct (source_blocks fs root files []) as [b|] eqn:E; [|discriminate].
    now apply (source_blocks_inv _ _ _ _ _ E).
  - intros F. destruct (source_blocks_ok fs root files F []) as (b & E & L).
    rewrite E. cbn [bind app]. eauto.
  - intros s H.
    destruct (source_blocks fs root files []) as [b|] eqn:E; [|discriminate].
    cbn [bind] in H. injection H as <-.
    destruct (source_blocks_content _ _ _ _ _ E) as (blocks & F2 & ->).
    now exists blocks.
  - intros pre f post -> F.
    destruct (source_blocks_first_failure fs root pre f post F []) as [V R].
    split.
    + intros N. now rewrite (V N).
    + intros B e H. now rewrite (R B e H).
Qed.

Lemma combined_source_needs_every_file_witness :
  (exists blocks,
      Forall2 (fun f b =>
                 exists rel text,
                   Py.relative_to f (mkPath ["proj"]) = Ok rel
                   /\ read_text Samples2.proj_files_only f = Ok text
                   /\ b = [("# === " ++ Py.path_str rel ++ " ===")%string;
                           text; ""])
        [mkPath ["proj"; "a.py"]; mkPath ["proj"; "pkg"; "m.py"]] blocks
      /\ ("# === a.py ===" ++ Samples2.nl ++ "def a(): pass" ++ Samples2.nl
          ++ Samples2.nl ++ "# === pkg/m.py ===" ++ Samples2.nl
          ++ "def m(): pass" ++ Samples2.nl)%string
         = Str.join (String "010" "") (List.concat blocks))
  /\ combined_source (read_text Samples2.proj)
       [mkPath ["proj"; "a.py"]; mkPath ["elsewhere"; "b.py"];
        mkPath ["proj"; "pkg"; "stubs.py"]] (mkPath ["proj"])
     = Raise ValueError
  /\ combined_source (read_text Samples2.proj)
       [mkPath ["proj"; "a.py"]; mkPath ["proj"; "pkg"; "stubs.py"];
        mkPath ["elsewhere"; "b.py"]] (mkPath ["proj"])
     = Raise OSError.
Proof.
  assert (A : Forall (fun g => below (mkPath ["proj"]) g
                               /\ exists t, read_text Samples2.proj g = Ok t)
                [mkPath ["proj"; "a.py"]]).
  { constructor; [|constructor].
    split; [exists ["a.py"]; reflexivity | eexists; reflexivity]. }
  split; [|split].
  - apply (proj1 (proj2 (combined_source_needs_every_file
                           (read_text Samples2.proj_files_only)
                           [mkPath ["proj"; "a.py"];
                            mkPath ["proj"; "pkg"; "m.py"]]
                           (mkPath ["proj"])))).
    reflexivity.
  - apply (proj1 (proj2 (proj2 (combined_source_needs_every_file
                                  (read_text Samples2.proj)
                                  [mkPath ["proj"; "a.py"];
                                   mkPath ["elsewhere"; "b.py"];
                                   mkPath ["proj"; "pkg"; "stubs.py"]]
                                  (mkPath ["proj"])))
                    [mkPath ["proj"; "a.py"]] (mkPath ["elsewhere"; "b.py"])
                    [mkPath ["proj"; "pkg"; "stubs.py"]] eq_refl A)).
    intros [rel H]. discriminate H.
  - apply (proj2 (proj2 (proj2 (combined_source_needs_every_file
                                  (read_text Samples2.proj)
                                  [mkPath ["proj"; "a.py"];
                                   mkPath ["proj"; "pkg"; "stubs.py"];
                                   mkPath ["elsewhere"; "b.py"]]
                                  (mkPath ["proj"])))
                    [mkPath ["proj"; "a.py"]]
                    (mkPath ["proj"; "pkg"; "stubs.py"])
                    [mkPath ["elsewhere"; "b.py"]] eq_refl A)
             (ex_intro _ ["pkg"; "stubs.py"] eq_refl) OSError eq_refl).
Defined.

(** *** main *)

Section Run.

Variable fnmatch : string -> string -> bool.
Variable toml_loads : string -> result value.
Variable ast_parse : string -> result (list Py.stmt).
Variable unparse : Py.expr -> string.

Lemma list_py_files_eq (w : world) (pats : list string) :
  list_py_files fnmatch w pats
  = Ok (sort_by path_lt
          (filter (listed fnmatch (root w) pats)
             (flat_map (fun c => rglob_py c (root w)) (top w)))).
Proof.
  unfold list_py_files. rewrite not_ignored_filter; [reflexivity|].
  apply Forall_flat_map. apply Forall_forall. intros c _.
  eapply Forall_impl. 2: apply rglob_py_below, below_refl.
  intros p [H _]. exact H.
Qed.

Lemma sort_by_nil {A : Type} (lt : A -> A -> bool) (l : list A) :
  sort_by lt l = [] <-> l = [].
Proof.
  split; [|now intros ->]. intros H.
  apply Permutation_nil. rewrite <- H. apply sort_by_perm.
Qed.


Lemma extract_all_raises (w : world) (f : Path) (files : list Path) :
  In f files -> read_text w f = Raise OSError ->
  forall a b, exists e, extract_all ast_parse unparse w files a b = Raise e.
Proof.
  intros Hin R. induction files as [|g files IH]; intros a b; [destruct Hin|].
  cbn [extract_all].
  destruct (Py.extract_from_file ast_parse unparse (read_text w) g (root w))
    as [fc|e] eqn:E; [|now exists e].
  cbn [bind]. destruct Hin as [->|Hin]; [|now apply IH].
  rewrite (PyFacts.read_error_propagates _ _ _ _ _ R) in E. discriminate.
Qed.



End Run.

(** X20.  Once the .gitignore is loaded, [main] exits with the message
    about missing Python files exactly when no path named [*.py] under the
    root survives the ignore rules; nothing is written then. *)
Theorem main_exits_without_python_files :
  forall fnmatch toml_loads ast_parse unparse w include_source pats,
    load_gitignore w (root w) = Ok pats ->
    (main fnmatch toml_loads ast_parse unparse w include_source
     = Exit "[ERR] No Python files found (after filtering)."
     <-> filter (listed fnmatch (root w) pats)
           (flat_map (fun c => rglob_py c (root w)) (top w)) = []).
Proof.
  intros fnmatch toml_loads ast_parse unparse w include_source pats L.
  unfold main. rewrite L, list_py_files_eq.
  destruct (sort_by path_lt _) as [|f files] eqn:E.
  - split; [intros _; now apply (sort_by_nil path_lt) | reflexivity].
  - split.
    + destruct (report_lines _ _ _ _ _ _ _ _) as [report|e];
        [destruct (write_text w _)|]; discriminate.
    + intros H. apply (sort_by_nil path_lt) in H. congruence.
Qed.

Lemma main_exits_without_python_files_witness :
  main Samples2.fnmatch_plain Samples2.no_tables Samples2.parse_sample
    Samples.unparse_names
    (mkWorld (mkPath ["proj"])
       [ File ".gitignore" (Ok "out");
         Dir "out" [File "gen.py" (Ok "")];
         Dir "node_modules" [File "x.py" (Ok "")];
         File "README.md" (Ok "") ]
       writable)
    true
  = Exit "[ERR] No Python files found (after filtering).".
Proof.
  apply (proj2 (main_exits_without_python_files Samples2.fnmatch_plain
                  Samples2.no_tables Samples2.parse_sample
                  Samples.unparse_names
                  (mkWorld (mkPath ["proj"])
                     [ File ".gitignore" (Ok "out");
                       Dir "out" [File "gen.py" (Ok "")];
                       Dir "node_modules" [File "x.py" (Ok "")];
                       File "README.md" (Ok "") ]
                     writable)
                  true ["out"] eq_refl)).
  reflexivity.
Defined.

(** X21.  A listed path that cannot be read ends the run with an exception
    and no report: a directory named like a module is listed by the file
    discovery and then read by the extractor. *)
Theorem main_crashes_on_unreadable_listed_path :
  forall fnmatch toml_loads ast_parse unparse w include_source pats f,
    load_gitignore w (root w) = Ok pats ->
    In f (filter (listed fnmatch (root w) pats)
            (flat_map (fun c => rglob_py c (root w)) (top w))) ->
    read_text w f = Raise OSError ->
    exists e,
      main fnmatch toml_loads ast_parse unparse w include_source = Crash e.
Proof.
  intros fnmatch toml_loads ast_parse unparse w include_source pats f L Hin R.
  unfold main. rewrite L, list_py_files_eq.
  apply (Permutation_in _ (Permutation_sym (sort_by_perm path_lt _))) in Hin.
  destruct (sort_by path_lt _) as [|g files] eqn:E; [destruct Hin|].
  unfold report_lines.
  destruct (ascii_tree fnmatch w pats) as [tree|e]; cbn [bind];
    [|now exists e].
  destruct (extract_all_raises ast_parse unparse w f (g :: files) Hin R [] [])
    as [e ->].
  now exists e.
Qed.

Lemma main_crashes_on_unreadable_listed_path_witness :
  exists e,
    main Samples2.fnmatch_plain Samples2.no_tables Samples2.parse_sample
      Samples.unparse_names Samples2.proj false
    = Crash e.
Proof.
  apply (main_crashes_on_unreadable_listed_path Samples2.fnmatch_plain
           Samples2.no_tables Samples2.parse_sample Samples.unparse_names
           Samples2.proj false ["out"; "notes.txt"]
           (mkPath ["proj"; "pkg"; "stubs.py"]) eq_refl).
  - right. right. left. reflexivity.
  - reflexivity.
Defined.




End ReportFacts.
